(** * The Alchemist's Forge: staged generation pipeline

    A shallow embedding of the retrying remote-call executor
    ([withRetry]), the listing-copy and mockup-batch stages
    ([generateListingCopy], [generateFinalAssets]), the Printify service
    ([getPrintifyShop], [uploadImageToPrintify], [createPrintifyProduct])
    and the two handlers of the application that drive them
    ([handleForgeAssets], [handlePrintifyPublish]).

    Asynchronous code is sequential here: every [await] is a bind of the
    monad [M], which threads the state of the remote collaborators, the
    trace of observable effects and the React state of the component. *)

From Stdlib Require Import ZArith List String Ascii Bool Lia DecimalString Sorted.
From Equations Require Import Equations.
Import ListNotations.

Open Scope string_scope.
Open Scope Z_scope.

(* ===================================================================== *)
(** * JavaScript values and strings *)
(* ===================================================================== *)

Module Js.

(** The values a duck-typed field of an error may hold.  Numbers are the
    integers (status codes, counters). *)
Inductive JsVal : Type :=
| JUndefined
| JNull
| JBool (b : bool)
| JNum (n : Z)
| JStr (s : string)
| JObject.

(** ToBoolean. *)
Definition truthy (v : JsVal) : bool :=
  match v with
  | JUndefined | JNull => false
  | JBool b => b
  | JNum n => negb (n =? 0)
  | JStr s => negb (String.eqb s "")
  | JObject => true
  end.

(** [a || b]. *)
Definition js_or (a b : JsVal) : JsVal := if truthy a then a else b.

Definition string_of_Z (n : Z) : string := NilZero.string_of_int (Z.to_int n).

(** [String(v)], also the conversion of a template literal. *)
Definition js_String (v : JsVal) : string :=
  match v with
  | JUndefined => "undefined"
  | JNull => "null"
  | JBool true => "true"
  | JBool false => "false"
  | JNum n => string_of_Z n
  | JStr s => s
  | JObject => "[object Object]"
  end.

(** [v === n] for a number literal [n]. *)
Definition strict_eq_num (v : JsVal) (n : Z) : bool :=
  match v with
  | JNum m => m =? n
  | _ => false
  end.

Definition lower_ascii (c : ascii) : ascii :=
  let n := nat_of_ascii c in
  if (Nat.leb 65 n && Nat.leb n 90)%bool then ascii_of_nat (n + 32) else c.

(** [s.toLowerCase()] on the ASCII letters. *)
Fixpoint toLowerCase (s : string) : string :=
  match s with
  | EmptyString => EmptyString
  | String c r => String (lower_ascii c) (toLowerCase r)
  end.

Fixpoint startsWith (s p : string) : bool :=
  match p, s with
  | EmptyString, _ => true
  | String a p', String b s' => (Ascii.eqb a b && startsWith s' p')%bool
  | String _ _, EmptyString => false
  end.

(** [s.includes(m)]. *)
Fixpoint includes (s m : string) : bool :=
  (startsWith s m ||
   match s with
   | EmptyString => false
   | String _ r => includes r m
   end)%bool.

(** [s.split(c)] for a separator of one character: never empty. *)
Fixpoint split (sep : ascii) (s : string) : list string :=
  match s with
  | EmptyString => [EmptyString]
  | String c r =>
      if Ascii.eqb c sep then EmptyString :: split sep r
      else match split sep r with
           | h :: t => String c h :: t
           | [] => [String c EmptyString]
           end
  end.

(** [xs.join(sep)]. *)
Fixpoint join (sep : string) (xs : list string) : string :=
  match xs with
  | [] => EmptyString
  | [x] => x
  | x :: rest => x ++ sep ++ join sep rest
  end.

Definition is_space (c : ascii) : bool :=
  let n := nat_of_ascii c in
  (Nat.eqb n 32 || (Nat.leb 9 n && Nat.leb n 13))%bool.

Fixpoint trimStart (s : string) : string :=
  match s with
  | EmptyString => EmptyString
  | String c r => if is_space c then trimStart r else s
  end.

Fixpoint trimEnd (s : string) : string :=
  match s with
  | EmptyString => EmptyString
  | String c r =>
      match trimEnd r with
      | EmptyString => if is_space c then EmptyString else String c EmptyString
      | r' => String c r'
      end
  end.

(** [s.trim()] on the ASCII white space. *)
Definition trim (s : string) : string := trimEnd (trimStart s).

Definition dquote : string := String (ascii_of_nat 34) EmptyString.
Definition newline : string := String (ascii_of_nat 10) EmptyString.

(** What the code reads of a thrown value.  [response_status] is the value
    of [error.response?.status], [error_code] of [error.error?.code],
    [error_message] of [error.error?.message], [json] of
    [JSON.stringify(error)] and [to_string] of [String(error)]. *)
Record JsError : Type := mkJsError {
  instanceof_Error : bool;
  status : JsVal;
  response_status : JsVal;
  error_code : JsVal;
  message : JsVal;
  error_message : JsVal;
  json : string;
  to_string : string
}.

(** [new Error(msg)]. *)
Definition new_Error (msg : string) : JsError :=
  {| instanceof_Error := true;
     status := JUndefined;
     response_status := JUndefined;
     error_code := JUndefined;
     message := JStr msg;
     error_message := JUndefined;
     json := "{}";
     to_string := "Error: " ++ msg |}.

(** A promise settles with a value or with a thrown error. *)
Inductive Outcome (A : Type) : Type :=
| Ok (a : A)
| Throw (e : JsError).
Arguments Ok {A} a.
Arguments Throw {A} e.

End Js.
Import Js.

(* ===================================================================== *)
(** * Data model ([types.ts] and the interfaces of the component) *)
(* ===================================================================== *)

Record ProductConcept : Type := {
  conceptTitle : string;
  displayText : string;
  fusion : list string;
  vision : string;
  whyItWorks : string
}.

Record ListingCopy : Type := {
  lc_title : string;
  lc_description : string;
  lc_variations : list string;
  lc_tags : list string
}.

Inductive ProductType : Type :=
| Sweatshirt | Mug | Ornament | TShirt | ToteBag | Pillow | Hoodie.

Definition productType_name (p : ProductType) : string :=
  match p with
  | Sweatshirt => "Sweatshirt"
  | Mug => "Mug"
  | Ornament => "Ornament"
  | TShirt => "T-Shirt"
  | ToteBag => "Tote Bag"
  | Pillow => "Pillow"
  | Hoodie => "Hoodie"
  end.

Inductive AppStep : Type := CONFIG | IDEATION | DESIGN | FINALIZE.

Record PrintifyShop : Type := { shop_id : string; shop_title : string }.

Record PrintifyImageUploadResponse : Type := {
  upload_id : string;
  upload_file_name : string;
  upload_url : string
}.

Record PrintifyProductResponse : Type := {
  product_id : string;
  product_title : string;
  product_external_id : string
}.

Record FinalizedProduct : Type := {
  concept : ProductConcept;
  designUrl : string;
  mockups : list string;
  listingCopy : ListingCopy;
  productType : ProductType;
  printifyId : option string
}.

Record DesignItem : Type := {
  di_concept : ProductConcept;
  di_url : string;
  di_productType : ProductType
}.

(** The [useState] cells of [App] that the modelled handlers read or write. *)
Record AppState : Type := {
  step : AppStep;
  isLoading : bool;
  loadingMessage : string;
  error : option JsVal;
  showSettings : bool;
  holiday : string;
  printifyToken : string;
  selectedDesigns : list DesignItem;
  finalizedProducts : list FinalizedProduct;
  successMessage : option string
}.

(* ===================================================================== *)
(** * Collaborators: requests, responses, observable effects *)
(* ===================================================================== *)

(** ** Generative service *)

Record InlineData : Type := { mimeType : string; data : string }.

Inductive RequestPart : Type :=
| ImagePart (inline : InlineData)
| TextPart (text : string).

(** The [config] of a request: the listing-copy call asks for JSON under the
    fixed schema and system instruction, an image call for the IMAGE
    modality. *)
Inductive GenConfig : Type := ListingCopyConfig | ImageConfig.

Record GenRequest : Type := {
  model : string;
  contents : list RequestPart;
  config : GenConfig
}.

Record Part : Type := { inlineData : option InlineData; part_text : option string }.
Record Content : Type := { parts : option (list Part) }.
(** A candidate that was blocked has no [content]. *)
Record Candidate : Type := { content : option Content }.
Record GenerateContentResponse : Type := {
  candidates : option (list Candidate);
  response_text : string
}.

(** ** Commerce service *)

Record VariantPayload : Type := { variant_id : Z; price : Z; is_enabled : bool }.

(** Position and scale of the image, in hundredths. *)
Record ImagePlacement : Type := {
  image_id : string;
  x_percent : Z;
  y_percent : Z;
  scale_percent : Z;
  angle : Z
}.

Record Placeholder : Type := { position : string; images : list ImagePlacement }.
Record PrintArea : Type := { variant_ids : list Z; placeholders : list Placeholder }.

Record ProductPayload : Type := {
  payload_title : string;
  payload_description : string;
  blueprint_id : Z;
  print_provider_id : Z;
  variants : list VariantPayload;
  print_areas : list PrintArea;
  payload_tags : list string
}.

Inductive HttpRequest : Type :=
| GetShops (token : string)
| PostUpload (token file_name contents : string)
| PostProduct (token shopId : string) (payload : ProductPayload).

(** A response of [fetch]: [response.ok] with the outcome of
    [response.json()] read at the type the caller expects, or a response
    that is not ok with the outcome of [response.json()] followed by
    [JSON.stringify]. *)
Inductive HttpResponse (A : Type) : Type :=
| HttpOk (body : Outcome A)
| HttpNotOk (error_body : Outcome string).
Arguments HttpOk {A} body.
Arguments HttpNotOk {A} error_body.

(** ** Observable effects, in the order they happen *)

Inductive Event : Type :=
| EvGenerateContent (req : GenRequest)
| EvFetch (req : HttpRequest)
| EvSleep (ms : Z)
| EvConsoleWarn (status message : JsVal) (delay retries maxRetries : Z)
| EvConsoleError (label : string) (e : JsError)
| EvProgress (progress total : Z).

(** The remote collaborators answer from a state of their own, which a call
    may change; [JSON_parse] is the host's [JSON.parse] read at the type
    [ListingCopy]. *)
Class Environment : Type := {
  World : Type;
  generateContent : GenRequest -> World -> Outcome GenerateContentResponse * World;
  fetch_shops : string -> World -> Outcome (HttpResponse (list PrintifyShop)) * World;
  fetch_upload : string -> string -> string -> World ->
                 Outcome (HttpResponse PrintifyImageUploadResponse) * World;
  fetch_product : string -> string -> ProductPayload -> World ->
                  Outcome (HttpResponse PrintifyProductResponse) * World;
  JSON_parse : string -> Outcome ListingCopy
}.

(* ===================================================================== *)
(** * The monad of asynchronous code *)
(* ===================================================================== *)

Section Monad.
Context {E : Environment}.

Record St : Type := mkSt {
  world : World;
  trace : list Event;
  ui : AppState
}.

Definition M (A : Type) : Type := St -> Outcome A * St.

Definition ret {A} (a : A) : M A := fun st => (Ok a, st).

Definition bind {A B} (c : M A) (k : A -> M B) : M B :=
  fun st =>
    match c st with
    | (Ok a, st1) => k a st1
    | (Throw e, st1) => (Throw e, st1)
    end.

Definition throw {A} (e : JsError) : M A := fun st => (Throw e, st).

(** [try { body } catch (error) { handler }]. *)
Definition try_catch {A} (body : M A) (handler : JsError -> M A) : M A :=
  fun st =>
    match body st with
    | (Ok a, st1) => (Ok a, st1)
    | (Throw e, st1) => handler e st1
    end.

(** [try { body } finally { fin }], for a [fin] that does not throw. *)
Definition try_finally {A} (body : M A) (fin : M unit) : M A :=
  fun st =>
    match body st with
    | (r, st1) =>
        match fin st1 with
        | (Ok _, st2) => (r, st2)
        | (Throw e, st2) => (Throw e, st2)
        end
    end.

Definition log_event (ev : Event) (st : St) : St :=
  {| world := world st; trace := trace st ++ [ev]; ui := ui st |}.

Definition log (ev : Event) : M unit := fun st => (Ok tt, log_event ev st).

(** [await new Promise(resolve => setTimeout(resolve, ms))]. *)
Definition sleep (ms : Z) : M unit := log (EvSleep ms).

Definition console_error (label : string) (e : JsError) : M unit :=
  log (EvConsoleError label e).

(** A call of a remote collaborator: the call is observable, the answer
    comes from the collaborator's state. *)
Definition remote {A} (ev : Event) (f : World -> Outcome A * World) : M A :=
  fun st =>
    match f (world st) with
    | (r, w) => (r, {| world := w; trace := trace st ++ [ev]; ui := ui st |})
    end.

Definition get_ui : M AppState := fun st => (Ok (ui st), st).

Definition modify_ui (f : AppState -> AppState) : M unit :=
  fun st => (Ok tt, {| world := world st; trace := trace st; ui := f (ui st) |}).

End Monad.

Declare Scope monad_scope.
Delimit Scope monad_scope with monad.
Notation "x <- c ;; k" := (bind c (fun x => k))
  (at level 100, c at next level, right associativity) : monad_scope.
Notation "c ;; k" := (bind c (fun _ => k))
  (at level 100, right associativity) : monad_scope.
Open Scope monad_scope.

(* ===================================================================== *)
(** * The retrying executor ([withRetry]) *)
(* ===================================================================== *)

Section Executor.
Context {E : Environment}.

(** [error.status || error.response?.status || error.error?.code]. *)
Definition status_of (error : JsError) : JsVal :=
  js_or (js_or (status error) (response_status error)) (error_code error).

(** [error.message || error.error?.message || JSON.stringify(error)]. *)
Definition message_of (error : JsError) : JsVal :=
  js_or (js_or (message error) (error_message error)) (JStr (json error)).

Definition errorMessage (error : JsError) : string :=
  toLowerCase (js_String (message_of error)).

Definition isRetryable (error : JsError) : bool :=
  (includes (errorMessage error) "429" ||
   includes (errorMessage error) "resource_exhausted" ||
   includes (errorMessage error) "quota" ||
   includes (errorMessage error) "internal" ||
   includes (errorMessage error) "overloaded" ||
   includes (errorMessage error) "server error" ||
   strict_eq_num (status_of error) 500 ||
   strict_eq_num (status_of error) 503)%bool.

Definition busy_message (status : JsVal) : string :=
  "The AI service is temporarily busy (Error " ++ js_String status ++
  "). Please try again shortly.".

(** The [while (true)] loop, from the values of [retries] and [delay] at
    the head of an iteration.  The test [isRetryable && retries < maxRetries]
    is read in two steps so that the loop is entered again under
    [retries < maxRetries], which bounds it. *)
Equations? withRetry_loop {T : Type} (apiCall : M T) (maxRetries retries delay : Z)
  (st : St) : Outcome T * St by wf (Z.to_nat (maxRetries - retries)) lt :=
withRetry_loop apiCall maxRetries retries delay st with apiCall st => {
  | (Ok v, st1) => (Ok v, st1)
  | (Throw error, st1) with Z_lt_dec retries maxRetries => {
    | left _ =>
        if isRetryable error then
          withRetry_loop apiCall maxRetries (retries + 1) (delay * 2)
            (log_event (EvSleep delay)
               (log_event (EvConsoleWarn (status_of error) (message_of error)
                             delay (retries + 1) maxRetries) st1))
        else (Throw error, st1)
    | right _ =>
        if isRetryable error then
          (Throw (new_Error (busy_message (status_of error))), st1)
        else (Throw error, st1) } }.
Proof. lia. Qed.

Definition default_to (d : Z) (arg : option Z) : Z :=
  match arg with
  | Some v => v
  | None => d
  end.

(** [withRetry(apiCall, maxRetries = 5, initialDelay = 2000)]. *)
Definition withRetry {T : Type} (apiCall : M T) (maxRetries initialDelay : option Z) : M T :=
  withRetry_loop apiCall (default_to 5 maxRetries) 0 (default_to 2000 initialDelay).

End Executor.

(* ===================================================================== *)
(** * The generative service ([geminiService]) *)
(* ===================================================================== *)

Section GeminiService.
Context {E : Environment}.

(** [ai.models.generateContent(req)]. *)
Definition ai_models_generateContent (req : GenRequest) : M GenerateContentResponse :=
  remote (EvGenerateContent req) (generateContent req).

Definition listingCopyPrompt (concept : ProductConcept) : string :=
  "Generate a complete, SEO-optimized Etsy listing for the product concept: " ++
  conceptTitle concept ++ ". The design aesthetic is " ++ join ", " (fusion concept) ++ ".

Follow these strict requirements based on the 'Holiday Gold' blueprint:
1. **Title:** Create a single, long-tail, keyword-rich title. It MUST be 140 characters or less.
2. **Description:** Write a compelling, SEO-optimized description that tells a story about the product line, its unique appeal, and its target audience.
3. **Variations:** Suggest 2-3 relevant product variations (e.g., color, size) appropriate for the product type based on the blueprint.
4. **Tags:** Provide exactly 13 unique, highly relevant Etsy tags. Each individual tag MUST be 20 characters or less.".

Definition listingCopyRequest (concept : ProductConcept) : GenRequest :=
  {| model := "gemini-3-pro-preview";
     contents := [TextPart (listingCopyPrompt concept)];
     config := ListingCopyConfig |}.

Definition generateListingCopy (concept : ProductConcept) : M ListingCopy :=
  try_catch
    (response <- withRetry (ai_models_generateContent (listingCopyRequest concept)) None None ;;
     let jsonText := trim (response_text response) in
     fun st => (JSON_parse jsonText, st))
    (fun error =>
       console_error "Error generating listing copy:" error ;;
       throw error).

Definition is_line_terminator (c : ascii) : bool :=
  (Nat.eqb (nat_of_ascii c) 10 || Nat.eqb (nat_of_ascii c) 13)%bool.

(** The lazy [(.*?);] of the pattern, from the character after the colon. *)
Fixpoint upto_semicolon (s : string) : option string :=
  match s with
  | EmptyString => None
  | String c r =>
      if Ascii.eqb c ";" then Some EmptyString
      else if is_line_terminator c then None
      else option_map (String c) (upto_semicolon r)
  end.

(** [header.match(/:(.*?);/)?.[1]]. *)
Fixpoint match_mimeType (s : string) : option string :=
  match s with
  | EmptyString => None
  | String c r =>
      if Ascii.eqb c ":" then
        match upto_semicolon r with
        | Some m => Some m
        | None => match_mimeType r
        end
      else match_mimeType r
  end.

(** [!s] for a string that destructuring may have left undefined. *)
Definition falsy_string (s : option string) : bool :=
  match s with
  | None => true
  | Some s => String.eqb s ""
  end.

Definition base64ToPart (base64DataUrl : string) : Outcome InlineData :=
  let segments := split "," base64DataUrl in
  let header := nth_error segments 0 in
  let data := nth_error segments 1 in
  match header, data with
  | Some h, Some d =>
      if (falsy_string header || falsy_string data)%bool
      then Throw (new_Error "Invalid base64 data URL format.")
      else Ok {| mimeType := match match_mimeType h with
                             | Some m => m
                             | None => "image/png"
                             end;
                 data := d |}
  | _, _ => Throw (new_Error "Invalid base64 data URL format.")
  end.

Definition modelQualityRule : string :=
  "Model Quality Rule: The image must be photorealistic. If a person is visible, they must be in-focus with a natural, realistic pose and a clearly visible face. ABSOLUTELY NO headless or faceless/blurred-face models.".

Definition basePrompts (productType : ProductType) (concept : ProductConcept)
  (holiday : string) : list string :=
  let pt := productType_name productType in
  [ "A professional studio hero mockup of a White (or very light neutral) " ++ pt ++ " featuring the design. Minimalist, neutral background. Perfect for an Etsy thumbnail.";
    "An aesthetic lifestyle mockup of a Sand or Beige " ++ pt ++ " with the design. Warm, cozy lighting.";
    "A high-contrast studio mockup of a Black " ++ pt ++ " with the design. Light background to make the product pop.";
    "A professional mockup of a Navy Blue " ++ pt ++ " showing the design. Clean setting.";
    "A cozy, authentic lifestyle shot of a Dark Heather Grey " ++ pt ++ " with the design. Candid and artistic composition.";
    "A studio shot of a Forest Green " ++ pt ++ " featuring the design. Neutral background.";
    "A studio shot of a Maroon " ++ pt ++ " featuring the design. Neutral background.";
    "A studio shot of a Light Pink " ++ pt ++ " featuring the design. Soft lighting.";
    "A close-up detail shot of the " ++ pt ++ " highlighting the texture and print quality of the design.";
    "A creative flatlay of the " ++ pt ++ " (in a neutral color) with the design, arranged with simple props related to " ++ holiday ++ " or " ++ join ", " (fusion concept) ++ ".";
    "A lifestyle photo showing the " ++ pt ++ " with the design in a clear " ++ holiday ++ " setting (e.g. near decorations, trees, or seasonal elements).";
    "A mockup of the " ++ pt ++ " with the design, shown from an angle or folded to display the form." ].

Definition getMockupPrompts (productType : ProductType) (concept : ProductConcept)
  (holiday : string) : list string :=
  map (fun prompt => prompt ++ " " ++ modelQualityRule)
      (basePrompts productType concept holiday).

Definition mockupRequest (designPart : InlineData) (prompt : string) : GenRequest :=
  {| model := "gemini-2.5-flash-image";
     contents := [ImagePart designPart; TextPart prompt];
     config := ImageConfig |}.

Definition has_inlineData (part : Part) : bool :=
  match inlineData part with
  | Some _ => true
  | None => false
  end.

(** The [TypeError] of [candidates[0].content.parts] when [content] is
    undefined, with the message V8 gives it. *)
Definition no_content_error : JsError :=
  {| instanceof_Error := true;
     status := JUndefined;
     response_status := JUndefined;
     error_code := JUndefined;
     message := JStr "Cannot read properties of undefined (reading 'parts')";
     error_message := JUndefined;
     json := "{}";
     to_string := "TypeError: Cannot read properties of undefined (reading 'parts')" |}.

(** The image bytes the two nested [if]s reach, if any. The first [if]
    guards [candidates] and [parts] and reads [content] without a guard: on
    a first candidate without content the read throws. *)
Definition extract_image (response : GenerateContentResponse) : Outcome (option string) :=
  match candidates response with
  | Some (first :: _) =>
      match content first with
      | None => Throw no_content_error
      | Some c =>
          match parts c with
          | Some ps =>
              match find has_inlineData ps with
              | Some imagePart =>
                  match inlineData imagePart with
                  | Some inline => Ok (Some (data inline))
                  | None => Ok None
                  end
              | None => Ok None
              end
          | None => Ok None
          end
      end
  | _ => Ok None
  end.

Definition mockupUrl (base64ImageBytes : string) : string :=
  "data:image/jpeg;base64," ++ base64ImageBytes.

(** [mockupUrls] after the body of the loop has seen [response]. *)
Definition push_mockup (mockupUrls : list string) (response : GenerateContentResponse)
  : Outcome (list string) :=
  match extract_image response with
  | Ok (Some bytes) => Ok (mockupUrls ++ [mockupUrl bytes])%list
  | Ok None => Ok mockupUrls
  | Throw e => Throw e
  end.

Definition Callback : Type := Z -> Z -> M unit.

(** [onProgress?.(progress, total)]. *)
Definition call_onProgress (onProgress : option Callback) (progress total : Z) : M unit :=
  match onProgress with
  | Some cb => log (EvProgress progress total) ;; cb progress total
  | None => ret tt
  end.

(** The [for] loop over the scene prompts, from index [i]: [prompts] are
    the entries of [scenePrompts] from [i] on. *)
Fixpoint mockup_loop (designPart : InlineData) (onProgress : option Callback)
  (totalSteps total : Z) (prompts : list string) (i : Z) (mockupUrls : list string)
  : M (list string) :=
  match prompts with
  | [] => ret mockupUrls
  | prompt :: rest =>
      call_onProgress onProgress (i + 2) totalSteps ;;
      response <- withRetry (ai_models_generateContent (mockupRequest designPart prompt))
                    None None ;;
      mockupUrls <- (fun st => (push_mockup mockupUrls response, st)) ;;
      (if i <? total - 1 then sleep 1500 else ret tt) ;;
      mockup_loop designPart onProgress totalSteps total rest (i + 1) mockupUrls
  end.

Record FinalAssets : Type := {
  fa_mockups : list string;
  fa_listingCopy : ListingCopy
}.

Definition generateFinalAssets (designUrl : string) (concept : ProductConcept)
  (holiday : string) (productType : ProductType) (onProgress : option Callback)
  : M FinalAssets :=
  try_catch
    (let scenePrompts := getMockupPrompts productType concept holiday in
     let totalSteps := Z.of_nat (List.length scenePrompts) + 1 in
     call_onProgress onProgress 0 totalSteps ;;
     listingCopy <- generateListingCopy concept ;;
     call_onProgress onProgress 1 totalSteps ;;
     designPart <- (fun st => (base64ToPart designUrl, st)) ;;
     let total := Z.of_nat (List.length scenePrompts) in
     mockupUrls <- mockup_loop designPart onProgress totalSteps total scenePrompts 0 [] ;;
     if Nat.eqb (List.length mockupUrls) 0
     then throw (new_Error "No mockups were generated.")
     else ret {| fa_mockups := mockupUrls; fa_listingCopy := listingCopy |})
    (fun error =>
       console_error "Error generating final assets:" error ;;
       throw error).

End GeminiService.

(* ===================================================================== *)
(** * The commerce service ([printifyService]) *)
(* ===================================================================== *)

Section PrintifyService.
Context {E : Environment}.

Record ProductMapping : Type := {
  map_blueprint_id : Z;
  map_print_provider_id : Z;
  map_variants : list Z;
  map_placement : string
}.

Definition PRODUCT_MAP (productType : ProductType) : ProductMapping :=
  match productType with
  | TShirt => {| map_blueprint_id := 12; map_print_provider_id := 29;
                 map_variants := [45174; 45175; 45176]; map_placement := "front" |}
  | Hoodie => {| map_blueprint_id := 77; map_print_provider_id := 29;
                 map_variants := [45426; 45427; 45428]; map_placement := "front" |}
  | Sweatshirt => {| map_blueprint_id := 53; map_print_provider_id := 29;
                     map_variants := [45300; 45301; 45302]; map_placement := "front" |}
  | Mug => {| map_blueprint_id := 68; map_print_provider_id := 23;
              map_variants := [46317]; map_placement := "front" |}
  | ToteBag => {| map_blueprint_id := 485; map_print_provider_id := 3;
                  map_variants := [58503]; map_placement := "front" |}
  | Pillow => {| map_blueprint_id := 58; map_print_provider_id := 3;
                 map_variants := [45364]; map_placement := "front" |}
  | Ornament => {| map_blueprint_id := 847; map_print_provider_id := 66;
                   map_variants := [96973]; map_placement := "front" |}
  end.

(** The outcome of an [await] on a value already settled. *)
Definition settle {A} (o : Outcome A) : M A := fun st => (o, st).

Definition getPrintifyShop (token : string) : M PrintifyShop :=
  response <- remote (EvFetch (GetShops token)) (fetch_shops token) ;;
  match response with
  | HttpNotOk _ => throw (new_Error "Failed to fetch Printify shops. Check your API Token.")
  | HttpOk body =>
      shops <- settle body ;;
      match shops with
      | [] => throw (new_Error "No Printify shops found for this account.")
      | first :: _ => ret {| shop_id := shop_id first; shop_title := shop_title first |}
      end
  end.

Definition is_digit (c : ascii) : bool :=
  let n := nat_of_ascii c in (Nat.leb 48 n && Nat.leb n 57)%bool.

Definition is_letter (c : ascii) : bool :=
  let n := nat_of_ascii c in
  ((Nat.leb 65 n && Nat.leb n 90) || (Nat.leb 97 n && Nat.leb n 122))%bool.

(** The class [\w]. *)
Definition is_word (c : ascii) : bool :=
  (is_letter c || is_digit c || Ascii.eqb c "_")%bool.

Fixpoint strip_prefix (p s : string) : option string :=
  match p, s with
  | EmptyString, _ => Some s
  | String a p', String b s' => if Ascii.eqb a b then strip_prefix p' s' else None
  | String _ _, EmptyString => None
  end.

Fixpoint drop_word (s : string) : string :=
  match s with
  | EmptyString => EmptyString
  | String c r => if is_word c then drop_word r else s
  end.

(** [base64Image.replace(/^data:image\/\w+;base64,/, "")]: the class [\w]
    excludes the semicolon, so the greedy run is the longest one. *)
Definition cleanBase64 (base64Image : string) : string :=
  match strip_prefix "data:image/" base64Image with
  | Some (String c r) =>
      if is_word c then
        match strip_prefix ";base64," (drop_word r) with
        | Some rest => rest
        | None => base64Image
        end
      else base64Image
  | _ => base64Image
  end.

Definition uploadImageToPrintify (token base64Image fileName : string) : M string :=
  response <- remote (EvFetch (PostUpload token fileName (cleanBase64 base64Image)))
                (fetch_upload token fileName (cleanBase64 base64Image)) ;;
  match response with
  | HttpNotOk error_body =>
      error <- settle error_body ;;
      throw (new_Error ("Image upload failed: " ++ error))
  | HttpOk body =>
      data <- settle body ;;
      ret (upload_id data)
  end.

Definition productPayload (productType : ProductType) (imageId : string)
  (listingCopy : ListingCopy) : ProductPayload :=
  let mapping := PRODUCT_MAP productType in
  {| payload_title := lc_title listingCopy;
     payload_description := lc_description listingCopy;
     blueprint_id := map_blueprint_id mapping;
     print_provider_id := map_print_provider_id mapping;
     variants := map (fun id => {| variant_id := id; price := 2500; is_enabled := true |})
                     (map_variants mapping);
     print_areas :=
       [ {| variant_ids := map_variants mapping;
            placeholders :=
              [ {| position := map_placement mapping;
                   images := [ {| image_id := imageId; x_percent := 50; y_percent := 50;
                                  scale_percent := 80; angle := 0 |} ] |} ] |} ];
     payload_tags := lc_tags listingCopy |}.

(** [PRODUCT_MAP] has an entry for every product type, so the guard on a
    missing mapping never fires. *)
Definition createPrintifyProduct (token shopId : string) (productType : ProductType)
  (imageId : string) (listingCopy : ListingCopy) : M PrintifyProductResponse :=
  let payload := productPayload productType imageId listingCopy in
  response <- remote (EvFetch (PostProduct token shopId payload))
                (fetch_product token shopId payload) ;;
  match response with
  | HttpNotOk error_body =>
      error <- settle error_body ;;
      throw (new_Error ("Product creation failed: " ++ error))
  | HttpOk body => settle body
  end.

End PrintifyService.

(* ===================================================================== *)
(** * The handlers of the component ([App]) *)
(* ===================================================================== *)

Section App.
Context {E : Environment}.

Definition setStep (v : AppStep) : M unit :=
  modify_ui (fun s =>
    {| step := v; isLoading := isLoading s; loadingMessage := loadingMessage s;
       error := error s; showSettings := showSettings s; holiday := holiday s;
       printifyToken := printifyToken s; selectedDesigns := selectedDesigns s;
       finalizedProducts := finalizedProducts s; successMessage := successMessage s |}).

Definition setIsLoading (v : bool) : M unit :=
  modify_ui (fun s =>
    {| step := step s; isLoading := v; loadingMessage := loadingMessage s;
       error := error s; showSettings := showSettings s; holiday := holiday s;
       printifyToken := printifyToken s; selectedDesigns := selectedDesigns s;
       finalizedProducts := finalizedProducts s; successMessage := successMessage s |}).

Definition setLoadingMessage (v : string) : M unit :=
  modify_ui (fun s =>
    {| step := step s; isLoading := isLoading s; loadingMessage := v;
       error := error s; showSettings := showSettings s; holiday := holiday s;
       printifyToken := printifyToken s; selectedDesigns := selectedDesigns s;
       finalizedProducts := finalizedProducts s; successMessage := successMessage s |}).

Definition setError (v : option JsVal) : M unit :=
  modify_ui (fun s =>
    {| step := step s; isLoading := isLoading s; loadingMessage := loadingMessage s;
       error := v; showSettings := showSettings s; holiday := holiday s;
       printifyToken := printifyToken s; selectedDesigns := selectedDesigns s;
       finalizedProducts := finalizedProducts s; successMessage := successMessage s |}).

Definition setShowSettings (v : bool) : M unit :=
  modify_ui (fun s =>
    {| step := step s; isLoading := isLoading s; loadingMessage := loadingMessage s;
       error := error s; showSettings := v; holiday := holiday s;
       printifyToken := printifyToken s; selectedDesigns := selectedDesigns s;
       finalizedProducts := finalizedProducts s; successMessage := successMessage s |}).

(** [setFinalizedProducts(prev => f(prev))]; a plain value is the constant
    update. *)
Definition setFinalizedProducts (f : list FinalizedProduct -> list FinalizedProduct)
  : M unit :=
  modify_ui (fun s =>
    {| step := step s; isLoading := isLoading s; loadingMessage := loadingMessage s;
       error := error s; showSettings := showSettings s; holiday := holiday s;
       printifyToken := printifyToken s; selectedDesigns := selectedDesigns s;
       finalizedProducts := f (finalizedProducts s); successMessage := successMessage s |}).

Definition setSuccessMessage (v : option string) : M unit :=
  modify_ui (fun s =>
    {| step := step s; isLoading := isLoading s; loadingMessage := loadingMessage s;
       error := error s; showSettings := showSettings s; holiday := holiday s;
       printifyToken := printifyToken s; selectedDesigns := selectedDesigns s;
       finalizedProducts := finalizedProducts s; successMessage := v |}).

Definition handleApiError (e : JsError) : M unit :=
  let message := if instanceof_Error e then message e else JStr (to_string e) in
  setError (Some message) ;;
  setIsLoading false.

Definition overallProgress (i n : Z) (design : DesignItem) : string :=
  "Processing Design " ++ string_of_Z (i + 1) ++ " of " ++ string_of_Z n ++ ": " ++
  dquote ++ conceptTitle (di_concept design) ++ dquote.

(** The callback [handleForgeAssets] hands to [generateFinalAssets]. *)
Definition forgeCallback (overall : string) : Callback :=
  fun progress total =>
    let stage :=
      if progress <=? 1 then "Writing compelling copy..."
      else "Generating mockup " ++ string_of_Z (progress - 1) ++ "/" ++
           string_of_Z (total - 1) ++ "..." in
    setLoadingMessage (overall ++ newline ++ stage).

(** The [for] loop over [designsToProcess], from index [i]: [designs] are
    the entries from [i] on, [n] is [designsToProcess.length]. *)
Fixpoint forge_loop (holiday : string) (n : Z) (designs : list DesignItem) (i : Z)
  (allFinalAssets : list FinalizedProduct) : M (list FinalizedProduct) :=
  match designs with
  | [] => ret allFinalAssets
  | design :: rest =>
      setLoadingMessage (overallProgress i n design) ;;
      assets <- generateFinalAssets (di_url design) (di_concept design) holiday
                  (di_productType design)
                  (Some (forgeCallback (overallProgress i n design))) ;;
      forge_loop holiday n rest (i + 1)
        (allFinalAssets ++
         [ {| concept := di_concept design;
              designUrl := di_url design;
              mockups := fa_mockups assets;
              listingCopy := fa_listingCopy assets;
              productType := di_productType design;
              printifyId := None |} ])
  end.

Definition handleForgeAssets (singleDesign : option DesignItem) : M unit :=
  s <- get_ui ;;
  let designsToProcess :=
    match singleDesign with
    | Some d => [d]
    | None => selectedDesigns s
    end in
  if Nat.eqb (List.length designsToProcess) 0 then ret tt
  else
    setIsLoading true ;;
    setError None ;;
    setFinalizedProducts (fun _ => []) ;;
    try_finally
      (try_catch
         (allFinalAssets <- forge_loop (holiday s)
                              (Z.of_nat (List.length designsToProcess))
                              designsToProcess 0 [] ;;
          setFinalizedProducts (fun _ => allFinalAssets) ;;
          setStep FINALIZE)
         handleApiError)
      (setIsLoading false).

Definition is_alnum (c : ascii) : bool := (is_letter c || is_digit c)%bool.

(** [title.replace(/[^a-z0-9]/gi, '_')]. *)
Fixpoint safe_name (s : string) : string :=
  match s with
  | EmptyString => EmptyString
  | String c r => String (if is_alnum c then c else "_"%char) (safe_name r)
  end.

Definition with_printifyId (p : FinalizedProduct) (id : string) : FinalizedProduct :=
  {| concept := concept p;
     designUrl := designUrl p;
     mockups := mockups p;
     listingCopy := listingCopy p;
     productType := productType p;
     printifyId := Some id |}.

(** The update of [finalizedProducts] after a publish. *)
Definition mark_published (product : FinalizedProduct) (id : string)
  (prev : list FinalizedProduct) : list FinalizedProduct :=
  map (fun p =>
         if String.eqb (conceptTitle (concept p)) (conceptTitle (concept product))
         then with_printifyId p id
         else p)
      prev.

Definition handlePrintifyPublish (product : FinalizedProduct) : M unit :=
  s <- get_ui ;;
  if String.eqb (printifyToken s) "" then setShowSettings true
  else
    setIsLoading true ;;
    setLoadingMessage "Connecting to Printify..." ;;
    setError None ;;
    setSuccessMessage None ;;
    try_finally
      (try_catch
         (shop <- getPrintifyShop (printifyToken s) ;;
          setLoadingMessage "Uploading design to Printify Media Library..." ;;
          let filename := safe_name (conceptTitle (concept product)) ++ ".png" in
          imageId <- uploadImageToPrintify (printifyToken s) (designUrl product) filename ;;
          setLoadingMessage ("Creating " ++ productType_name (productType product) ++
                             " listing...") ;;
          printifyProduct <- createPrintifyProduct (printifyToken s) (shop_id shop)
                               (productType product) imageId (listingCopy product) ;;
          setSuccessMessage
            (Some ("Successfully created " ++ dquote ++ product_title printifyProduct ++
                   dquote ++ " in Printify!")) ;;
          setFinalizedProducts (mark_published product (product_id printifyProduct)))
         handleApiError)
      (setIsLoading false).

End App.

(* ===================================================================== *)
(** * Vocabulary of the properties *)
(* ===================================================================== *)

(** The markers of a transient failure. *)
Definition markers : list string :=
  ["429"; "resource_exhausted"; "quota"; "internal"; "overloaded"; "server error"].

(** [m] occurs in [s]. *)
Definition Contains (s m : string) : Prop :=
  exists pre post : string, s = pre ++ m ++ post.

(** The first value that is present (truthy), else the last resort. *)
Fixpoint first_present (vs : list JsVal) (last : JsVal) : JsVal :=
  match vs with
  | [] => last
  | v :: rest => if truthy v then v else first_present rest last
  end.

(** Transient, in the words of the specification: a marker occurs in the
    lower-cased message, taken from the top-level message, a nested error
    message or the JSON serialization, or the status code, read from the top
    level, a nested response or a nested error code, is 500 or 503. *)
Definition Transient (e : JsError) : Prop :=
  let msg := first_present [message e; error_message e] (JStr (json e)) in
  let code := first_present [status e; response_status e] (error_code e) in
  (exists m, In m markers /\ Contains (toLowerCase (js_String msg)) m) \/
  code = JNum 500 \/ code = JNum 503.

(** The [useState] initial values. *)
Definition initial_ui : AppState :=
  {| step := CONFIG; isLoading := false; loadingMessage := ""; error := None;
     showSettings := false; holiday := "Christmas"; printifyToken := "";
     selectedDesigns := []; finalizedProducts := []; successMessage := None |}.

Section Vocabulary.
Context {E : Environment}.

(** The state of the collaborator after [n] calls of the operation [f]. *)
Fixpoint world_after {A} (f : World -> Outcome A * World) (w : World) (n : nat) : World :=
  match n with
  | O => w
  | S n' => snd (f (world_after f w n'))
  end.

(** The outcome of call number [i] (from 0) of the operation [f]. *)
Definition attempt {A} (f : World -> Outcome A * World) (w : World) (i : nat) : Outcome A :=
  fst (f (world_after f w i)).

(** What the executor does around the failed attempt number [i]: the call,
    the warning and the wait. *)
Definition retry_events (ev : Event) (maxRetries initialDelay : Z) (ie : nat * JsError)
  : list Event :=
  let i := Z.of_nat (fst ie) in
  [ ev;
    EvConsoleWarn (status_of (snd ie)) (message_of (snd ie))
      (initialDelay * 2 ^ i) (i + 1) maxRetries;
    EvSleep (initialDelay * 2 ^ i) ].

(** [l] with the positions of its entries, counted from [start]. *)
Fixpoint indexed {A} (start : nat) (l : list A) : list (nat * A) :=
  match l with
  | [] => []
  | a :: rest => (start, a) :: indexed (S start) rest
  end.

Definition fresh (w : World) : St := {| world := w; trace := []; ui := initial_ui |}.

(** The answer of the collaborator to one request sent through the
    executor, with the state it is left in. *)
Definition executor_on (req : GenRequest) (w : World)
  : Outcome GenerateContentResponse * World :=
  match withRetry (ai_models_generateContent req) None None (fresh w) with
  | (r, st) => (r, world st)
  end.

(** The answers to the requests [reqs], sent one after the other. *)
Fixpoint answers (reqs : list GenRequest) (w : World)
  : option (list GenerateContentResponse * World) :=
  match reqs with
  | [] => Some ([], w)
  | req :: rest =>
      match executor_on req w with
      | (Ok r, w1) =>
          match answers rest w1 with
          | Some (rs, w2) => Some (r :: rs, w2)
          | None => None
          end
      | (Throw _, _) => None
      end
  end.

(** The images of the responses that hold one, in the order of the
    responses, each as the JPEG data URL of its bytes. *)
Definition images_of (rs : list GenerateContentResponse) : list string :=
  flat_map (fun r => match extract_image r with
                     | Ok (Some bytes) => ["data:image/jpeg;base64," ++ bytes]
                     | _ => []
                     end) rs.

Definition extractable (r : GenerateContentResponse) : bool :=
  match extract_image r with
  | Ok (Some _) => true
  | _ => false
  end.

(** The first candidate of [r], if there is one, has its content. *)
Definition readable (r : GenerateContentResponse) : bool :=
  match candidates r with
  | Some (first :: _) =>
      match content first with
      | Some _ => true
      | None => false
      end
  | _ => true
  end.

Definition is_progress (ev : Event) : bool :=
  match ev with
  | EvProgress _ _ => true
  | _ => false
  end.

Definition is_remote (ev : Event) : bool :=
  match ev with
  | EvGenerateContent _ | EvFetch _ => true
  | _ => false
  end.

(** The events of one request sent through the executor: the request is
    made, no other remote call is, and no progress is reported. *)
Definition call_block (req : GenRequest) (evs : list Event) : Prop :=
  In (EvGenerateContent req) evs /\
  Forall (fun ev => is_progress ev = false /\
                    (is_remote ev = true -> ev = EvGenerateContent req)) evs.

(** The message of the error [busy] does not show the status code of the
    failure [underlying]. *)
Definition hides_status_detail (busy underlying : JsError) : Prop :=
  includes (js_String (message busy)) (js_String (status_of underlying)) = false.

(** A callback that only sets React state. *)
Definition quiet (cb : Callback) : Prop :=
  forall p t st, exists u,
    cb p t st = (Ok tt, {| world := world st; trace := trace st; ui := u |}).

Definition quiet_opt (onProgress : option Callback) : Prop :=
  forall cb, onProgress = Some cb -> quiet cb.

(** What a call of [onProgress?.(p, t)] leaves in the trace. *)
Definition report (onProgress : option Callback) (p t : Z) : list Event :=
  match onProgress with
  | Some _ => [EvProgress p t]
  | None => []
  end.

(** The events of the iteration number [fst ib] of the mockup loop: the
    report, then the events [snd ib] of the call and of the pause. *)
Definition step_events (onProgress : option Callback) (totalSteps : Z)
  (ib : nat * list Event) : list Event :=
  report onProgress (Z.of_nat (fst ib) + 2) totalSteps ++ snd ib.

Definition no_mockups : JsError := new_Error "No mockups were generated.".

Definition invalid_url : JsError := new_Error "Invalid base64 data URL format.".

(** No comma of [url] has a header before it and data after it. *)
Definition BadUrl (url : string) : Prop :=
  ~ exists header data : string,
      url = header ++ "," ++ data /\ header <> "" /\ data <> "".

(** The reports the progress callback received. *)
Definition progress_of (evs : list Event) : list (Z * Z) :=
  flat_map (fun ev => match ev with
                      | EvProgress p t => [(p, t)]
                      | _ => []
                      end) evs.

(** The reports of one design: the counter runs from 0 to 13 and the
    total is 13. *)
Definition tuple_reports : list (Z * Z) :=
  map (fun p => (Z.of_nat p, 13)) (seq 0 14).

(** The events of the finalization of one design when it succeeds: the
    report 0, the listing copy, the report 1, then for the scene number
    [i] (from 0) the report [i + 2] followed by the request of the
    scene. *)
Definition tuple_trace (holiday : string) (design : DesignItem) (evs : list Event)
  : Prop :=
  exists (part : InlineData) (copy_evs : list Event) (blocks : list (list Event)),
    base64ToPart (di_url design) = Ok part /\
    call_block (listingCopyRequest (di_concept design)) copy_evs /\
    Forall2 (fun prompt block => call_block (mockupRequest part prompt) block)
            (getMockupPrompts (di_productType design) (di_concept design) holiday)
            blocks /\
    evs = ([EvProgress 0 13] ++ copy_evs ++ [EvProgress 1 13] ++
           List.concat (map (fun ib : nat * list Event =>
                               EvProgress (Z.of_nat (fst ib) + 2) 13 :: snd ib)
                            (indexed 0 blocks)))%list.

(** The finalized product [p] is the one of the design [d], not
    published. *)
Definition built_from (d : DesignItem) (p : FinalizedProduct) : Prop :=
  concept p = di_concept d /\ designUrl p = di_url d /\
  productType p = di_productType d /\ printifyId p = None.

(** Two React states that differ in the loading message at most. *)
Definition same_but_message (u u' : AppState) : Prop :=
  step u' = step u /\ isLoading u' = isLoading u /\ error u' = error u /\
  showSettings u' = showSettings u /\ holiday u' = holiday u /\
  printifyToken u' = printifyToken u /\ selectedDesigns u' = selectedDesigns u /\
  finalizedProducts u' = finalizedProducts u /\ successMessage u' = successMessage u.

(** A computation that changes the loading message at most. *)
Definition frames {A} (c : M A) : Prop :=
  forall st, same_but_message (ui st) (ui (snd (c st))).

(** The state in which the loop over the designs starts. *)
Definition batch_start (st : St) : St :=
  snd ((setIsLoading true ;; setError None ;; setFinalizedProducts (fun _ => [])) st).

(** The finalization of the design [d], number [i] of [n], as the loop
    runs it. *)
Definition forge_step (h : string) (n : Z) (i : nat) (d : DesignItem) : M FinalAssets :=
  setLoadingMessage (overallProgress (Z.of_nat i) n d) ;;
  generateFinalAssets (di_url d) (di_concept d) h (di_productType d)
    (Some (forgeCallback (overallProgress (Z.of_nat i) n d))).

Definition product_from (d : DesignItem) (assets : FinalAssets) : FinalizedProduct :=
  {| concept := di_concept d; designUrl := di_url d; mockups := fa_mockups assets;
     listingCopy := fa_listingCopy assets; productType := di_productType d;
     printifyId := None |}.

(** The designs [designs], numbered from [i], are finalized one after the
    other from the state [st], the next from the state the one before has
    left: [products] are their products, in the order of the designs, with
    the mockups and the listing copy their finalization returned, and
    [st'] is the state after the last. *)
Inductive finalized_in_order (h : string) (n : Z)
  : nat -> list DesignItem -> St -> list FinalizedProduct -> St -> Prop :=
| finalized_none (i : nat) (st : St) : finalized_in_order h n i [] st [] st
| finalized_next (i : nat) (d : DesignItem) (rest : list DesignItem) (st st1 st' : St)
    (assets : FinalAssets) (products : list FinalizedProduct) :
    forge_step h n i d st = (Ok assets, st1) ->
    finalized_in_order h n (S i) rest st1 products st' ->
    finalized_in_order h n i (d :: rest) st (product_from d assets :: products) st'.

(** What [handleApiError] shows of an error. *)
Definition shown_message (e : JsError) : JsVal :=
  if instanceof_Error e then message e else JStr (to_string e).

(** The reports as the specification has them for a batch of [T] designs:
    from [(0, total)] to [(total, total)], increasing, under the one total
    [T * 13]. *)
Definition claimed_progress (T : nat) (reports : list (Z * Z)) : Prop :=
  let total := Z.of_nat T * 13 in
  hd_error reports = Some (0, total) /\
  last reports (0, 0) = (total, total) /\
  StronglySorted Z.lt (map fst reports) /\
  Forall (fun r => snd r = total) reports.

(** A report comes after its step: no remote call follows the report that
    says all steps are done. *)
Definition reports_follow_steps (evs : list Event) : Prop :=
  forall pre post total,
    evs = (pre ++ EvProgress total total :: post)%list ->
    Forall (fun ev => is_remote ev = false) post.

(** The body of the [try] of [handlePrintifyPublish]. *)
Definition publish_body (token : string) (product : FinalizedProduct) : M unit :=
  shop <- getPrintifyShop token ;;
  setLoadingMessage "Uploading design to Printify Media Library..." ;;
  let filename := safe_name (conceptTitle (concept product)) ++ ".png" in
  imageId <- uploadImageToPrintify token (designUrl product) filename ;;
  setLoadingMessage ("Creating " ++ productType_name (productType product) ++
                     " listing...") ;;
  printifyProduct <- createPrintifyProduct token (shop_id shop)
                       (productType product) imageId (listingCopy product) ;;
  setSuccessMessage
    (Some ("Successfully created " ++ dquote ++ product_title printifyProduct ++
           dquote ++ " in Printify!")) ;;
  setFinalizedProducts (mark_published product (product_id printifyProduct)).

Definition publish_start (st : St) : St :=
  snd ((setIsLoading true ;; setLoadingMessage "Connecting to Printify..." ;;
        setError None ;; setSuccessMessage None) st).

(** A publish that ends on a transient error has made the failing call
    more than once. *)
Definition publish_retries (st : St) : Prop :=
  forall msg : string,
    error (ui st) = Some (JStr msg) ->
    isRetryable (new_Error msg) = true ->
    exists req pre mid post,
      trace st = (pre ++ EvFetch req :: mid ++ EvFetch req :: post)%list.

End Vocabulary.

(* ===================================================================== *)
(** * Scenarios: collaborators that follow a script *)
(* ===================================================================== *)

Module Scenario.

(** The generative service answers its successive calls from a list, and
    refuses once the list is over; the commerce service gives the same
    three answers to every call. *)
Definition scripted (parse : string -> Outcome ListingCopy)
  (shops : Outcome (HttpResponse (list PrintifyShop)))
  (upload : Outcome (HttpResponse PrintifyImageUploadResponse))
  (product : Outcome (HttpResponse PrintifyProductResponse)) : Environment :=
  {| World := list (Outcome GenerateContentResponse);
     generateContent := fun _ w =>
       match w with
       | o :: rest => (o, rest)
       | [] => (Throw (new_Error "400 no scripted answer"), [])
       end;
     fetch_shops := fun _ w => (shops, w);
     fetch_upload := fun _ _ _ w => (upload, w);
     fetch_product := fun _ _ _ w => (product, w);
     JSON_parse := parse |}.

Definition concept1 : ProductConcept :=
  {| conceptTitle := "Sleigh All Day";
     displayText := "Sleigh All Day";
     fusion := ["Retro Script"; "Cozy"];
     vision := "A groovy script slogan over a small sleigh.";
     whyItWorks := "Humor sells in the holiday season." |}.

Definition concept2 : ProductConcept :=
  {| conceptTitle := "Merry & Bright";
     displayText := "Merry and Bright";
     fusion := ["Minimalist"; "Line Art"];
     vision := "A single line drawing of a candle.";
     whyItWorks := "Minimal designs suit every colorway." |}.

(** A listing copy that breaks every requested bound: a title of 150
    characters, 14 tags, a tag of 27 characters. *)
Definition copy1 : ListingCopy :=
  {| lc_title := "Sleigh All Day Sweatshirt Retro Christmas Crewneck Funny Holiday Gift For Her Cozy Winter Pullover Groovy Script Xmas Party Outfit Trendy Womens Top Red";
     lc_description := "A cozy crewneck for the season.";
     lc_variations := ["Sand"; "Forest Green"];
     lc_tags := ["christmas"; "sweatshirt"; "retro"; "holiday gift"; "cozy"; "groovy";
                 "xmas party"; "funny"; "winter"; "crewneck"; "gift for her"; "sleigh";
                 "festive"; "retro christmas crewneck top"] |}.

Definition copy1_json : string := "{ listing copy of Sleigh All Day }".

(** A [JSON.parse] that knows one document. *)
Definition parse1 (text : string) : Outcome ListingCopy :=
  if String.eqb text copy1_json then Ok copy1
  else Throw (new_Error "Unexpected token in JSON").

Definition copyResponse : GenerateContentResponse :=
  {| candidates := None; response_text := "  { listing copy of Sleigh All Day }
" |}.

Definition imageResponse (bytes : string) : GenerateContentResponse :=
  {| candidates :=
       Some [ {| content :=
                   Some {| parts := Some [ {| inlineData := None;
                                              part_text := Some "Here it is." |};
                                           {| inlineData := Some {| mimeType := "image/png";
                                                                    data := bytes |};
                                              part_text := None |} ] |} |} ];
     response_text := "" |}.

(** A response with a candidate and no image payload. *)
Definition textOnlyResponse : GenerateContentResponse :=
  {| candidates :=
       Some [ {| content :=
                   Some {| parts := Some [ {| inlineData := None;
                                              part_text := Some "I cannot render this." |} ] |} |} ];
     response_text := "I cannot render this." |}.

Definition noCandidates : GenerateContentResponse :=
  {| candidates := None; response_text := "" |}.

(** A response whose one candidate was blocked: it has no content. *)
Definition blockedResponse : GenerateContentResponse :=
  {| candidates := Some [ {| content := None |} ]; response_text := "" |}.

(** Errors of the generative service. *)
Definition e503 : JsError :=
  {| instanceof_Error := true; status := JNum 503; response_status := JUndefined;
     error_code := JUndefined; message := JStr "The model is busy.";
     error_message := JUndefined; json := "{}";
     to_string := "Error: The model is busy." |}.

Definition e429 : JsError :=
  {| instanceof_Error := false; status := JUndefined; response_status := JUndefined;
     error_code := JNum 429; message := JUndefined;
     error_message := JStr "RESOURCE_EXHAUSTED"; json := "{}";
     to_string := "[object Object]" |}.

Definition e400 : JsError :=
  {| instanceof_Error := true; status := JNum 400; response_status := JUndefined;
     error_code := JUndefined; message := JStr "API key not valid.";
     error_message := JUndefined; json := "{}";
     to_string := "Error: API key not valid." |}.

(** The generative service fails twice, then answers. *)
Definition recovering : list (Outcome GenerateContentResponse) :=
  [Throw e503; Throw e429; Ok copyResponse].

(** The generative service is busy at each of six calls. *)
Definition always_busy : list (Outcome GenerateContentResponse) :=
  [Throw e503; Throw e429; Throw e503; Throw e429; Throw e503; Throw e503].

Definition shop1 : PrintifyShop := {| shop_id := "5501"; shop_title := "Forge Shop" |}.

Definition upload1 : PrintifyImageUploadResponse :=
  {| upload_id := "img-77"; upload_file_name := "Sleigh_All_Day.png";
     upload_url := "https://images.example/img-77.png" |}.

Definition product1 : PrintifyProductResponse :=
  {| product_id := "prod-9"; product_title := "Sleigh All Day Sweatshirt";
     product_external_id := "" |}.

(** A commerce service where every call succeeds. *)
Definition env_ok : Environment :=
  scripted parse1 (Ok (HttpOk (Ok [shop1]))) (Ok (HttpOk (Ok upload1)))
    (Ok (HttpOk (Ok product1))).

(** A commerce service whose upload endpoint answers 503 with a JSON body. *)
Definition upload_error_body : string :=
  "{" ++ dquote ++ "message" ++ dquote ++ ":" ++ dquote ++ "Server Error" ++ dquote ++ "}".

Definition env_upload_503 : Environment :=
  scripted parse1 (Ok (HttpOk (Ok [shop1]))) (Ok (HttpNotOk (Ok upload_error_body)))
    (Ok (HttpOk (Ok product1))).

Definition state_of (E : Environment) (w : @World E) (u : AppState) : @St E :=
  {| world := w; trace := []; ui := u |}.

Definition design1 : DesignItem :=
  {| di_concept := concept1; di_url := "data:image/png;base64,AAAA";
     di_productType := Sweatshirt |}.

Definition design2 : DesignItem :=
  {| di_concept := concept2; di_url := "data:image/png;base64,BBBB";
     di_productType := Mug |}.

(** The answers to one tuple: the listing copy, then twelve scenes of
    which the third and the tenth hold no image. *)
Definition tuple_answers : list (Outcome GenerateContentResponse) :=
  [ Ok copyResponse;
    Ok (imageResponse "m01"); Ok (imageResponse "m02"); Ok textOnlyResponse;
    Ok (imageResponse "m04"); Ok (imageResponse "m05"); Ok (imageResponse "m06");
    Ok (imageResponse "m07"); Ok (imageResponse "m08"); Ok (imageResponse "m09");
    Ok noCandidates; Ok (imageResponse "m11"); Ok (imageResponse "m12") ].

Definition product_of (d : DesignItem) (ms : list string) : FinalizedProduct :=
  {| concept := di_concept d; designUrl := di_url d; mockups := ms;
     listingCopy := copy1; productType := di_productType d; printifyId := None |}.

Definition ui_with (token : string) (designs : list DesignItem)
  (products : list FinalizedProduct) : AppState :=
  {| step := DESIGN; isLoading := false; loadingMessage := ""; error := None;
     showSettings := false; holiday := "Christmas"; printifyToken := token;
     selectedDesigns := designs; finalizedProducts := products;
     successMessage := None |}.

(** Twelve scenes of which the fourth was blocked and the others hold an
    image. *)
Definition blocked_scenes : list GenerateContentResponse :=
  [ imageResponse "m01"; imageResponse "m02"; imageResponse "m03"; blockedResponse;
    imageResponse "m05"; imageResponse "m06"; imageResponse "m07"; imageResponse "m08";
    imageResponse "m09"; imageResponse "m10"; imageResponse "m11"; imageResponse "m12" ].

(** One design: the listing copy comes back, then the scenes above. *)
Definition st_blocked : @St env_ok :=
  state_of env_ok (Ok copyResponse :: map Ok blocked_scenes) (ui_with "" [design1] []).

(** A batch of two designs that the generative service serves to the end. *)
Definition st_two : @St env_ok :=
  state_of env_ok (tuple_answers ++ tuple_answers)%list (ui_with "" [design1; design2] []).

(** One design, served to the end. *)
Definition st_one : @St env_ok :=
  state_of env_ok tuple_answers (ui_with "" [design1] []).

(** A batch of two designs where the listing copy of the second is refused;
    a product of an earlier batch is on display. *)
Definition st_second_fails : @St env_ok :=
  state_of env_ok (tuple_answers ++ [Throw e400])%list
    (ui_with "" [design1; design2] [product_of design2 ["data:image/jpeg;base64,old"]]).

(** The same design finalized as a sweatshirt and as a mug, and a second
    design. *)
Definition as_mug : FinalizedProduct :=
  {| concept := concept1; designUrl := di_url design1; mockups := ["m"];
     listingCopy := copy1; productType := Mug; printifyId := None |}.

Definition on_display : list FinalizedProduct :=
  [product_of design1 ["m"]; product_of design2 ["m"]; as_mug].

Definition st_publish : @St env_ok :=
  state_of env_ok [] (ui_with "token-1" [] on_display).

Definition st_publish_503 : @St env_upload_503 :=
  state_of env_upload_503 [] (ui_with "token-1" [] on_display).

(** The listing copy comes back, the design URL has no comma. *)
Definition st_copy_only : @St env_ok :=
  state_of env_ok [Ok copyResponse] initial_ui.

End Scenario.

(* ===================================================================== *)
(** * The design rendering stage ([generateDesign]) *)
(* ===================================================================== *)

Inductive DesignStyle : Type :=
| MinimalistVector
| GeometricModern
| RetroScript
| VintageEngraving
| WatercolorBotanical
| CosmicDoodle
| ArtDeco
| CyberpunkGlitch.

Definition designStyle_name (s : DesignStyle) : string :=
  match s with
  | MinimalistVector => "Minimalist Vector"
  | GeometricModern => "Geometric Modern"
  | RetroScript => "Retro Script"
  | VintageEngraving => "Vintage Engraving"
  | WatercolorBotanical => "Watercolor Botanical"
  | CosmicDoodle => "Cosmic Doodle"
  | ArtDeco => "Art Deco"
  | CyberpunkGlitch => "Cyberpunk Glitch"
  end.

Definition stylePrompts (s : DesignStyle) : string :=
  match s with
  | MinimalistVector =>
      "Create a sophisticated, single-color vector graphic. The design must be clean, modern, and immediately legible from a distance. Emphasize elegant, crisp line work, impactful silhouettes, and masterful use of negative space. Typography is key: use a high-end, minimalist sans-serif font (like Helvetica Neue, Futura, or a similar aesthetic) that is perfectly integrated as a core design element. The final asset should feel like it belongs in a modern art gallery. Strictly monochrome on a transparent background."
  | GeometricModern =>
      "Construct a bold, abstract design using fundamental shapes (circles, triangles, squares). Create a dynamic, visually striking composition with a limited, high-contrast color palette (max 3-4 colors). The aesthetic is sharp, intentional, and influenced by Bauhaus and Swiss design. Typography must be a clean, geometric sans-serif (e.g., Avant-Garde, Century Gothic), treated as a structural element within the composition."
  | RetroScript =>
      "Channel a 1970s retro vibe with a modern twist. The centerpiece is a bold, flowing script font with exaggerated swashes and a thick, confident weight. Think funky, groovy, and highly stylized. Use a classic 70s color palette: burnt orange, avocado green, mustard yellow, and cream. The design can have a slightly distressed, screen-printed texture to feel authentic. Incorporate subtle supporting elements like sparkles, stars, or soft stripes that enhance the typography without cluttering it. The mood is playful, nostalgic, and confident."
  | VintageEngraving =>
      "Emulate a classic, hand-carved woodcut or steel engraving style. The design must be monochrome (black on a transparent background). Use intricate, high-detail linework, cross-hatching, and stippling to create a sense of texture, depth, and craftsmanship. The final asset should look like a lost illustration from a 19th-century book or a classic artisanal logo. Typography must be a timeless serif font with character, like Garamond or a Caslon-style face."
  | WatercolorBotanical =>
      "Create a soft, organic design featuring delicate, hand-painted watercolor illustrations of flowers, leaves, or other natural elements. Colors should be translucent, with soft edges and beautiful blending, as if painted on cotton paper. The composition should feel airy and natural. Typography must be an elegant, light script or a refined serif font that complements the artistic, hand-painted aesthetic."
  | CosmicDoodle =>
      "A whimsical, imaginative hand-drawn style that looks like it came from a professional artist's sketchbook. Think intricate, charming doodles of stars, planets, moons, and constellations with a playful, friendly feel. Use a consistent, clean line weight. The typography should be a unique, quirky, handwritten font that is perfectly integrated into the celestial doodles. The style is creative, dreamy, and full of wonder."
  | ArtDeco =>
      "An elegant, glamorous, and symmetrical design inspired by the roaring 1920s. Use strong, sharp geometric lines, sunburst patterns, and a sense of luxury and order. The color palette should be bold and high-contrast, incorporating metallic gold or silver accents. The typography is CRITICAL: it must be a distinctive Art Deco-style fontâ€”tall, geometric, highly stylized, and perfectly centered to create a commanding presence (e.g., Poiret One, Mostra Nuova)."
  | CyberpunkGlitch =>
      "A futuristic, high-tech design with a deliberate glitch art aesthetic. Use a vibrant neon color palette (electric pinks, blues, purples) against a dark core. Incorporate digital distortion effects like scan lines, pixelation, chromatic aberration, and displaced elements. The typography should be a blocky, digital, or futuristic font that has a complementary glitch effect applied to it. The vibe is edgy, modern, and energetic."
  end.

Definition designPrompt (concept : ProductConcept) (style : DesignStyle)
  (styleInstruction quote : string) : string :=
    "**Primary Directive: Create a TRANSPARENT PNG of an ISOLATED graphic.**
- **Output MUST BE a graphic element on a transparent background.**
- **ABSOLUTELY NO MOCKUPS.** Do not show the design on a t-shirt, mug, or any other product.
- **NO BACKGROUNDS.** No colors, textures, or scenes in the background.

**Your Role:** A world-class graphic designer specializing in viral print-on-demand products.

**Task:** Create a design for the following concept.

**Design Details:**
- **Text to Render:** " ++
    dquote ++
    quote ++
    dquote ++
    "
- **Creative Vision:** " ++
    vision concept ++
    "
- **Art Style:** " ++
    designStyle_name style ++
    "
- **Style Deep Dive:** " ++
    styleInstruction ++
    "

**Execution Rules:**
1.  **Render ONLY the " ++
    dquote ++
    "Text to Render" ++
    dquote ++
    ":** The text " ++
    dquote ++
    quote ++
    dquote ++
    " must be rendered exactly, with no spelling errors. Do not add any other words or text from this prompt. The typography should be the star of the design, perfectly matching the Art Style.
2.  **Compelling Composition:** The layout must be balanced, eye-catching, and work well for the specified product type.
3.  **Commercial Quality:** The final output must be a professional, high-resolution graphic ready for printing.
4.  **No Prompt Leakage:** Do not include any of these instructional labels (like " ++
    dquote ++
    "Text to Render" ++
    dquote ++
    ") in the final image itself.".

Section DesignStage.
Context {E : Environment}.

Definition designRequest (prompt : string) : GenRequest :=
  {| model := "gemini-2.5-flash-image";
     contents := [TextPart prompt];
     config := ImageConfig |}.

Definition designUrl_of (base64ImageBytes : string) : string :=
  "data:image/png;base64," ++ base64ImageBytes.

(** [a || b] on two strings. *)
Definition string_or (a b : string) : string :=
  if String.eqb a "" then b else a.

Definition generateDesign (concept : ProductConcept) (style : DesignStyle) : M string :=
  try_catch
    (let styleInstruction := string_or (stylePrompts style) (stylePrompts MinimalistVector) in
     let quote := displayText concept in
     let prompt := designPrompt concept style styleInstruction quote in
     response <- withRetry (ai_models_generateContent (designRequest prompt)) None None ;;
     match extract_image response with
     | Ok (Some base64ImageBytes) => ret (designUrl_of base64ImageBytes)
     | Ok None => throw (new_Error "No image was generated.")
     | Throw type_error => throw type_error
     end)
    (fun error =>
       console_error "Error generating design:" error ;;
       throw error).

End DesignStage.

(* ===================================================================== *)
(** * The selections and the forge of designs ([App]) *)
(* ===================================================================== *)

(** A [Record<string, string>] made by an object literal, as the list of
    its own entries, a key once. *)
Definition StringRecord : Type := list (string * string).

Fixpoint record_put (key value : string) (r : StringRecord) : StringRecord :=
  match r with
  | [] => [(key, value)]
  | (k, v) :: rest =>
      if String.eqb k key then (k, value) :: rest
      else (k, v) :: record_put key value rest
  end.

(** [r[key] = value]: under the key [__proto__] the assignment reaches the
    setter of [Object.prototype], which ignores a string, and the object
    gets no entry. *)
Definition record_set (key value : string) (r : StringRecord) : StringRecord :=
  if String.eqb key "__proto__" then r else record_put key value r.

(** The update [handleToggleVariationSelection] hands to
    [setSelectedVariations]. *)
Definition handleToggleVariationSelection (concept : ProductConcept)
  (prev : list ProductConcept) : list ProductConcept :=
  if existsb (fun c => String.eqb (conceptTitle c) (conceptTitle concept)) prev
  then filter (fun c => negb (String.eqb (conceptTitle c) (conceptTitle concept))) prev
  else prev ++ [concept].

(** The update [handleToggleDesignSelection] hands to [setSelectedDesigns];
    [productType] is the type chosen for the session. *)
Definition toggleDesignSelection (productType : ProductType) (concept : ProductConcept)
  (url : string) (prev : list DesignItem) : list DesignItem :=
  if existsb (fun d => String.eqb (di_url d) url) prev
  then filter (fun d => negb (String.eqb (di_url d) url)) prev
  else prev ++ [ {| di_concept := concept; di_url := url; di_productType := productType |} ].

(** The update [handleProductTypeChangeForDesign] hands to
    [setSelectedDesigns]. *)
Definition changeProductType (url : string) (newProductType : ProductType)
  (prev : list DesignItem) : list DesignItem :=
  map (fun design =>
         if String.eqb (di_url design) url
         then {| di_concept := di_concept design; di_url := di_url design;
                 di_productType := newProductType |}
         else design)
      prev.

Section Selections.
Context {E : Environment}.

Definition setSelectedDesigns (f : list DesignItem -> list DesignItem) : M unit :=
  modify_ui (fun s =>
    {| step := step s; isLoading := isLoading s; loadingMessage := loadingMessage s;
       error := error s; showSettings := showSettings s; holiday := holiday s;
       printifyToken := printifyToken s; selectedDesigns := f (selectedDesigns s);
       finalizedProducts := finalizedProducts s; successMessage := successMessage s |}).

Definition handleToggleDesignSelection (productType : ProductType)
  (concept : ProductConcept) (url : string) : M unit :=
  setSelectedDesigns (toggleDesignSelection productType concept url).

Definition handleProductTypeChangeForDesign (url : string) (newProductType : ProductType)
  : M unit :=
  setSelectedDesigns (changeProductType url newProductType).

Definition forgingMessage (i n : Z) (concept : ProductConcept) : string :=
  "Forging design " ++ string_of_Z (i + 1) ++ " of " ++ string_of_Z n ++ ": " ++
  dquote ++ conceptTitle concept ++ dquote.

(** The [for] loop of [handleForgeDesigns], from index [i]: [concepts] are
    the entries of [selectedVariations] from [i] on, [n] is their number in
    all. *)
Fixpoint designs_loop (style : DesignStyle) (n : Z) (concepts : list ProductConcept)
  (i : Z) (newDesigns : StringRecord) : M StringRecord :=
  match concepts with
  | [] => ret newDesigns
  | concept :: rest =>
      setLoadingMessage (forgingMessage i n concept) ;;
      url <- generateDesign concept style ;;
      let newDesigns := record_set (conceptTitle concept) url newDesigns in
      (if i <? n - 1 then sleep 1500 else ret tt) ;;
      designs_loop style n rest (i + 1) newDesigns
  end.

(** [handleForgeDesigns]: [style] and [selectedVariations] are the values
    the handler closes over, [generatedDesigns] is the cell of that name,
    whose value at the end is returned. *)
Definition handleForgeDesigns (style : DesignStyle)
  (selectedVariations : list ProductConcept) (generatedDesigns : StringRecord)
  : M StringRecord :=
  if Nat.eqb (List.length selectedVariations) 0 then ret generatedDesigns
  else
    setIsLoading true ;;
    setLoadingMessage ("Forging " ++
                       string_of_Z (Z.of_nat (List.length selectedVariations)) ++
                       " design(s)...") ;;
    setError None ;;
    setSelectedDesigns (fun _ => []) ;;
    try_finally
      (try_catch
         (newDesigns <- designs_loop style (Z.of_nat (List.length selectedVariations))
                          selectedVariations 0 [] ;;
          setStep DESIGN ;;
          ret newDesigns)
         (fun e => handleApiError e ;; ret []))
      (setIsLoading false).

End Selections.

(* ===================================================================== *)
(** * Vocabulary of the further properties *)
(* ===================================================================== *)

(** Every character of [s] passes the test [p]. *)
Fixpoint all_chars (p : ascii -> bool) (s : string) : bool :=
  match s with
  | EmptyString => true
  | String c r => (p c && all_chars p r)%bool
  end.

Definition not_char (x : ascii) (c : ascii) : bool := negb (Ascii.eqb c x).

(** [s] holds no comma. *)
Definition comma_free (s : string) : Prop := all_chars (not_char ",") s = true.

(** The time spent waiting, in milliseconds. *)
Fixpoint total_wait (evs : list Event) : Z :=
  match evs with
  | [] => 0
  | EvSleep ms :: rest => ms + total_wait rest
  | _ :: rest => total_wait rest
  end.

(** The number of calls of [ai.models.generateContent]. *)
Fixpoint generate_calls (evs : list Event) : nat :=
  match evs with
  | [] => O
  | EvGenerateContent _ :: rest => S (generate_calls rest)
  | _ :: rest => generate_calls rest
  end.

(** The number of pauses of 1500 ms. *)
Fixpoint pauses (evs : list Event) : nat :=
  match evs with
  | [] => O
  | EvSleep ms :: rest => if ms =? 1500 then S (pauses rest) else pauses rest
  | _ :: rest => pauses rest
  end.

(** The requests that carry an image. *)
Definition carries_image (ev : Event) : bool :=
  match ev with
  | EvGenerateContent req =>
      existsb (fun part => match part with ImagePart _ => true | TextPart _ => false end)
              (contents req)
  | _ => false
  end.

(** The titles selected. *)
Definition selected_title (title : string) (selection : list ProductConcept) : bool :=
  existsb (fun c => String.eqb (conceptTitle c) title) selection.

(** The URLs selected. *)
Definition selected_url (url : string) (selection : list DesignItem) : bool :=
  existsb (fun d => String.eqb (di_url d) url) selection.

(** The value of the own entry of [r] under [key]. *)
Fixpoint record_own (key : string) (r : StringRecord) : option string :=
  match r with
  | [] => None
  | (k, v) :: rest => if String.eqb k key then Some v else record_own key rest
  end.

(** The state in which the loop over the concepts starts. *)
Definition designs_start {E : Environment} (n : nat) (st : St) : St :=
  snd ((setIsLoading true ;;
        setLoadingMessage ("Forging " ++ string_of_Z (Z.of_nat n) ++ " design(s)...") ;;
        setError None ;;
        setSelectedDesigns (fun _ => [])) st).

(** The ids of the variants a payload offers, and those its print areas
    cover. *)
Definition offered (p : ProductPayload) : list Z := map variant_id (variants p).

Definition covered (p : ProductPayload) : list Z :=
  flat_map variant_ids (print_areas p).

(** The listing copy of [concept] does not come back: the executor gives up
    on the request, or the text of the answer does not parse. *)
Definition listing_copy_fails {E : Environment} (concept : ProductConcept) (w : World)
  (e : JsError) : Prop :=
  match executor_on (listingCopyRequest concept) w with
  | (Throw e', _) => e' = e
  | (Ok response, _) => JSON_parse (trim (response_text response)) = Throw e
  end.

(** A commerce service that refuses the token: the lookup of the shops is
    answered 401. *)
Definition env_token_refused : Environment :=
  Scenario.scripted Scenario.parse1 (Ok (HttpNotOk (Ok "{}")))
    (Ok (HttpOk (Ok Scenario.upload1))) (Ok (HttpOk (Ok Scenario.product1))).

Definition st_token_refused : @St env_token_refused :=
  Scenario.state_of env_token_refused []
    (Scenario.ui_with "token-0" [] Scenario.on_display).

(** The listing copy of the one design is refused. *)
Definition st_copy_refused : @St Scenario.env_ok :=
  Scenario.state_of Scenario.env_ok [Throw Scenario.e400]
    (Scenario.ui_with "" [Scenario.design1] []).

(** What the lookup of the shops makes of the answer of the service: the
    first shop of the list, or the error of the lookup. *)
Definition shop_result (answer : Outcome (HttpResponse (list PrintifyShop)))
  : Outcome PrintifyShop :=
  match answer with
  | Throw e => Throw e
  | Ok (HttpNotOk _) =>
      Throw (new_Error "Failed to fetch Printify shops. Check your API Token.")
  | Ok (HttpOk (Throw e)) => Throw e
  | Ok (HttpOk (Ok [])) => Throw (new_Error "No Printify shops found for this account.")
  | Ok (HttpOk (Ok (first :: _))) =>
      Ok {| shop_id := shop_id first; shop_title := shop_title first |}
  end.

(** What the upload makes of the answer of the service: the identifier of
    the image, or the error of the upload, which cites the body of an
    answer that is not ok. *)
Definition upload_result (answer : Outcome (HttpResponse PrintifyImageUploadResponse))
  : Outcome string :=
  match answer with
  | Throw e => Throw e
  | Ok (HttpNotOk (Throw e)) => Throw e
  | Ok (HttpNotOk (Ok body)) => Throw (new_Error ("Image upload failed: " ++ body))
  | Ok (HttpOk (Throw e)) => Throw e
  | Ok (HttpOk (Ok data)) => Ok (upload_id data)
  end.

(** What the creation of the listing makes of the answer of the service. *)
Definition product_result (answer : Outcome (HttpResponse PrintifyProductResponse))
  : Outcome PrintifyProductResponse :=
  match answer with
  | Throw e => Throw e
  | Ok (HttpNotOk (Throw e)) => Throw e
  | Ok (HttpNotOk (Ok body)) => Throw (new_Error ("Product creation failed: " ++ body))
  | Ok (HttpOk body) => body
  end.

(** What the commerce service answers to the publish of [product] from
    the state [w]: the listing it created, or the error of the first of
    the three calls that fails. *)
Definition publish_answer {E : Environment} (token : string) (product : FinalizedProduct)
  (w : World) : Outcome PrintifyProductResponse :=
  let (shops, w1) := fetch_shops token w in
  match shop_result shops with
  | Throw e => Throw e
  | Ok shop =>
      let (upload, w2) :=
        fetch_upload token (safe_name (conceptTitle (concept product)) ++ ".png")
          (cleanBase64 (designUrl product)) w1 in
      match upload_result upload with
      | Throw e => Throw e
      | Ok imageId =>
          product_result
            (fst (fetch_product token (shop_id shop)
                    (productPayload (productType product) imageId (listingCopy product))
                    w2))
      end
  end.

(** The React state [u'] a publish of [product] leaves, from [u], when the
    commerce service has answered [answer]. *)
Definition publish_shows (product : FinalizedProduct)
  (answer : Outcome PrintifyProductResponse) (u u' : AppState) : Prop :=
  isLoading u' = false /\
  step u' = step u /\ holiday u' = holiday u /\ printifyToken u' = printifyToken u /\
  selectedDesigns u' = selectedDesigns u /\ showSettings u' = showSettings u /\
  match answer with
  | Ok published =>
      error u' = None /\
      successMessage u' =
        Some ("Successfully created " ++ dquote ++ product_title published ++ dquote ++
              " in Printify!") /\
      finalizedProducts u' =
        mark_published product (product_id published) (finalizedProducts u)
  | Throw e =>
      error u' = Some (shown_message e) /\
      successMessage u' = None /\
      finalizedProducts u' = finalizedProducts u
  end.

(** The rendering of the concept [concept], number [i] of [n], as the loop
    of [handleForgeDesigns] runs it. *)
Definition design_step {E : Environment} (style : DesignStyle) (n : Z) (i : nat)
  (concept : ProductConcept) : M string :=
  setLoadingMessage (forgingMessage (Z.of_nat i) n concept) ;;
  generateDesign concept style.

(** The pause after the concept number [i] of [n]. *)
Definition design_pause {E : Environment} (n : Z) (i : nat) : M unit :=
  if Z.of_nat i <? n - 1 then sleep 1500 else ret tt.

(** The concepts [concepts], numbered from [i], are rendered one after the
    other from the state [st], the next after the pause that follows the
    one before: [urls] are their designs, in the order of the concepts, and
    [st'] is the state after the last pause. *)
Inductive rendered_in_order {E : Environment} (style : DesignStyle) (n : Z)
  : nat -> list ProductConcept -> St -> list string -> St -> Prop :=
| rendered_none (i : nat) (st : St) : rendered_in_order style n i [] st [] st
| rendered_next (i : nat) (concept : ProductConcept) (rest : list ProductConcept)
    (st st1 st' : St) (url : string) (urls : list string) :
    design_step style n i concept st = (Ok url, st1) ->
    rendered_in_order style n (S i) rest (snd (design_pause n i st1)) urls st' ->
    rendered_in_order style n i (concept :: rest) st (url :: urls) st'.

(** The record of the designs [urls] of the concepts [concepts], on top of
    [r]: each under the title of its concept, a later concept of a title
    over an earlier one. *)
Definition designs_of (concepts : list ProductConcept) (urls : list string)
  (r : StringRecord) : StringRecord :=
  fold_left (fun acc cu => record_set (conceptTitle (fst cu)) (snd cu) acc)
            (combine concepts urls) r.

(* ===================================================================== *)
(** * Strings and classification *)
(* ===================================================================== *)

Lemma startsWith_spec (s p : string) :
  startsWith s p = true <-> exists post, s = p ++ post.
Proof.
  revert s; induction p as [|a p IH]; intros s.
  - split; [intros _; now exists s | intros _; destruct s; reflexivity].
  - destruct s as [|b s]; simpl.
    + split; [discriminate | intros [post H]; discriminate].
    + rewrite andb_true_iff, Ascii.eqb_eq, IH. split.
      * intros [-> [post ->]]. now exists post.
      * intros [post H]. injection H as -> ->. split; [reflexivity | now exists post].
Qed.

Lemma includes_spec (s m : string) : includes s m = true <-> Contains s m.
Proof.
  induction s as [|c s IH].
  - cbn [includes]. rewrite orb_false_r, startsWith_spec. split.
    + intros [post H]. exists EmptyString, post. exact H.
    + intros [pre [post H]]. destruct pre; simpl in H; [now exists post | discriminate].
  - cbn [includes]. rewrite orb_true_iff, startsWith_spec, IH. split.
    + intros [[post H] | [pre [post H]]].
      * exists EmptyString, post. exact H.
      * exists (String c pre), post. simpl. now rewrite H.
    + intros [pre [post H]]. destruct pre as [|c' pre]; simpl in H.
      * left. now exists post.
      * right. injection H as _ H. now exists pre, post.
Qed.

Lemma first_present_2 (a b c : JsVal) :
  first_present [a; b] c = js_or (js_or a b) c.
Proof.
  unfold js_or; simpl. destruct (truthy a) eqn:Ha; cbn; rewrite ?Ha; [reflexivity|].
  destruct (truthy b) eqn:Hb; cbn; rewrite ?Hb; reflexivity.
Qed.

Lemma strict_eq_num_spec (v : JsVal) (n : Z) : strict_eq_num v n = true <-> v = JNum n.
Proof.
  destruct v; simpl; try (split; [discriminate | intros H; discriminate]).
  rewrite Z.eqb_eq. split; [intros -> | intros [= ->]]; reflexivity.
Qed.

(** C6. The classification of [withRetry] is a function of the error value
    alone: [isRetryable] holds exactly when a marker (429,
    resource_exhausted, quota, internal, overloaded, server error) occurs in
    the lower-cased message or the status code is the number 500 or 503, and
    fails for every other error. *)
Theorem isRetryable_iff_Transient (e : JsError) :
  (isRetryable e = true <-> Transient e) /\
  (isRetryable e = false <-> ~ Transient e).
Proof.
  assert (H : isRetryable e = true <-> Transient e).
  { unfold isRetryable, Transient, errorMessage, message_of, status_of.
    rewrite !first_present_2.
    set (msg := toLowerCase _). set (code := js_or _ _).
    rewrite !orb_true_iff, !includes_spec, !strict_eq_num_spec.
    unfold markers. split.
    - intros [[[[[[[H|H]|H]|H]|H]|H]|H]|H]; try (left; eexists; split; [|exact H]; simpl; tauto);
        right; [left | right]; exact H.
    - intros [[m [Hin H]] | [H | H]]; [|tauto|tauto].
      simpl in Hin. decompose [or] Hin; subst; tauto. }
  split; [exact H|].
  rewrite <- H. destruct (isRetryable e); split; congruence.
Qed.

(* ===================================================================== *)
(** * The executor *)
(* ===================================================================== *)

Section ExecutorFacts.
Context {E : Environment}.

Lemma withRetry_loop_step {T} (apiCall : M T) (maxRetries retries delay : Z) (st : St) :
  withRetry_loop apiCall maxRetries retries delay st =
  match apiCall st with
  | (Ok v, st1) => (Ok v, st1)
  | (Throw error, st1) =>
      if (isRetryable error && (retries <? maxRetries))%bool then
        withRetry_loop apiCall maxRetries (retries + 1) (delay * 2)
          (log_event (EvSleep delay)
             (log_event (EvConsoleWarn (status_of error) (message_of error)
                           delay (retries + 1) maxRetries) st1))
      else if isRetryable error then
        (Throw (new_Error (busy_message (status_of error))), st1)
      else (Throw error, st1)
  end.
Proof.
  rewrite withRetry_loop_equation_1.
  destruct (apiCall st) as [[v|error] st1]; simpl; [reflexivity|].
  destruct (Z_lt_dec retries maxRetries) as [Hlt|Hge]; simpl.
  - apply Z.ltb_lt in Hlt. rewrite Hlt, andb_true_r.
    destruct (isRetryable error); reflexivity.
  - apply Z.ltb_nlt in Hge. rewrite Hge, andb_false_r. reflexivity.
Qed.

Lemma remote_eq {A} (ev : Event) (f : World -> Outcome A * World) (st : St) :
  remote ev f st =
  (fst (f (world st)),
   {| world := snd (f (world st)); trace := trace st ++ [ev]; ui := ui st |}).
Proof. unfold remote. destruct (f (world st)); reflexivity. Qed.

Lemma world_after_shift {A} (f : World -> Outcome A * World) (w : World) (n : nat) :
  world_after f (snd (f w)) n = world_after f w (S n).
Proof. induction n as [|n IH]; simpl; [reflexivity | now rewrite IH]. Qed.

Lemma attempt_shift {A} (f : World -> Outcome A * World) (w : World) (i : nat) :
  attempt f (snd (f w)) i = attempt f w (S i).
Proof. unfold attempt. now rewrite world_after_shift. Qed.

(** The loop entered with [retries = r] and [delay = d * 2 ^ r]. *)
Lemma withRetry_loop_spec {T} (ev : Event) (f : World -> Outcome T * World) (m d : Z) :
  forall (n r : nat) (st : St),
    Z.to_nat (m - Z.of_nat r) = n -> Z.of_nat r <= m ->
    exists es : list JsError,
      Z.of_nat (r + List.length es) <= m /\
      Forall (fun e => isRetryable e = true) es /\
      (forall i e, nth_error es i = Some e -> attempt f (world st) i = Throw e) /\
      let res := withRetry_loop (remote ev f) m (Z.of_nat r) (d * 2 ^ Z.of_nat r) st in
      trace (snd res) =
        (trace st ++ flat_map (retry_events ev m d) (indexed r es) ++ [ev])%list /\
      world (snd res) = world_after f (world st) (S (List.length es)) /\
      ui (snd res) = ui st /\
      match attempt f (world st) (List.length es) with
      | Ok v => fst res = Ok v
      | Throw e =>
          if isRetryable e
          then Z.of_nat (r + List.length es) = m /\
               fst res = Throw (new_Error (busy_message (status_of e)))
          else fst res = Throw e
      end.
Proof.
  induction n as [|n IH]; intros r st Hn Hr.
  - (* no retry left *)
    exists []. rewrite withRetry_loop_step. unfold remote at 1.
    unfold attempt; simpl world_after.
    destruct (f (world st)) as [[v|e] w1] eqn:Hf; simpl.
    + repeat split; try lia; try constructor.
      intros i e H; destruct i; discriminate.
    + replace (Z.of_nat r <? m) with false by (symmetry; apply Z.ltb_ge; lia).
      rewrite andb_false_r.
      destruct (isRetryable e) eqn:He; simpl; repeat split; try lia; try constructor;
        intros i e' H; destruct i; discriminate.
  - rewrite withRetry_loop_step. unfold remote at 1.
    destruct (f (world st)) as [[v|e] w1] eqn:Hf.
    + exists []. unfold attempt; simpl world_after. rewrite Hf. simpl.
      repeat split; try lia; try constructor.
      intros i e H; destruct i; discriminate.
    + replace (Z.of_nat r <? m) with true by (symmetry; apply Z.ltb_lt; lia).
      rewrite andb_true_r.
      destruct (isRetryable e) eqn:He.
      * set (st2 := log_event _ (log_event _ _)).
        destruct (IH (S r) st2) as (es & Hle & Hall & Hatt & Htr & Hw & Hui & Hres);
          [lia | lia |].
        replace (Z.of_nat r + 1) with (Z.of_nat (S r)) by lia.
        replace (d * 2 ^ Z.of_nat r * 2) with (d * 2 ^ Z.of_nat (S r))
          by (rewrite Nat2Z.inj_succ, Z.pow_succ_r; lia).
        assert (Hw2 : world st2 = snd (f (world st))) by (rewrite Hf; reflexivity).
        rewrite Hw2 in *.
        exists (e :: es). simpl List.length.
        split; [lia|]. split; [constructor; assumption|].
        split.
        { intros [|i] e' H; simpl in H.
          - injection H as <-. unfold attempt; simpl. now rewrite Hf.
          - rewrite <- attempt_shift. now apply Hatt. }
        cbv zeta in *. rewrite Htr, Hw, Hui.
        split.
        { subst st2. simpl. unfold retry_events at 2. simpl.
          rewrite <- !app_assoc. simpl.
          replace (Z.of_nat r + 1) with (Z.of_nat (S r)) by lia.
          replace (d * 2 ^ Z.of_nat r * 2) with (d * 2 ^ Z.of_nat (S r))
            by (rewrite Nat2Z.inj_succ, Z.pow_succ_r; lia).
          reflexivity. }
        split; [now rewrite world_after_shift|].
        split; [reflexivity|].
        rewrite attempt_shift in Hres.
        replace (r + S (List.length es))%nat with (S r + List.length es)%nat by lia.
        exact Hres.
      * exists []. unfold attempt; simpl world_after. rewrite Hf. simpl. rewrite He.
        repeat split; try lia; try constructor.
        intros i e' H; destruct i; discriminate.
Qed.

Lemma withRetry_spec {T} (ev : Event) (f : World -> Outcome T * World)
  (maxRetries initialDelay : option Z) (st : St) :
  0 <= default_to 5 maxRetries ->
  exists es : list JsError,
    Z.of_nat (List.length es) <= default_to 5 maxRetries /\
    Forall (fun e => isRetryable e = true) es /\
    (forall i e, nth_error es i = Some e -> attempt f (world st) i = Throw e) /\
    trace (snd (withRetry (remote ev f) maxRetries initialDelay st)) =
      (trace st ++
       flat_map (retry_events ev (default_to 5 maxRetries) (default_to 2000 initialDelay))
                (indexed 0 es) ++ [ev])%list /\
    world (snd (withRetry (remote ev f) maxRetries initialDelay st)) =
      world_after f (world st) (S (List.length es)) /\
    ui (snd (withRetry (remote ev f) maxRetries initialDelay st)) = ui st /\
    match attempt f (world st) (List.length es) with
    | Ok v => fst (withRetry (remote ev f) maxRetries initialDelay st) = Ok v
    | Throw e =>
        if isRetryable e
        then Z.of_nat (List.length es) = default_to 5 maxRetries /\
             fst (withRetry (remote ev f) maxRetries initialDelay st) =
             Throw (new_Error (busy_message (status_of e)))
        else fst (withRetry (remote ev f) maxRetries initialDelay st) = Throw e
    end.
Proof.
  intros Hm. unfold withRetry.
  pose proof (withRetry_loop_spec ev f (default_to 5 maxRetries)
                (default_to 2000 initialDelay) _ 0%nat st eq_refl Hm) as H.
  change (Z.of_nat 0) with 0 in H. rewrite Z.pow_0_r, Z.mul_1_r in H.
  exact H.
Qed.

(** C1. A wrapped remote operation is retried at most [maxRetries] times
    (default 5), each retry after an attempt that failed with a transient
    error and after a wait that starts at [initialDelay] (default 2000)
    and doubles, without cap, from one retry to the next; an attempt that
    fails with a terminal error is the last one, and its error is thrown
    as it is. *)
Theorem withRetry_bounded_backoff {T} (ev : Event) (f : World -> Outcome T * World)
  (maxRetries initialDelay : option Z) (st : St) :
  0 <= default_to 5 maxRetries ->
  exists es : list JsError,
    Z.of_nat (List.length es) <= default_to 5 maxRetries /\
    Forall (fun e => isRetryable e = true) es /\
    (forall i e, nth_error es i = Some e -> attempt f (world st) i = Throw e) /\
    let res := withRetry (remote ev f) maxRetries initialDelay st in
    trace (snd res) =
      (trace st ++
       flat_map (fun ie : nat * JsError =>
                   [ ev;
                     EvConsoleWarn (status_of (snd ie)) (message_of (snd ie))
                       (default_to 2000 initialDelay * 2 ^ Z.of_nat (fst ie))
                       (Z.of_nat (fst ie) + 1) (default_to 5 maxRetries);
                     EvSleep (default_to 2000 initialDelay * 2 ^ Z.of_nat (fst ie)) ])
                (indexed 0 es) ++
       [ev])%list /\
    world (snd res) = world_after f (world st) (S (List.length es)) /\
    match attempt f (world st) (List.length es) with
    | Ok v => fst res = Ok v
    | Throw e =>
        if isRetryable e
        then Z.of_nat (List.length es) = default_to 5 maxRetries /\
             fst res = Throw (new_Error (busy_message (status_of e)))
        else fst res = Throw e
    end.
Proof.
  intros Hm.
  destruct (withRetry_spec ev f maxRetries initialDelay st Hm)
    as (es & Hle & Hall & Hatt & Htr & Hw & _ & Hres).
  exists es. cbv zeta. repeat (split; [assumption|]). exact Hres.
Qed.

(** C7, as the code has it. When every attempt, the first and the
    [maxRetries] retries, fails with a transient error, the executor throws
    a new error whose message is the fixed text on a busy service around
    the status code of the last failure, and nothing else of that
    failure. *)
Theorem withRetry_exhausted_busy {T} (ev : Event) (f : World -> Outcome T * World)
  (maxRetries initialDelay : option Z) (st : St) (e : JsError) :
  0 <= default_to 5 maxRetries ->
  (forall i, (i <= Z.to_nat (default_to 5 maxRetries))%nat ->
             exists e', attempt f (world st) i = Throw e' /\ isRetryable e' = true) ->
  attempt f (world st) (Z.to_nat (default_to 5 maxRetries)) = Throw e ->
  fst (withRetry (remote ev f) maxRetries initialDelay st) =
  Throw (new_Error ("The AI service is temporarily busy (Error " ++
                    js_String (status_of e) ++ "). Please try again shortly.")).
Proof.
  intros Hm Hall He.
  destruct (withRetry_spec ev f maxRetries initialDelay st Hm)
    as (es & Hle & _ & _ & _ & _ & _ & Hres).
  destruct (Hall (List.length es)) as (e' & Ha & Hr); [lia|].
  rewrite Ha, Hr in Hres. destruct Hres as [Hk Hres].
  rewrite <- Hk, Nat2Z.id, Ha in He. injection He as <-.
  exact Hres.
Qed.

(** The executor on a remote operation looks at the state of the
    collaborator only. *)
Lemma withRetry_loop_world {T} (ev : Event) (f : World -> Outcome T * World) (m : Z) :
  forall (n : nat) (r d : Z) (st st2 : St),
    Z.to_nat (m - r) = n -> world st = world st2 ->
    fst (withRetry_loop (remote ev f) m r d st) =
    fst (withRetry_loop (remote ev f) m r d st2) /\
    world (snd (withRetry_loop (remote ev f) m r d st)) =
    world (snd (withRetry_loop (remote ev f) m r d st2)).
Proof.
  induction n as [|n IH]; intros r d st st2 Hn Hw;
    rewrite (withRetry_loop_step _ _ _ _ st), (withRetry_loop_step _ _ _ _ st2);
    rewrite (remote_eq ev f st), (remote_eq ev f st2), <- Hw;
    destruct (f (world st)) as [[v|e] w1]; simpl fst; simpl snd;
    try (split; reflexivity).
  - replace (r <? m) with false by (symmetry; apply Z.ltb_ge; lia).
    rewrite andb_false_r. destruct (isRetryable e); split; reflexivity.
  - destruct (isRetryable e && (r <? m))%bool eqn:Hc.
    + apply andb_true_iff in Hc. destruct Hc as [_ Hc]. apply Z.ltb_lt in Hc.
      apply IH; [lia | reflexivity].
    + destruct (isRetryable e); split; reflexivity.
Qed.
End ExecutorFacts.


(** The service fails with 503, then with a quota error, then answers: two
    retries, after waits of 2000 and 4000. *)
Lemma withRetry_bounded_backoff_witness :
  0 <= default_to 5 None /\
  exists es : list JsError,
    List.length es = 2%nat /\
    map EvSleep [2000; 4000] =
      filter (fun ev => match ev with EvSleep _ => true | _ => false end)
        (trace (snd (@withRetry Scenario.env_ok _
                       (ai_models_generateContent (listingCopyRequest Scenario.concept1))
                       None None
                       (Scenario.state_of Scenario.env_ok Scenario.recovering initial_ui)))) /\
    Forall (fun e => isRetryable e = true) es.
Proof.
  split; [simpl; lia|].
  destruct (@withRetry_bounded_backoff Scenario.env_ok _
              (EvGenerateContent (listingCopyRequest Scenario.concept1))
              (@generateContent Scenario.env_ok (listingCopyRequest Scenario.concept1))
              None None
              (Scenario.state_of Scenario.env_ok Scenario.recovering initial_ui))
    as (es & Hle & Hall & Hatt & Htr & Hw & Hres); [simpl; lia|].
  exists es. split; [|split; [reflexivity | exact Hall]].
  destruct es as [|e1 [|e2 [|e3 es]]].
  - vm_compute in Hres. destruct Hres as [H _]. discriminate H.
  - vm_compute in Hres. destruct Hres as [H _]. discriminate H.
  - reflexivity.
  - specialize (Hatt 2%nat e3 eq_refl). discriminate Hatt.
Defined.

(** Six busy answers in a row under the default bound of five retries. *)
Lemma withRetry_exhausted_busy_witness :
  fst (@withRetry Scenario.env_ok _
         (ai_models_generateContent (listingCopyRequest Scenario.concept1)) None None
         (Scenario.state_of Scenario.env_ok Scenario.always_busy initial_ui)) =
  Throw (new_Error "The AI service is temporarily busy (Error 503). Please try again shortly.").
Proof.
  apply (@withRetry_exhausted_busy Scenario.env_ok _
           (EvGenerateContent (listingCopyRequest Scenario.concept1))
           (@generateContent Scenario.env_ok (listingCopyRequest Scenario.concept1))
           None None
           (Scenario.state_of Scenario.env_ok Scenario.always_busy initial_ui)
           Scenario.e503).
  - simpl; lia.
  - intros i Hi.
    do 6 (destruct i as [|i]; [eexists; split; reflexivity|]).
    simpl in Hi; lia.
  - reflexivity.
Defined.

(** C7, as it is stated, fails: after six busy answers the error the
    executor throws reads [Error 503], the status code of the failure it
    stands for. *)
Lemma busy_error_cites_status :
  ~ (exists busy : JsError,
       fst (@withRetry Scenario.env_ok _
              (ai_models_generateContent (listingCopyRequest Scenario.concept1)) None None
              (Scenario.state_of Scenario.env_ok Scenario.always_busy initial_ui)) =
       Throw busy /\
       hides_status_detail busy Scenario.e503).
Proof.
  intros (busy & Hres & Hhide).
  vm_compute in Hres. injection Hres as <-.
  vm_compute in Hhide. discriminate Hhide.
Qed.

(* ===================================================================== *)
(** * The stages of the generative service *)
(* ===================================================================== *)

Section StageFacts.
Context {E : Environment}.

Lemma St_eta (st : St) : st = {| world := world st; trace := trace st; ui := ui st |}.
Proof. destruct st; reflexivity. Qed.

Lemma bind_ok {A B} (c : M A) (k : A -> M B) (st st1 : St) (a : A) :
  c st = (Ok a, st1) -> bind c k st = k a st1.
Proof. intros H. unfold bind. now rewrite H. Qed.

Lemma bind_throw {A B} (c : M A) (k : A -> M B) (st st1 : St) (e : JsError) :
  c st = (Throw e, st1) -> bind c k st = (Throw e, st1).
Proof. intros H. unfold bind. now rewrite H. Qed.

Lemma catch_log {A} (body : M A) (label : string) (st : St) :
  try_catch body (fun error => console_error label error ;; throw error) st =
  match body st with
  | (Ok a, st1) => (Ok a, st1)
  | (Throw e, st1) => (Throw e, log_event (EvConsoleError label e) st1)
  end.
Proof. unfold try_catch. destruct (body st) as [[a|e] st1]; reflexivity. Qed.

Lemma retry_events_quiet (req : GenRequest) (m d : Z) (l : list (nat * JsError)) :
  Forall (fun ev => is_progress ev = false /\
                    (is_remote ev = true -> ev = EvGenerateContent req))
         (flat_map (retry_events (EvGenerateContent req) m d) l).
Proof.
  apply Forall_flat_map, Forall_forall. intros ie _.
  unfold retry_events. repeat constructor; simpl; discriminate.
Qed.

(** A request sent through the executor from any state: the answer and the
    state of the collaborator are those of [executor_on]. *)
Lemma executor_call (req : GenRequest) (st : St) :
  exists evs : list Event,
    call_block req evs /\
    withRetry (ai_models_generateContent req) None None st =
    (fst (executor_on req (world st)),
     {| world := snd (executor_on req (world st));
        trace := trace st ++ evs;
        ui := ui st |}).
Proof.
  unfold ai_models_generateContent.
  destruct (withRetry_spec (EvGenerateContent req) (generateContent req) None None st)
    as (es & _ & _ & _ & Htr & _ & Hui & _); [simpl; lia|].
  eexists. split.
  2:{ unfold executor_on, ai_models_generateContent.
      destruct (withRetry_loop_world (EvGenerateContent req) (generateContent req)
                  (default_to 5 None) _ 0 (default_to 2000 None) st (fresh (world st))
                  eq_refl eq_refl) as [Hf Hw].
      unfold withRetry in *.
      destruct (withRetry_loop _ _ _ _ st) as [r st1].
      destruct (withRetry_loop _ _ _ _ (fresh (world st))) as [r2 st2].
      simpl in *. subst r2. rewrite (St_eta st1), Htr, Hui, Hw. reflexivity. }
  split.
  - apply in_or_app. right. left. reflexivity.
  - apply Forall_app. split; [apply retry_events_quiet|].
    repeat constructor.
Qed.

Lemma generateListingCopy_eq (concept : ProductConcept) (st : St) :
  generateListingCopy concept st =
  match withRetry (ai_models_generateContent (listingCopyRequest concept)) None None st with
  | (Ok response, st1) =>
      match JSON_parse (trim (response_text response)) with
      | Ok copy => (Ok copy, st1)
      | Throw e =>
          (Throw e, log_event (EvConsoleError "Error generating listing copy:" e) st1)
      end
  | (Throw e, st1) =>
      (Throw e, log_event (EvConsoleError "Error generating listing copy:" e) st1)
  end.
Proof.
  unfold generateListingCopy. rewrite catch_log. unfold bind.
  destruct (withRetry _ None None st) as [[response|e] st1]; [|reflexivity].
  destruct (JSON_parse _); reflexivity.
Qed.

(** C8. Whatever listing copy the response of the collaborator parses to,
    the stage returns it as it is: no bound on the title, on the number of
    tags or on their length is checked. *)
Theorem generateListingCopy_passes_through (concept : ProductConcept) (st st1 : St)
  (response : GenerateContentResponse) (copy : ListingCopy) :
  withRetry (ai_models_generateContent (listingCopyRequest concept)) None None st =
    (Ok response, st1) ->
  JSON_parse (trim (response_text response)) = Ok copy ->
  generateListingCopy concept st = (Ok copy, st1).
Proof.
  intros Hcall Hparse. rewrite generateListingCopy_eq, Hcall, Hparse. reflexivity.
Qed.

End StageFacts.

(** A listing copy that breaks the three bounds comes back as it is. *)
Lemma generateListingCopy_passes_through_witness :
  (140 < String.length (lc_title Scenario.copy1))%nat /\
  List.length (lc_tags Scenario.copy1) = 14%nat /\
  Exists (fun tag => (20 < String.length tag)%nat) (lc_tags Scenario.copy1) /\
  fst (@generateListingCopy Scenario.env_ok Scenario.concept1
         (Scenario.state_of Scenario.env_ok Scenario.recovering initial_ui)) =
  Ok Scenario.copy1.
Proof.
  split; [vm_compute; lia|]. split; [reflexivity|].
  split; [do 13 apply Exists_cons_tl; apply Exists_cons_hd; vm_compute; lia|].
  rewrite (@generateListingCopy_passes_through Scenario.env_ok Scenario.concept1
             (Scenario.state_of Scenario.env_ok Scenario.recovering initial_ui)
             (snd (@withRetry Scenario.env_ok _
                     (ai_models_generateContent (listingCopyRequest Scenario.concept1))
                     None None
                     (Scenario.state_of Scenario.env_ok Scenario.recovering initial_ui)))
             Scenario.copyResponse Scenario.copy1).
  - reflexivity.
  - vm_compute. reflexivity.
  - vm_compute. reflexivity.
Defined.

Section MockupFacts.
Context {E : Environment}.

Lemma call_onProgress_quiet (onProgress : option Callback) (p t : Z) (st : St) :
  quiet_opt onProgress ->
  exists u,
    call_onProgress onProgress p t st =
    (Ok tt, {| world := world st; trace := trace st ++ report onProgress p t; ui := u |}).
Proof.
  intros Hq. destruct onProgress as [cb|]; simpl.
  - destruct (Hq cb eq_refl p t (log_event (EvProgress p t) st)) as [u Hu].
    exists u. unfold bind, log. rewrite Hu. reflexivity.
  - exists (ui st). unfold ret. rewrite app_nil_r. apply f_equal, St_eta.
Qed.

Lemma answers_length (reqs : list GenRequest) :
  forall w rs w2, answers reqs w = Some (rs, w2) -> List.length rs = List.length reqs.
Proof.
  induction reqs as [|req reqs IH]; intros w rs w2 H; simpl in H.
  - injection H as <- _. reflexivity.
  - destruct (executor_on req w) as [[r|e] w1]; [|discriminate].
    destruct (answers reqs w1) as [[rs' w']|] eqn:Ha; [|discriminate].
    injection H as <- _. simpl. f_equal. eapply IH, Ha.
Qed.

Lemma extract_image_throws (r : GenerateContentResponse) (e : JsError) :
  extract_image r = Throw e -> e = no_content_error.
Proof.
  unfold extract_image. destruct (candidates r) as [[|first rest]|]; try discriminate.
  destruct (content first) as [c|]; [|now intros [= <-]].
  destruct (parts c) as [ps|]; [|discriminate].
  destruct (find has_inlineData ps) as [imagePart|]; [|discriminate].
  destruct (inlineData imagePart); discriminate.
Qed.

(** The read of a response throws exactly when its first candidate has no
    content. *)
Lemma readable_spec (r : GenerateContentResponse) :
  readable r = match extract_image r with
               | Ok _ => true
               | Throw _ => false
               end.
Proof.
  unfold readable, extract_image.
  destruct (candidates r) as [[|first rest]|]; try reflexivity.
  destruct (content first) as [c|]; [|reflexivity].
  destruct (parts c) as [ps|]; [|reflexivity].
  destruct (find has_inlineData ps) as [imagePart|]; [|reflexivity].
  now destruct (inlineData imagePart).
Qed.

Lemma push_mockup_readable (r : GenerateContentResponse) (urls : list string) :
  readable r = true ->
  exists urls',
    push_mockup urls r = Ok urls' /\
    forall rs, (urls' ++ images_of rs = urls ++ images_of (r :: rs))%list.
Proof.
  rewrite readable_spec. unfold push_mockup, images_of. cbn [flat_map].
  destruct (extract_image r) as [[bytes|]|e]; [| |discriminate]; intros _.
  - eexists. split; [reflexivity|]. intros rs. now rewrite <- app_assoc.
  - eexists. split; [reflexivity|]. reflexivity.
Qed.

Lemma push_mockup_unreadable (r : GenerateContentResponse) (urls : list string) :
  readable r = false -> push_mockup urls r = Throw no_content_error.
Proof.
  rewrite readable_spec. unfold push_mockup.
  destruct (extract_image r) as [o|e] eqn:He; [discriminate|].
  intros _. now rewrite (extract_image_throws r e He).
Qed.

Lemma pause_block (req : GenRequest) (evs : list Event) :
  call_block req evs -> call_block req (evs ++ [EvSleep 1500]).
Proof.
  intros [Hin Hall]. split; [apply in_or_app; now left|].
  apply Forall_app. split; [exact Hall|]. repeat constructor. discriminate.
Qed.

(** The loop over the scene prompts, against the answers of the
    collaborator to its requests. *)
Lemma mockup_loop_spec (designPart : InlineData) (onProgress : option Callback)
  (totalSteps total : Z) :
  quiet_opt onProgress ->
  forall (prompts : list string) (k : nat) (mockupUrls : list string) (st : St),
    match answers (map (mockupRequest designPart) prompts) (world st) with
    | Some (rs, w2) =>
        if forallb readable rs then
          exists (blocks : list (list Event)) (u : AppState),
            Forall2 (fun prompt block => call_block (mockupRequest designPart prompt) block)
                    prompts blocks /\
            mockup_loop designPart onProgress totalSteps total prompts (Z.of_nat k)
              mockupUrls st =
            (Ok (mockupUrls ++ images_of rs)%list,
             {| world := w2;
                trace := trace st ++
                         List.concat (map (step_events onProgress totalSteps)
                                          (indexed k blocks));
                ui := u |})
        else
          exists st',
            mockup_loop designPart onProgress totalSteps total prompts (Z.of_nat k)
              mockupUrls st = (Throw no_content_error, st')
    | None =>
        exists e st',
          mockup_loop designPart onProgress totalSteps total prompts (Z.of_nat k)
            mockupUrls st = (Throw e, st')
    end.
Proof.
  intros Hq. induction prompts as [|prompt rest IH]; intros k urls st.
  - simpl. exists [], (ui st). split; [constructor|].
    unfold ret. simpl. rewrite !app_nil_r. apply f_equal, St_eta.
  - cbn [map answers mockup_loop].
    destruct (call_onProgress_quiet onProgress (Z.of_nat k + 2) totalSteps st Hq)
      as [u0 Hcb].
    rewrite (bind_ok _ _ _ _ _ Hcb).
    set (st0 := {| world := world st; trace := _; ui := u0 |}).
    destruct (executor_call (mockupRequest designPart prompt) st0)
      as (evs & Hblock & Hcall).
    change (world st0) with (world st) in Hcall.
    destruct (executor_on (mockupRequest designPart prompt) (world st))
      as [[r|e] w1] eqn:Hex; simpl fst in Hcall; simpl snd in Hcall.
    2:{ rewrite (bind_throw _ _ _ _ _ Hcall). eauto. }
    rewrite (bind_ok _ _ _ _ _ Hcall).
    set (st1 := {| world := w1; trace := _; ui := ui st0 |}).
    destruct (readable r) eqn:Hr.
    2:{ assert (Hpush : (fun s : St => (push_mockup urls r, s)) st1 =
                        (Throw no_content_error, st1))
          by (now rewrite (push_mockup_unreadable r urls Hr)).
        rewrite (bind_throw _ _ _ _ _ Hpush).
        destruct (answers (map (mockupRequest designPart) rest) w1) as [[rs w2]|];
          [|eauto].
        cbn [forallb]. rewrite Hr. cbn [andb]. eauto. }
    destruct (push_mockup_readable r urls Hr) as (urls' & Hurls & Himages).
    assert (Hpush : (fun s : St => (push_mockup urls r, s)) st1 = (Ok urls', st1))
      by (now rewrite Hurls).
    rewrite (bind_ok _ _ _ _ _ Hpush).
    assert (Hpause : exists evs2,
               call_block (mockupRequest designPart prompt) (evs ++ evs2) /\
               (if Z.of_nat k <? total - 1 then sleep 1500 else ret tt) st1 =
               (Ok tt, {| world := w1; trace := trace st0 ++ evs ++ evs2;
                          ui := ui st0 |})).
    { destruct (Z.of_nat k <? total - 1).
      - exists [EvSleep 1500]. split; [now apply pause_block|].
        unfold sleep, log, log_event. subst st1. simpl.
        now rewrite <- app_assoc.
      - exists []. rewrite app_nil_r. split; [exact Hblock | reflexivity]. }
    destruct Hpause as (evs2 & Hblock2 & Hpause).
    rewrite (bind_ok _ _ _ _ _ Hpause).
    replace (Z.of_nat k + 1) with (Z.of_nat (S k)) by lia.
    set (st2 := {| world := w1; trace := _; ui := ui st0 |}).
    specialize (IH (S k) urls' st2).
    change (world st2) with w1 in IH.
    destruct (answers (map (mockupRequest designPart) rest) w1) as [[rs w2]|].
    2:{ destruct IH as (e & st' & Hloop). exists e, st'. exact Hloop. }
    cbn [forallb]. rewrite Hr. cbn [andb].
    destruct (forallb readable rs).
    + destruct IH as (blocks & u & HF & Hloop).
      exists ((evs ++ evs2)%list :: blocks), u.
      split; [constructor; assumption|].
      rewrite Hloop, Himages. do 2 f_equal.
      subst st2 st0. cbn [trace indexed map List.concat]. unfold step_events at 2.
      cbn [fst snd]. rewrite <- !app_assoc. reflexivity.
    + exact IH.
Qed.

(** [generateFinalAssets] against the answers of the collaborator: every
    way the stage can end, with the trace it leaves. *)
Lemma generateFinalAssets_spec (url : string) (concept : ProductConcept)
  (holiday : string) (pt : ProductType) (onProgress : option Callback) (st : St) :
  quiet_opt onProgress ->
  let prompts := getMockupPrompts pt concept holiday in
  let totalSteps := Z.of_nat (List.length prompts) + 1 in
  let label := "Error generating final assets:" in
  let run := generateFinalAssets url concept holiday pt onProgress st in
  exists copy_evs : list Event,
    call_block (listingCopyRequest concept) copy_evs /\
    let head := (trace st ++ report onProgress 0 totalSteps ++ copy_evs)%list in
    let copy_failed (e : JsError) (w1 : World) :=
      exists u,
        run = (Throw e,
               {| world := w1;
                  trace := head ++ [EvConsoleError "Error generating listing copy:" e;
                                    EvConsoleError label e];
                  ui := u |}) in
    match executor_on (listingCopyRequest concept) (world st) with
    | (Throw e, w1) => copy_failed e w1
    | (Ok response, w1) =>
        match JSON_parse (trim (response_text response)) with
        | Throw e => copy_failed e w1
        | Ok copy =>
            match base64ToPart url with
            | Throw e =>
                exists u,
                  run = (Throw e,
                         {| world := w1;
                            trace := head ++ report onProgress 1 totalSteps ++
                                     [EvConsoleError label e];
                            ui := u |})
            | Ok part =>
                match answers (map (mockupRequest part) prompts) w1 with
                | None => exists e st', run = (Throw e, st')
                | Some (rs, w2) =>
                    if forallb readable rs then
                      exists (blocks : list (list Event)) (u : AppState),
                        Forall2 (fun prompt block =>
                                   call_block (mockupRequest part prompt) block)
                                prompts blocks /\
                        let tr := (head ++ report onProgress 1 totalSteps ++
                                   List.concat (map (step_events onProgress totalSteps)
                                                    (indexed 0 blocks)))%list in
                        run =
                        if Nat.eqb (List.length (images_of rs)) 0
                        then (Throw no_mockups,
                              {| world := w2;
                                 trace := tr ++ [EvConsoleError label no_mockups];
                                 ui := u |})
                        else (Ok {| fa_mockups := images_of rs; fa_listingCopy := copy |},
                              {| world := w2; trace := tr; ui := u |})
                    else exists st', run = (Throw no_content_error, st')
                end
            end
        end
    end.
Proof.
  intros Hq prompts totalSteps label run.
  subst run. unfold generateFinalAssets. rewrite catch_log.
  fold prompts. cbv zeta. fold totalSteps. fold label.
  clearbody prompts. clearbody totalSteps.
  destruct (call_onProgress_quiet onProgress 0 totalSteps st Hq) as [u0 Hcb0].
  rewrite (bind_ok _ _ _ _ _ Hcb0).
  set (st0 := {| world := world st; trace := _; ui := u0 |}).
  destruct (executor_call (listingCopyRequest concept) st0) as (copy_evs & Hblock & Hcall).
  exists copy_evs. split; [exact Hblock|].
  change (world st0) with (world st) in Hcall.
  pose proof (generateListingCopy_eq concept st0) as Hcopy. rewrite Hcall in Hcopy.
  destruct (executor_on (listingCopyRequest concept) (world st)) as [[response|e] w1];
    simpl fst in Hcopy; simpl snd in Hcopy; cbv iota in Hcopy.
  2:{ rewrite (bind_throw _ _ _ _ _ Hcopy). exists (ui st0).
      unfold log_event. subst st0. simpl. rewrite <- !app_assoc. reflexivity. }
  destruct (JSON_parse (trim (response_text response))) as [copy|e].
  2:{ rewrite (bind_throw _ _ _ _ _ Hcopy). exists (ui st0).
      unfold log_event. subst st0. simpl. rewrite <- !app_assoc. reflexivity. }
  rewrite (bind_ok _ _ _ _ _ Hcopy).
  set (st1 := {| world := w1; trace := _; ui := ui st0 |}).
  destruct (call_onProgress_quiet onProgress 1 totalSteps st1 Hq) as [u1 Hcb1].
  rewrite (bind_ok _ _ _ _ _ Hcb1).
  set (st2 := {| world := world st1; trace := _; ui := u1 |}).
  unfold bind at 1.
  destruct (base64ToPart url) as [part|e].
  2:{ exists u1. unfold log_event. subst st2 st1 st0. simpl.
      rewrite <- !app_assoc. reflexivity. }
  pose proof (mockup_loop_spec part onProgress totalSteps
                (Z.of_nat (List.length prompts)) Hq prompts 0%nat [] st2) as Hloop.
  change (world st2) with w1 in Hloop. change (Z.of_nat 0) with 0 in Hloop.
  destruct (answers (map (mockupRequest part) prompts) w1) as [[rs w2]|].
  - destruct (forallb readable rs).
    + destruct Hloop as (blocks & u & HF & Hloop). exists blocks, u.
      split; [exact HF|]. cbv beta iota.
      unfold bind at 1. rewrite Hloop. cbn [app].
      destruct (Nat.eqb (List.length (images_of rs)) 0); unfold throw, ret, log_event;
        subst st2 st1 st0; simpl; rewrite <- !app_assoc; reflexivity.
    + destruct Hloop as (st' & Hloop). cbv beta iota.
      eexists. unfold bind at 1. cbv beta iota. unfold bind at 1.
      rewrite Hloop. reflexivity.
  - destruct Hloop as (e & st' & Hloop). cbv beta iota.
    do 2 eexists. unfold bind at 1. cbv beta iota. unfold bind at 1.
    rewrite Hloop. reflexivity.
Qed.

End MockupFacts.

(* ===================================================================== *)
(** * The finalization of one design *)
(* ===================================================================== *)

Lemma split_not_nil (sep : ascii) (s : string) : split sep s <> [].
Proof.
  induction s as [|c r IH]; simpl; [discriminate|].
  destruct (Ascii.eqb c sep); [discriminate|].
  destruct (split sep r); [contradiction | discriminate].
Qed.

Lemma join_split (sep : ascii) (s : string) :
  join (String sep EmptyString) (split sep s) = s.
Proof.
  induction s as [|c r IH]; simpl; [reflexivity|].
  pose proof (split_not_nil sep r) as Hne.
  destruct (Ascii.eqb c sep) eqn:Hc.
  - apply Ascii.eqb_eq in Hc. subst c.
    destruct (split sep r) as [|h t]; [contradiction|].
    simpl in *. now rewrite IH.
  - destruct (split sep r) as [|h t]; [contradiction|].
    destruct t; simpl in *; now rewrite <- IH.
Qed.

Lemma join_head_not_empty (sep d : string) (rest : list string) :
  d <> "" -> join sep (d :: rest) <> "".
Proof.
  intros Hd. destruct rest; simpl; [exact Hd|].
  destruct d; [contradiction | discriminate].
Qed.

(** A design URL that [base64ToPart] accepts has a comma between a header
    and data, both not empty. *)
Lemma base64ToPart_bad (url : string) : BadUrl url -> base64ToPart url = Throw invalid_url.
Proof.
  intros Hbad. unfold base64ToPart.
  pose proof (join_split "," url) as Hjoin.
  destruct (split "," url) as [|h [|d rest]]; try reflexivity.
  cbn [nth_error falsy_string].
  destruct (String.eqb h "") eqn:Hh; [reflexivity|].
  destruct (String.eqb d "") eqn:Hd; [reflexivity|].
  exfalso. apply Hbad. exists h, (join "," (d :: rest)).
  apply String.eqb_neq in Hh, Hd.
  split; [|split; [exact Hh | now apply join_head_not_empty]].
  rewrite <- Hjoin. reflexivity.
Qed.

Section FinalizationFacts.
Context {E : Environment}.

Lemma getMockupPrompts_length (pt : ProductType) (concept : ProductConcept)
  (holiday : string) : List.length (getMockupPrompts pt concept holiday) = 12%nat.
Proof. unfold getMockupPrompts. rewrite length_map. reflexivity. Qed.

Lemma images_of_length (rs : list GenerateContentResponse) :
  List.length (images_of rs) = List.length (filter extractable rs).
Proof.
  induction rs as [|r rs IH]; [reflexivity|].
  change (images_of (r :: rs))
    with (List.app match extract_image r with
                   | Ok (Some bytes) => ["data:image/jpeg;base64," ++ bytes]
                   | _ => []
                   end (images_of rs)).
  cbn [filter]. unfold extractable at 1.
  destruct (extract_image r) as [[bytes|]|e]; cbn [app List.length]; now rewrite IH.
Qed.

(** C2. When the collaborator answers the requests of the twelve scene
    templates, sent in template order, with the responses [rs], of which
    [K] hold an image, and the first candidate of every response has its
    content, the stage returns the [K] images in the order of their
    templates, and it fails with the error on no mockups exactly when [K]
    is 0. When a response has a first candidate without content, the
    template is not skipped: the read of its parts throws, and the stage
    fails with that [TypeError], whatever [K] is. *)
Theorem mockup_batch_returns_extracted (url : string) (concept : ProductConcept)
  (holiday : string) (pt : ProductType) (onProgress : option Callback) (st : St)
  (response : GenerateContentResponse) (w1 w2 : World) (copy : ListingCopy)
  (part : InlineData) (rs : list GenerateContentResponse) :
  quiet_opt onProgress ->
  executor_on (listingCopyRequest concept) (world st) = (Ok response, w1) ->
  JSON_parse (trim (response_text response)) = Ok copy ->
  base64ToPart url = Ok part ->
  answers (map (mockupRequest part) (getMockupPrompts pt concept holiday)) w1 =
    Some (rs, w2) ->
  let K := List.length (filter extractable rs) in
  let result := fst (generateFinalAssets url concept holiday pt onProgress st) in
  List.length (getMockupPrompts pt concept holiday) = 12%nat /\
  List.length rs = 12%nat /\
  (K <= 12)%nat /\
  List.length (images_of rs) = K /\
  (forallb readable rs = true ->
   (K <> 0%nat ->
    result = Ok {| fa_mockups := images_of rs; fa_listingCopy := copy |}) /\
   (result = Throw (new_Error "No mockups were generated.") <-> K = 0%nat)) /\
  (forallb readable rs = false -> result = Throw no_content_error).
Proof.
  intros Hq Hcopy Hparse Hpart Hans K result.
  assert (Hlen : List.length rs = 12%nat).
  { rewrite (answers_length _ _ _ _ Hans), length_map. apply getMockupPrompts_length. }
  split; [apply getMockupPrompts_length|]. split; [exact Hlen|].
  split; [subst K; rewrite <- Hlen; apply filter_length_le|].
  split; [apply images_of_length|].
  destruct (generateFinalAssets_spec url concept holiday pt onProgress st Hq)
    as (copy_evs & _ & Hspec).
  cbv zeta in Hspec. rewrite Hcopy, Hparse, Hpart, Hans in Hspec.
  split; intros Hread; rewrite Hread in Hspec.
  - destruct Hspec as (blocks & u & _ & Hrun).
    subst result. rewrite Hrun, images_of_length. fold K.
    destruct K as [|K']; simpl.
    + split; [intros H; now contradiction H | split; reflexivity].
    + split; [reflexivity|]. split; [discriminate | intros H; discriminate H].
  - destruct Hspec as (st' & Hrun). subst result. now rewrite Hrun.
Qed.

(** C10. A design URL with no comma between a header and data, both not
    empty, makes the finalization of its design fail; once the listing copy
    has come back, the error is the one on the format of the URL, and by
    then the request for the listing copy is in the trace and no request
    for a mockup is. *)
Theorem invalid_url_fails_after_listing_copy (url : string) (concept : ProductConcept)
  (holiday : string) (pt : ProductType) (onProgress : option Callback) (st : St) :
  BadUrl url ->
  quiet_opt onProgress ->
  (exists e, fst (generateFinalAssets url concept holiday pt onProgress st) = Throw e) /\
  forall (response : GenerateContentResponse) (w1 : World) (copy : ListingCopy),
    executor_on (listingCopyRequest concept) (world st) = (Ok response, w1) ->
    JSON_parse (trim (response_text response)) = Ok copy ->
    exists (copy_evs : list Event) (u : AppState),
      call_block (listingCopyRequest concept) copy_evs /\
      generateFinalAssets url concept holiday pt onProgress st =
      (Throw (new_Error "Invalid base64 data URL format."),
       {| world := w1;
          trace := trace st ++ report onProgress 0 13 ++ copy_evs ++
                   report onProgress 1 13 ++
                   [EvConsoleError "Error generating final assets:"
                      (new_Error "Invalid base64 data URL format.")];
          ui := u |}).
Proof.
  intros Hbad Hq.
  destruct (generateFinalAssets_spec url concept holiday pt onProgress st Hq)
    as (copy_evs & Hblock & Hspec).
  cbv zeta in Hspec. rewrite (base64ToPart_bad url Hbad) in Hspec.
  rewrite getMockupPrompts_length in Hspec. change (Z.of_nat 12 + 1) with 13 in Hspec.
  split.
  - destruct (executor_on (listingCopyRequest concept) (world st)) as [[response|e] w1].
    + destruct (JSON_parse (trim (response_text response))) as [copy|e];
        destruct Hspec as [u Hrun]; eexists; rewrite Hrun; reflexivity.
    + destruct Hspec as [u Hrun]; eexists; rewrite Hrun; reflexivity.
  - intros response w1 copy Hcopy Hparse. rewrite Hcopy, Hparse in Hspec.
    destruct Hspec as [u Hrun]. exists copy_evs, u. split; [exact Hblock|].
    rewrite Hrun. unfold invalid_url. rewrite <- !app_assoc. reflexivity.
Qed.

End FinalizationFacts.

(* ===================================================================== *)
(** * What the stages leave of the React state *)
(* ===================================================================== *)

Section Frames.
Context {E : Environment}.

Lemma same_but_message_refl (u : AppState) : same_but_message u u.
Proof. repeat split. Qed.

Lemma same_but_message_trans (u1 u2 u3 : AppState) :
  same_but_message u1 u2 -> same_but_message u2 u3 -> same_but_message u1 u3.
Proof. unfold same_but_message. intuition congruence. Qed.

Lemma frames_ret {A} (a : A) : frames (ret a).
Proof. intros st. apply same_but_message_refl. Qed.

Lemma frames_throw {A} (e : JsError) : frames (@throw _ A e).
Proof. intros st. apply same_but_message_refl. Qed.

Lemma frames_log (ev : Event) : frames (log ev).
Proof. intros st. apply same_but_message_refl. Qed.

Lemma frames_settle {A} (o : Outcome A) : frames (fun st : St => (o, st)).
Proof. intros st. apply same_but_message_refl. Qed.

Lemma frames_bind {A B} (c : M A) (k : A -> M B) :
  frames c -> (forall a, frames (k a)) -> frames (bind c k).
Proof.
  intros Hc Hk st. unfold bind. specialize (Hc st).
  destruct (c st) as [[a|e] st1]; simpl in *; [|exact Hc].
  eapply same_but_message_trans; [exact Hc | apply Hk].
Qed.

Lemma frames_try_catch {A} (body : M A) (handler : JsError -> M A) :
  frames body -> (forall e, frames (handler e)) -> frames (try_catch body handler).
Proof.
  intros Hb Hh st. unfold try_catch. specialize (Hb st).
  destruct (body st) as [[a|e] st1]; simpl in *; [exact Hb|].
  eapply same_but_message_trans; [exact Hb | apply Hh].
Qed.

Lemma frames_setLoadingMessage (msg : string) : frames (setLoadingMessage msg).
Proof. intros st. repeat split. Qed.

Lemma frames_executor (req : GenRequest) :
  frames (withRetry (ai_models_generateContent req) None None).
Proof.
  intros st. destruct (executor_call req st) as (evs & _ & Hcall).
  rewrite Hcall. apply same_but_message_refl.
Qed.

Lemma frames_generateListingCopy (concept : ProductConcept) :
  frames (generateListingCopy concept).
Proof.
  unfold generateListingCopy. apply frames_try_catch.
  - apply frames_bind; [apply frames_executor | intros r; apply frames_settle].
  - intros e. apply frames_bind; [apply frames_log | intros _; apply frames_throw].
Qed.

Lemma frames_forgeCallback (overall : string) (p t : Z) :
  frames (call_onProgress (Some (forgeCallback overall)) p t).
Proof.
  simpl. apply frames_bind; [apply frames_log|].
  intros _. unfold forgeCallback. apply frames_setLoadingMessage.
Qed.

Lemma frames_mockup_loop (part : InlineData) (overall : string) (totalSteps total : Z)
  (prompts : list string) :
  forall i urls,
    frames (mockup_loop part (Some (forgeCallback overall)) totalSteps total prompts i urls).
Proof.
  induction prompts as [|prompt rest IH]; intros i urls; cbn [mockup_loop].
  - apply frames_ret.
  - apply frames_bind; [apply frames_forgeCallback | intros _].
    apply frames_bind; [apply frames_executor | intros r].
    apply frames_bind; [apply frames_settle | intros urls'].
    apply frames_bind; [|intros _; apply IH].
    destruct (i <? total - 1); [apply frames_log | apply frames_ret].
Qed.

Lemma frames_generateFinalAssets (url : string) (concept : ProductConcept)
  (holiday : string) (pt : ProductType) (overall : string) :
  frames (generateFinalAssets url concept holiday pt (Some (forgeCallback overall))).
Proof.
  unfold generateFinalAssets. apply frames_try_catch.
  - cbv zeta.
    apply frames_bind; [apply frames_forgeCallback | intros _].
    apply frames_bind; [apply frames_generateListingCopy | intros copy].
    apply frames_bind; [apply frames_forgeCallback | intros _].
    apply frames_bind; [apply frames_settle | intros part].
    apply frames_bind; [apply frames_mockup_loop | intros urls].
    destruct (Nat.eqb _ 0); [apply frames_throw | apply frames_ret].
  - intros e. apply frames_bind; [apply frames_log | intros _; apply frames_throw].
Qed.

Lemma frames_forge_loop (holiday : string) (n : Z) (designs : list DesignItem) :
  forall i acc, frames (forge_loop holiday n designs i acc).
Proof.
  induction designs as [|d rest IH]; intros i acc; cbn [forge_loop].
  - apply frames_ret.
  - apply frames_bind; [apply frames_setLoadingMessage | intros _].
    apply frames_bind; [apply frames_generateFinalAssets | intros assets].
    apply IH.
Qed.

Lemma quiet_forgeCallback (overall : string) : quiet (forgeCallback overall).
Proof. intros p t st. eexists. reflexivity. Qed.

End Frames.

(* ===================================================================== *)
(** * The finalization of a batch *)
(* ===================================================================== *)

Section BatchFacts.
Context {E : Environment}.

Lemma forge_loop_cons (h : string) (n : Z) (d : DesignItem) (rest : list DesignItem)
  (k : nat) (acc : list FinalizedProduct) (st : St) :
  forge_loop h n (d :: rest) (Z.of_nat k) acc st =
  match forge_step h n k d st with
  | (Ok assets, st1) =>
      forge_loop h n rest (Z.of_nat (S k)) (acc ++ [product_from d assets]) st1
  | (Throw e, st1) => (Throw e, st1)
  end.
Proof.
  cbn [forge_loop]. unfold forge_step, bind.
  destruct (setLoadingMessage _ st) as [[[]|e] st0]; [|reflexivity].
  destruct (generateFinalAssets _ _ _ _ _ st0) as [[assets|e] st1]; [|reflexivity].
  replace (Z.of_nat k + 1) with (Z.of_nat (S k)) by lia. reflexivity.
Qed.

(** The loop either finalizes every design, in order, or stops at the
    first design whose finalization fails. *)
Lemma batch_start_eq (st : St) :
  world (batch_start st) = world st /\ trace (batch_start st) = trace st /\
  step (ui (batch_start st)) = step (ui st) /\
  error (ui (batch_start st)) = None /\
  finalizedProducts (ui (batch_start st)) = [].
Proof. repeat split. Qed.

(** The handler over a batch that is not empty is the guarded loop, run from
    the state the first three updates leave. *)
Lemma handleForgeAssets_run (singleDesign : option DesignItem) (st : St) :
  let designs := match singleDesign with
                 | Some d => [d]
                 | None => selectedDesigns (ui st)
                 end in
  designs <> [] ->
  handleForgeAssets singleDesign st =
  try_finally
    (try_catch
       (allFinalAssets <- forge_loop (holiday (ui st)) (Z.of_nat (List.length designs))
                            designs 0 [] ;;
        setFinalizedProducts (fun _ => allFinalAssets) ;;
        setStep FINALIZE)
       handleApiError)
    (setIsLoading false) (batch_start st).
Proof.
  intros designs Hne.
  unfold handleForgeAssets, bind at 1, get_ui. fold designs.
  destruct designs; [contradiction|]. reflexivity.
Qed.

(** A batch that ends with no error shown has finalized every design. *)
Lemma finalized_batch_run (singleDesign : option DesignItem) (st : St) :
  let designs := match singleDesign with
                 | Some d => [d]
                 | None => selectedDesigns (ui st)
                 end in
  designs <> [] ->
  error (ui (snd (handleForgeAssets singleDesign st))) = None ->
  exists products st1,
    forge_loop (holiday (ui st)) (Z.of_nat (List.length designs)) designs 0 []
      (batch_start st) = (Ok products, st1) /\
    trace (snd (handleForgeAssets singleDesign st)) = trace st1.
Proof.
  intros designs Hne. rewrite (handleForgeAssets_run singleDesign st Hne). fold designs.
  remember (try_finally _ _ (batch_start st)) as res eqn:Hres.
  unfold try_finally, try_catch, bind at 1 in Hres.
  destruct (forge_loop _ _ designs 0 [] (batch_start st)) as [[products|e] st1].
  - intros _. exists products, st1. split; [reflexivity|]. subst res. reflexivity.
  - subst res. simpl. discriminate.
Qed.

(** The loop over the designs finalizes them in order, to the end or to the
    first that fails. *)
Lemma forge_loop_in_order (h : string) (n : Z) :
  forall (designs : list DesignItem) (k : nat) (acc : list FinalizedProduct) (st : St),
    (exists products st',
       finalized_in_order h n k designs st products st' /\
       forge_loop h n designs (Z.of_nat k) acc st = (Ok (acc ++ products)%list, st'))
    \/
    (exists pre d post products st_mid e stf,
       designs = (pre ++ d :: post)%list /\
       finalized_in_order h n k pre st products st_mid /\
       forge_step h n (k + List.length pre) d st_mid = (Throw e, stf) /\
       forge_loop h n designs (Z.of_nat k) acc st = (Throw e, stf)).
Proof.
  induction designs as [|d rest IH]; intros k acc st.
  - left. exists [], st. rewrite app_nil_r. split; [constructor | reflexivity].
  - rewrite forge_loop_cons.
    destruct (forge_step h n k d st) as [[assets|e] st1] eqn:Hstep.
    + destruct (IH (S k) (acc ++ [product_from d assets])%list st1)
        as [(products & st' & Hchain & Hloop)
           | (pre & d' & post & products & st_mid & e & stf & Hd & Hchain & Hfail & Hloop)].
      * left. exists (product_from d assets :: products), st'.
        rewrite <- app_assoc in Hloop. split; [|exact Hloop].
        apply finalized_next with (st1 := st1); [exact Hstep | exact Hchain].
      * right. exists (d :: pre), d', post, (product_from d assets :: products), st_mid, e, stf.
        subst rest. split; [reflexivity|].
        split; [apply finalized_next with (st1 := st1); [exact Hstep | exact Hchain]|].
        split; [|exact Hloop].
        replace (k + List.length (d :: pre))%nat with (S k + List.length pre)%nat
          by (simpl; lia).
        exact Hfail.
    + right. exists [], d, rest, [], st, e, st1.
      rewrite Nat.add_0_r. split; [reflexivity|]. split; [constructor|].
      split; [exact Hstep | reflexivity].
Qed.

(** C4. The designs of a batch are finalized in the order of the input,
    each from the state the one before has left. When none fails, the
    list of finalized products holds the product of every design, in
    order, with the mockups and the listing copy its finalization returned.
    When the finalization of one of them fails, the handler stops there:
    the collaborators and the trace are left as that failure left them, no
    later design is started, the products of the designs finalized before
    are dropped, the list of finalized products is empty and the error of
    the failure is shown. *)
Theorem batch_all_or_nothing (singleDesign : option DesignItem) (st : St) :
  let designs := match singleDesign with
                 | Some d => [d]
                 | None => selectedDesigns (ui st)
                 end in
  let n := Z.of_nat (List.length designs) in
  let st' := snd (handleForgeAssets singleDesign st) in
  designs <> [] ->
  (exists products st1,
     finalized_in_order (holiday (ui st)) n 0 designs (batch_start st) products st1 /\
     Forall2 built_from designs products /\
     world st' = world st1 /\ trace st' = trace st1 /\
     finalizedProducts (ui st') = products /\
     error (ui st') = None /\
     step (ui st') = FINALIZE)
  \/
  (exists pre d post products st_mid e stf,
     designs = (pre ++ d :: post)%list /\
     finalized_in_order (holiday (ui st)) n 0 pre (batch_start st) products st_mid /\
     Forall2 built_from pre products /\
     forge_step (holiday (ui st)) n (List.length pre) d st_mid = (Throw e, stf) /\
     world st' = world stf /\ trace st' = trace stf /\
     finalizedProducts (ui st') = [] /\
     error (ui st') = Some (shown_message e) /\
     step (ui st') = step (ui st)).
Proof.
  intros designs n st' Hne.
  subst st'. rewrite (handleForgeAssets_run singleDesign st Hne). fold designs. fold n.
  pose proof (frames_forge_loop (holiday (ui st)) n designs 0 [] (batch_start st))
    as Hframe.
  destruct (batch_start_eq st) as (Hw0 & Ht0 & Hs0 & He0 & Hf0).
  assert (Hbuilt : forall k ds s ps s',
            finalized_in_order (holiday (ui st)) n k ds s ps s' -> Forall2 built_from ds ps).
  { intros k ds s ps s' H. induction H; constructor; [repeat split | assumption]. }
  destruct (forge_loop_in_order (holiday (ui st)) n designs 0%nat [] (batch_start st))
    as [(products & st1 & Hchain & Hloop)
       | (pre & d & post & products & st_mid & e & stf & Hd & Hchain & Hfail & Hloop)];
    change (Z.of_nat 0) with 0 in *; cbn [app] in *; rewrite Hloop in Hframe;
    destruct Hframe as (Hstep & _ & Herr & _ & _ & _ & _ & Hfin & _); simpl snd in *.
  - left. exists products, st1. split; [exact Hchain|].
    split; [exact (Hbuilt _ _ _ _ _ Hchain)|].
    match goal with |- context [try_finally ?b ?f ?s] =>
      remember (try_finally b f s) as res eqn:Hres end.
    unfold try_finally, try_catch, bind at 1 in Hres. rewrite Hloop in Hres.
    simpl in Hres. subst res. simpl. repeat split. congruence.
  - right. exists pre, d, post, products, st_mid, e, stf.
    split; [exact Hd|]. split; [exact Hchain|].
    split; [exact (Hbuilt _ _ _ _ _ Hchain)|].
    split; [exact Hfail|].
    match goal with |- context [try_finally ?b ?f ?s] =>
      remember (try_finally b f s) as res eqn:Hres end.
    unfold try_finally, try_catch, bind at 1 in Hres. rewrite Hloop in Hres.
    simpl in Hres. subst res. simpl. repeat split; congruence.
Qed.

End BatchFacts.

(* ===================================================================== *)
(** * The reports of progress *)
(* ===================================================================== *)

Section ProgressFacts.
Context {E : Environment}.

Lemma progress_of_app (l1 l2 : list Event) :
  progress_of (l1 ++ l2) = (progress_of l1 ++ progress_of l2)%list.
Proof. unfold progress_of. apply flat_map_app. Qed.

Lemma call_block_no_progress (req : GenRequest) (evs : list Event) :
  call_block req evs -> progress_of evs = [].
Proof.
  intros [_ Hall]. induction Hall as [|ev evs [Hp _] _ IH]; [reflexivity|].
  change (ev :: evs) with ([ev] ++ evs)%list. rewrite progress_of_app, IH.
  destruct ev; try discriminate Hp; reflexivity.
Qed.

Lemma blocks_progress (part : InlineData) (prompts : list string) (blocks : list (list Event)) :
  Forall2 (fun prompt block => call_block (mockupRequest part prompt) block) prompts blocks ->
  forall k : nat,
    progress_of (List.concat (map (fun ib : nat * list Event =>
                                     EvProgress (Z.of_nat (fst ib) + 2) 13 :: snd ib)
                                  (indexed k blocks))) =
    map (fun j => (Z.of_nat j + 2, 13)) (seq k (List.length blocks)).
Proof.
  induction 1 as [|prompt block prompts blocks Hb _ IH]; intros k; [reflexivity|].
  cbn [indexed map List.concat fst snd List.length seq].
  change (EvProgress (Z.of_nat k + 2) 13 :: block)
    with ([EvProgress (Z.of_nat k + 2) 13] ++ block)%list.
  rewrite !progress_of_app, (call_block_no_progress _ _ Hb), IH. reflexivity.
Qed.

(** The reports of a design that is finalized run from [(0, 13)] to
    [(13, 13)]. *)
Lemma tuple_trace_progress (h : string) (d : DesignItem) (evs : list Event) :
  tuple_trace h d evs -> progress_of evs = tuple_reports.
Proof.
  intros (part & copy_evs & blocks & _ & Hcopy & Hblocks & ->).
  rewrite !progress_of_app, (call_block_no_progress _ _ Hcopy),
    (blocks_progress _ _ _ Hblocks).
  rewrite <- (Forall2_length Hblocks), getMockupPrompts_length. reflexivity.
Qed.

Lemma forge_step_trace (h : string) (n : Z) (i : nat) (d : DesignItem) (st st1 : St)
  (assets : FinalAssets) :
  forge_step h n i d st = (Ok assets, st1) ->
  exists evs, tuple_trace h d evs /\ trace st1 = (trace st ++ evs)%list.
Proof.
  unfold forge_step, bind. cbn [setLoadingMessage modify_ui].
  set (cb := forgeCallback _). set (st0 := mkSt _ _ _).
  intros Hrun.
  assert (Hq : quiet_opt (Some cb)).
  { intros cb' [= <-]. apply quiet_forgeCallback. }
  destruct (generateFinalAssets_spec (di_url d) (di_concept d) h (di_productType d)
              (Some cb) st0 Hq) as (copy_evs & Hcopy & Hspec).
  cbv zeta in Hspec. rewrite Hrun in Hspec.
  rewrite getMockupPrompts_length in Hspec. change (Z.of_nat 12 + 1) with 13 in Hspec.
  destruct (executor_on _ (world st0)) as [[response|e] w1];
    [|destruct Hspec as [u H]; discriminate H].
  destruct (JSON_parse _) as [copy|e]; [|destruct Hspec as [u H]; discriminate H].
  destruct (base64ToPart (di_url d)) as [part|e] eqn:Hpart;
    [|destruct Hspec as [u H]; discriminate H].
  destruct (answers _ w1) as [[rs w2]|]; [|destruct Hspec as (e & st' & H); discriminate H].
  destruct (forallb readable rs); [|destruct Hspec as (st' & H); discriminate H].
  destruct Hspec as (blocks & u & Hblocks & H).
  destruct (Nat.eqb _ 0); [discriminate H|].
  injection H as _ ->.
  eexists. split.
  - exists part, copy_evs, blocks. repeat split; [exact Hpart | apply Hcopy | apply Hcopy | exact Hblocks].
  - subst st0. cbn [trace report]. rewrite <- !app_assoc. reflexivity.
Qed.

Lemma forge_loop_trace (h : string) (n : Z) :
  forall (designs : list DesignItem) (k : nat) (acc products : list FinalizedProduct)
         (st st' : St),
    forge_loop h n designs (Z.of_nat k) acc st = (Ok products, st') ->
    exists tuples : list (list Event),
      Forall2 (tuple_trace h) designs tuples /\
      trace st' = (trace st ++ List.concat tuples)%list.
Proof.
  induction designs as [|d rest IH]; intros k acc products st st' Hloop.
  - injection Hloop as _ <-. exists []. split; [constructor | now rewrite app_nil_r].
  - rewrite forge_loop_cons in Hloop.
    destruct (forge_step h n k d st) as [[assets|e] st1] eqn:Hstep; [|discriminate Hloop].
    destruct (forge_step_trace _ _ _ _ _ _ _ Hstep) as (evs & Hevs & Htr).
    destruct (IH _ _ _ _ _ Hloop) as (tuples & HF & Htr').
    exists (evs :: tuples). split; [constructor; assumption|].
    rewrite Htr', Htr. cbn [List.concat]. now rewrite app_assoc.
Qed.

Lemma repeat_reports (h : string) (designs : list DesignItem) (tuples : list (list Event)) :
  Forall2 (tuple_trace h) designs tuples ->
  progress_of (List.concat tuples) =
  List.concat (repeat tuple_reports (List.length designs)).
Proof.
  induction 1 as [|d evs designs tuples Hd _ IH]; [reflexivity|].
  cbn [List.concat List.length repeat].
  now rewrite progress_of_app, (tuple_trace_progress _ _ _ Hd), IH.
Qed.

(** C3, as the code has it. Over a batch that the handler finalizes to the
    end, the progress callback receives, for each design in turn, the
    reports [(0, 13)], [(1, 13)], up to [(13, 13)]: the total is 1 plus the
    12 scenes whatever the size of the batch, and the counter starts again
    at 0 with each design. The report 1 follows the request for the listing
    copy, and the report [i + 2] comes before the request for the scene
    number [i]. *)
Theorem progress_restarts_with_each_design (singleDesign : option DesignItem) (st : St) :
  let designs := match singleDesign with
                 | Some d => [d]
                 | None => selectedDesigns (ui st)
                 end in
  let st' := snd (handleForgeAssets singleDesign st) in
  designs <> [] ->
  error (ui st') = None ->
  exists tuples : list (list Event),
    Forall2 (tuple_trace (holiday (ui st))) designs tuples /\
    trace st' = (trace st ++ List.concat tuples)%list /\
    progress_of (List.concat tuples) =
    List.concat (repeat tuple_reports (List.length designs)).
Proof.
  intros designs st' Hne Herr.
  destruct (finalized_batch_run singleDesign st Hne Herr) as (products & st1 & Hloop & Htr).
  destruct (forge_loop_trace _ _ _ 0%nat _ _ _ _ Hloop) as (tuples & HF & Htr1).
  exists tuples. split; [exact HF|]. split.
  - subst st'. rewrite Htr, Htr1. reflexivity.
  - eapply repeat_reports, HF.
Qed.

End ProgressFacts.

(* ===================================================================== *)
(** * The publish stage *)
(* ===================================================================== *)

Section PublishFacts.
Context {E : Environment}.

Lemma handlePrintifyPublish_eq (product : FinalizedProduct) (st : St) :
  printifyToken (ui st) <> "" ->
  handlePrintifyPublish product st =
  try_finally (try_catch (publish_body (printifyToken (ui st)) product) handleApiError)
    (setIsLoading false) (publish_start st).
Proof.
  intros Htok. apply String.eqb_neq in Htok.
  unfold handlePrintifyPublish, bind at 1, get_ui. rewrite Htok. reflexivity.
Qed.

Lemma getPrintifyShop_result (token : string) (st : St) :
  getPrintifyShop token st =
  (shop_result (fst (fetch_shops token (world st))),
   {| world := snd (fetch_shops token (world st));
      trace := trace st ++ [EvFetch (GetShops token)]; ui := ui st |}).
Proof.
  unfold getPrintifyShop, bind. rewrite remote_eq.
  destruct (fetch_shops token (world st)) as [[[[[|first rest]|e]|body]|e] w]; reflexivity.
Qed.

Lemma uploadImageToPrintify_result (token base64Image fileName : string) (st : St) :
  uploadImageToPrintify token base64Image fileName st =
  (upload_result (fst (fetch_upload token fileName (cleanBase64 base64Image) (world st))),
   {| world := snd (fetch_upload token fileName (cleanBase64 base64Image) (world st));
      trace := trace st ++ [EvFetch (PostUpload token fileName (cleanBase64 base64Image))];
      ui := ui st |}).
Proof.
  unfold uploadImageToPrintify, bind. rewrite remote_eq.
  destruct (fetch_upload token fileName (cleanBase64 base64Image) (world st))
    as [[[[data|e]|[body|e]]|e] w]; reflexivity.
Qed.

Lemma createPrintifyProduct_result (token shopId : string) (pt : ProductType)
  (imageId : string) (copy : ListingCopy) (st : St) :
  createPrintifyProduct token shopId pt imageId copy st =
  (product_result (fst (fetch_product token shopId (productPayload pt imageId copy)
                          (world st))),
   {| world := snd (fetch_product token shopId (productPayload pt imageId copy) (world st));
      trace := trace st ++
               [EvFetch (PostProduct token shopId (productPayload pt imageId copy))];
      ui := ui st |}).
Proof.
  unfold createPrintifyProduct, bind. cbv zeta. rewrite remote_eq.
  destruct (fetch_product token shopId (productPayload pt imageId copy) (world st))
    as [[[[data|e]|[body|e]]|e] w]; reflexivity.
Qed.

(** The publish, call by call, against the answers of the commerce
    service. *)
Lemma handlePrintifyPublish_calls (product : FinalizedProduct) (st : St) :
  printifyToken (ui st) <> "" ->
  let token := printifyToken (ui st) in
  let file := safe_name (conceptTitle (concept product)) ++ ".png" in
  let contents := cleanBase64 (designUrl product) in
  let run := handlePrintifyPublish product st in
  let ends (calls : list HttpRequest) (w : World) (answer : Outcome PrintifyProductResponse) :=
    fst run = Ok tt /\
    world (snd run) = w /\
    trace (snd run) = (trace st ++ map EvFetch calls)%list /\
    publish_shows product answer (ui st) (ui (snd run)) in
  let (shops, w1) := fetch_shops token (world st) in
  match shop_result shops with
  | Throw e => ends [GetShops token] w1 (Throw e)
  | Ok shop =>
      let (upload, w2) := fetch_upload token file contents w1 in
      match upload_result upload with
      | Throw e => ends [GetShops token; PostUpload token file contents] w2 (Throw e)
      | Ok imageId =>
          let payload := productPayload (productType product) imageId (listingCopy product) in
          let (created, w3) := fetch_product token (shop_id shop) payload w2 in
          ends [GetShops token; PostUpload token file contents;
                PostProduct token (shop_id shop) payload] w3 (product_result created)
      end
  end.
Proof.
  intros Htok token file contents run ends. subst ends run.
  rewrite (handlePrintifyPublish_eq _ _ Htok). fold token.
  remember (try_finally _ _ (publish_start st)) as res eqn:Hres.
  unfold try_finally, try_catch, publish_body in Hres.
  unfold bind at 1 in Hres. rewrite getPrintifyShop_result in Hres.
  change (world (publish_start st)) with (world st) in Hres.
  destruct (fetch_shops token (world st)) as [shops w1]. cbn [fst snd] in Hres.
  destruct (shop_result shops) as [shop|e].
  2:{ subst res. cbn. repeat split. }
  unfold bind at 1 in Hres. cbn [setLoadingMessage modify_ui] in Hres.
  cbv beta iota zeta in Hres. unfold bind at 1 in Hres.
  rewrite uploadImageToPrintify_result in Hres. cbn [world] in Hres.
  fold file contents in Hres.
  destruct (fetch_upload token file contents w1) as [upload w2]. cbn [fst snd] in Hres.
  destruct (upload_result upload) as [imageId|e].
  2:{ subst res. cbn. rewrite <- app_assoc. repeat split. }
  unfold bind at 1 in Hres. cbn [setLoadingMessage modify_ui] in Hres.
  cbv beta iota zeta in Hres. unfold bind at 1 in Hres.
  rewrite createPrintifyProduct_result in Hres. cbn [world] in Hres. cbv zeta.
  destruct (fetch_product token (shop_id shop) _ w2) as [created w3]. cbn [fst snd] in Hres.
  destruct (product_result created) as [published|e];
    subst res; cbn; rewrite <- !app_assoc; repeat split.
Qed.

(** C5, as the code has it. The three calls of a publish go to the commerce
    service directly, not through the executor: each is made once at most,
    in the order shop, upload, product. A call that fails, with an error
    that is transient for the executor or with any other, is not made
    again and is the last call of the publish, which ends there with the
    error of that call shown; when the three succeed no error is shown. *)
Theorem publish_calls_are_made_once (product : FinalizedProduct) (st : St) :
  printifyToken (ui st) <> "" ->
  let token := printifyToken (ui st) in
  let file := safe_name (conceptTitle (concept product)) ++ ".png" in
  let contents := cleanBase64 (designUrl product) in
  let st' := snd (handlePrintifyPublish product st) in
  let ends (calls : list HttpRequest) (w : World) (shown : option JsVal) :=
    world st' = w /\
    trace st' = (trace st ++ map EvFetch calls)%list /\
    error (ui st') = shown in
  let (shops, w1) := fetch_shops token (world st) in
  match shop_result shops with
  | Throw e => ends [GetShops token] w1 (Some (shown_message e))
  | Ok shop =>
      let (upload, w2) := fetch_upload token file contents w1 in
      match upload_result upload with
      | Throw e =>
          ends [GetShops token; PostUpload token file contents] w2 (Some (shown_message e))
      | Ok imageId =>
          let payload := productPayload (productType product) imageId (listingCopy product) in
          let (created, w3) := fetch_product token (shop_id shop) payload w2 in
          ends [GetShops token; PostUpload token file contents;
                PostProduct token (shop_id shop) payload] w3
            match product_result created with
            | Throw e => Some (shown_message e)
            | Ok _ => None
            end
      end
  end.
Proof.
  intros Htok token file contents st' ends. subst ends st'.
  pose proof (handlePrintifyPublish_calls product st Htok) as H.
  cbv zeta in H. fold token file contents in H. cbv zeta.
  destruct (fetch_shops token (world st)) as [shops w1].
  destruct (shop_result shops) as [shop|e].
  2:{ destruct H as (_ & Hw & Htr & _ & _ & _ & _ & _ & _ & Herr & _). now repeat split. }
  destruct (fetch_upload token file contents w1) as [upload w2].
  destruct (upload_result upload) as [imageId|e].
  2:{ destruct H as (_ & Hw & Htr & _ & _ & _ & _ & _ & _ & Herr & _). now repeat split. }
  destruct (fetch_product token (shop_id shop) _ w2) as [created w3].
  destruct H as (_ & Hw & Htr & _ & _ & _ & _ & _ & _ & Hshown).
  split; [exact Hw|]. split; [exact Htr|].
  destruct (product_result created) as [published|e]; now destruct Hshown.
Qed.

(** C9. After a publish that succeeds, every finalized product whose
    concept has the title of the published one carries the identifier of
    the new listing, be it the product handed to the publish or another;
    the products under other titles and every other field are as
    before. *)
Theorem publish_marks_every_product_of_the_title (product : FinalizedProduct) (st : St)
  (shop : PrintifyShop) (others : list PrintifyShop) (data : PrintifyImageUploadResponse)
  (published : PrintifyProductResponse) (w1 w2 w3 : World) :
  printifyToken (ui st) <> "" ->
  fetch_shops (printifyToken (ui st)) (world st) = (Ok (HttpOk (Ok (shop :: others))), w1) ->
  fetch_upload (printifyToken (ui st))
    (safe_name (conceptTitle (concept product)) ++ ".png")
    (cleanBase64 (designUrl product)) w1 = (Ok (HttpOk (Ok data)), w2) ->
  fetch_product (printifyToken (ui st)) (shop_id shop)
    (productPayload (productType product) (upload_id data) (listingCopy product)) w2 =
    (Ok (HttpOk (Ok published)), w3) ->
  let before := finalizedProducts (ui st) in
  let after := finalizedProducts (ui (snd (handlePrintifyPublish product st))) in
  List.length after = List.length before /\
  forall (i : nat) (p : FinalizedProduct),
    nth_error before i = Some p ->
    exists p',
      nth_error after i = Some p' /\
      concept p' = concept p /\ designUrl p' = designUrl p /\ mockups p' = mockups p /\
      listingCopy p' = listingCopy p /\ productType p' = productType p /\
      printifyId p' =
        if String.eqb (conceptTitle (concept p)) (conceptTitle (concept product))
        then Some (product_id published)
        else printifyId p.
Proof.
  intros Htok Hshops Hupload Hproduct before after.
  assert (Hafter : after = mark_published product (product_id published) before).
  { subst after before. rewrite (handlePrintifyPublish_eq _ _ Htok).
    unfold try_finally, try_catch, publish_body, getPrintifyShop,
      uploadImageToPrintify, createPrintifyProduct.
    unfold bind at 1. unfold bind at 1. rewrite remote_eq.
    change (world (publish_start st)) with (world st). rewrite Hshops.
    cbn [fst snd settle bind ret].
    unfold bind at 1. cbn [setLoadingMessage modify_ui].
    cbv zeta. unfold bind at 1. unfold bind at 1. rewrite remote_eq.
    cbn [world]. rewrite Hupload. cbn [fst snd settle bind ret].
    unfold bind at 1. cbn [setLoadingMessage modify_ui].
    unfold bind at 1. unfold bind at 1. rewrite remote_eq.
    cbn [world shop_id]. rewrite Hproduct. reflexivity. }
  rewrite Hafter. unfold mark_published. split; [apply length_map|].
  intros i p Hp. rewrite nth_error_map, Hp. cbn [option_map].
  eexists. split; [reflexivity|].
  destruct (String.eqb _ _); repeat split.
Qed.

End PublishFacts.

(* ===================================================================== *)
(** * The properties on the scenarios *)
(* ===================================================================== *)

Lemma quiet_opt_None {E : Environment} : quiet_opt None.
Proof. intros cb H. discriminate H. Defined.

(** Twelve answers of which the fourth has a candidate without content and
    the others hold an image: eleven images could be extracted, and the
    stage fails on the read of the fourth. *)
Lemma mockup_batch_returns_extracted_witness :
  List.length (filter extractable Scenario.blocked_scenes) = 11%nat /\
  fst (@generateFinalAssets Scenario.env_ok (di_url Scenario.design1) Scenario.concept1
         "Christmas" Sweatshirt None Scenario.st_blocked) =
  Throw no_content_error.
Proof.
  split; [reflexivity|].
  destruct (@mockup_batch_returns_extracted Scenario.env_ok
              (di_url Scenario.design1) Scenario.concept1 "Christmas" Sweatshirt None
              Scenario.st_blocked
              Scenario.copyResponse (map Ok Scenario.blocked_scenes) [] Scenario.copy1
              {| mimeType := "image/png"; data := "AAAA" |} Scenario.blocked_scenes)
    as (_ & _ & _ & _ & _ & Hbroken).
  - apply quiet_opt_None.
  - vm_compute. reflexivity.
  - vm_compute. reflexivity.
  - vm_compute. reflexivity.
  - vm_compute. reflexivity.
  - apply Hbroken. reflexivity.
Defined.

(** Two designs: the reports from 0 to 13, twice. *)
Lemma progress_restarts_with_each_design_witness :
  progress_of (trace (snd (@handleForgeAssets Scenario.env_ok None Scenario.st_two))) =
  (tuple_reports ++ tuple_reports)%list.
Proof.
  destruct (@progress_restarts_with_each_design Scenario.env_ok None Scenario.st_two)
    as (tuples & _ & Htr & Hp).
  - discriminate.
  - vm_compute. reflexivity.
  - rewrite Htr. simpl trace. simpl app at 1. rewrite Hp. reflexivity.
Defined.

(** C3, as it is stated, fails. Over a batch of two designs the first report
    is [(0, 13)] and not [(0, 26)], and the counter falls back from 13 to 0
    between the designs; over one design the last request for a scene comes
    after the report [(13, 13)]. *)
Lemma progress_is_not_cumulative :
  ~ claimed_progress 2
      (progress_of (trace (snd (@handleForgeAssets Scenario.env_ok None Scenario.st_two)))) /\
  ~ reports_follow_steps
      (trace (snd (@handleForgeAssets Scenario.env_ok None Scenario.st_one))).
Proof.
  split.
  - intros (Hhd & _). vm_compute in Hhd. discriminate Hhd.
  - intros H.
    set (tr := trace (snd (@handleForgeAssets Scenario.env_ok None Scenario.st_one))) in *.
    specialize (H (firstn 36 tr) (skipn 37 tr) 13).
    assert (Heq : tr = (firstn 36 tr ++ EvProgress 13 13 :: skipn 37 tr)%list)
      by (vm_compute; reflexivity).
    specialize (H Heq). vm_compute in H.
    apply Forall_inv in H. discriminate H.
Qed.

(** Two designs of which the second fails: the first is finalized, the
    failure of the second is shown and nothing is kept, the product of the
    first included. *)
Lemma batch_all_or_nothing_witness :
  finalizedProducts (ui (snd (@handleForgeAssets Scenario.env_ok None
                                Scenario.st_second_fails))) = [] /\
  error (ui (snd (@handleForgeAssets Scenario.env_ok None Scenario.st_second_fails))) =
  Some (JStr "API key not valid.").
Proof.
  destruct (@batch_all_or_nothing Scenario.env_ok None Scenario.st_second_fails)
    as [(products & st1 & _ & _ & _ & _ & _ & Herr & _)
       | (pre & d & post & products & st_mid & e & stf & _ & _ & _ & _ & _ & _ & Hfin & _)].
  - discriminate.
  - exfalso. vm_compute in Herr. discriminate Herr.
  - split; [exact Hfin | vm_compute; reflexivity].
Defined.

(** A publish whose upload is answered 503: two calls, the second is the
    upload, made once, and its error is shown. *)
Lemma publish_calls_are_made_once_witness :
  let st' := snd (@handlePrintifyPublish Scenario.env_upload_503
                    (Scenario.product_of Scenario.design1 ["m"]) Scenario.st_publish_503) in
  trace st' =
    map EvFetch [GetShops "token-1";
                 PostUpload "token-1" "Sleigh_All_Day.png" "AAAA"] /\
  error (ui st') = Some (JStr ("Image upload failed: " ++ Scenario.upload_error_body)).
Proof.
  pose proof (@publish_calls_are_made_once Scenario.env_upload_503
                (Scenario.product_of Scenario.design1 ["m"]) Scenario.st_publish_503) as H.
  assert (Htok : printifyToken (ui Scenario.st_publish_503) <> "") by discriminate.
  specialize (H Htok). cbv zeta in H. cbn in H.
  destruct H as (_ & Htr & Herr). split; [exact Htr | exact Herr].
Defined.

(** C5, as it is stated, fails. The upload is answered 503 with a body whose
    text makes the error transient for the executor, and the publish ends on
    that error after one upload. *)
Lemma publish_is_not_retried :
  ~ publish_retries (snd (@handlePrintifyPublish Scenario.env_upload_503
                            (Scenario.product_of Scenario.design1 ["m"])
                            Scenario.st_publish_503)).
Proof.
  intros H.
  destruct (H ("Image upload failed: " ++ Scenario.upload_error_body))
    as (req & pre & mid & post & Htr).
  - vm_compute. reflexivity.
  - vm_compute. reflexivity.
  - vm_compute in Htr.
    destruct pre as [|a [|b [|c pre]]]; destruct mid as [|a' [|b' mid]];
      simpl in Htr; try discriminate Htr;
      injection Htr; intros; subst; try discriminate;
      match goal with
      | H1 : _ = EvFetch ?r, H2 : _ = EvFetch ?r |- _ => rewrite <- H1 in H2; discriminate H2
      | _ => idtac
      end.
Qed.

(** The design published as a sweatshirt is also on display as a mug: the mug
    carries the identifier too. *)
Lemma publish_marks_every_product_of_the_title_witness :
  exists p',
    nth_error (finalizedProducts
                 (ui (snd (@handlePrintifyPublish Scenario.env_ok
                             (Scenario.product_of Scenario.design1 ["m"])
                             Scenario.st_publish)))) 2 = Some p' /\
    productType p' = Mug /\
    printifyId p' = Some "prod-9".
Proof.
  destruct (@publish_marks_every_product_of_the_title Scenario.env_ok
              (Scenario.product_of Scenario.design1 ["m"]) Scenario.st_publish
              Scenario.shop1 [] Scenario.upload1 Scenario.product1 [] [] [])
    as [_ H].
  - discriminate.
  - reflexivity.
  - reflexivity.
  - reflexivity.
  - destruct (H 2%nat Scenario.as_mug eq_refl) as (p' & Hn & _ & _ & _ & _ & Ht & Hid).
    exists p'. split; [exact Hn|]. split; [exact Ht | exact Hid].
Defined.

Lemma bad_url_AAAA : BadUrl "AAAA".
Proof.
  intros (h & d & Heq & _ & _).
  do 4 (destruct h as [|? h]; simpl in Heq; [discriminate Heq | injection Heq as _ Heq]).
  destruct h; discriminate Heq.
Defined.

(** A design URL with no comma, after the listing copy has come back. *)
Lemma invalid_url_fails_after_listing_copy_witness :
  fst (@generateFinalAssets Scenario.env_ok "AAAA" Scenario.concept1 "Christmas" Mug None
         Scenario.st_copy_only) =
  Throw (new_Error "Invalid base64 data URL format.").
Proof.
  destruct (@invalid_url_fails_after_listing_copy Scenario.env_ok "AAAA" Scenario.concept1
              "Christmas" Mug None Scenario.st_copy_only bad_url_AAAA quiet_opt_None)
    as [_ H].
  destruct (H Scenario.copyResponse [] Scenario.copy1) as (copy_evs & u & _ & Hrun).
  - vm_compute. reflexivity.
  - vm_compute. reflexivity.
  - rewrite Hrun. reflexivity.
Defined.

(* ===================================================================== *)
(** * Further properties of the executor *)
(* ===================================================================== *)

Section ExecutorBounds.
Context {E : Environment}.

Lemma total_wait_app (l1 l2 : list Event) :
  total_wait (l1 ++ l2) = total_wait l1 + total_wait l2.
Proof.
  induction l1 as [|ev l1 IH]; [reflexivity|].
  destruct ev; simpl; rewrite IH; lia.
Qed.

Lemma generate_calls_app (l1 l2 : list Event) :
  generate_calls (l1 ++ l2) = (generate_calls l1 + generate_calls l2)%nat.
Proof.
  induction l1 as [|ev l1 IH]; [reflexivity|].
  destruct ev; simpl; rewrite IH; reflexivity.
Qed.

Lemma retries_wait_and_calls (req : GenRequest) (m d : Z) (es : list JsError) :
  forall r : nat,
    total_wait (flat_map (retry_events (EvGenerateContent req) m d) (indexed r es)) =
      d * (2 ^ Z.of_nat (r + List.length es) - 2 ^ Z.of_nat r) /\
    generate_calls (flat_map (retry_events (EvGenerateContent req) m d) (indexed r es)) =
      List.length es.
Proof.
  induction es as [|e es IH]; intros r.
  - simpl. rewrite Nat.add_0_r. split; [lia | reflexivity].
  - destruct (IH (S r)) as [Hw Hc]. cbn [indexed flat_map List.length].
    rewrite total_wait_app, generate_calls_app, Hw, Hc.
    replace (r + S (List.length es))%nat with (S r + List.length es)%nat by lia.
    unfold retry_events. cbn [fst snd total_wait generate_calls].
    rewrite (Nat2Z.inj_succ r), Z.pow_succ_r by lia.
    split; [lia | reflexivity].
Qed.

(** X1. Around one request the executor makes [k + 1] calls and waits
    [initialDelay * (2 ^ k - 1)] ms in all, for some [k] that is at most
    [maxRetries]: with the defaults, six calls and 62 seconds at the
    worst. *)
Theorem withRetry_worst_case (req : GenRequest) (maxRetries initialDelay : option Z)
  (st : St) :
  0 <= default_to 5 maxRetries ->
  0 <= default_to 2000 initialDelay ->
  exists (evs : list Event) (k : nat),
    trace (snd (withRetry (ai_models_generateContent req) maxRetries initialDelay st)) =
      (trace st ++ evs)%list /\
    Z.of_nat k <= default_to 5 maxRetries /\
    generate_calls evs = S k /\
    total_wait evs = default_to 2000 initialDelay * (2 ^ Z.of_nat k - 1) /\
    total_wait evs <=
      default_to 2000 initialDelay * (2 ^ default_to 5 maxRetries - 1).
Proof.
  intros Hm Hd. unfold ai_models_generateContent.
  destruct (withRetry_spec (EvGenerateContent req) (generateContent req)
              maxRetries initialDelay st Hm)
    as (es & Hle & _ & _ & Htr & _).
  destruct (retries_wait_and_calls req (default_to 5 maxRetries)
              (default_to 2000 initialDelay) es 0) as [Hw Hc].
  eexists. exists (List.length es). split; [exact Htr|].
  split; [exact Hle|].
  rewrite generate_calls_app, total_wait_app, Hw, Hc. cbn.
  split; [lia|]. rewrite Z.add_0_r. split; [reflexivity|].
  apply Z.mul_le_mono_nonneg_l; [exact Hd|].
  apply Z.sub_le_mono_r, Z.pow_le_mono_r; lia.
Qed.

(** X2. With no retry allowed ([maxRetries] is 0 or less) the operation is
    called once: a value is returned, a terminal error is thrown as it is
    and a transient error becomes the error on a busy service at once, with
    no wait. *)
Theorem withRetry_without_budget {T} (ev : Event) (f : World -> Outcome T * World)
  (maxRetries initialDelay : option Z) (st : St) :
  default_to 5 maxRetries <= 0 ->
  withRetry (remote ev f) maxRetries initialDelay st =
  (match fst (f (world st)) with
   | Ok v => Ok v
   | Throw e =>
       if isRetryable e then Throw (new_Error (busy_message (status_of e))) else Throw e
   end,
   {| world := snd (f (world st)); trace := trace st ++ [ev]; ui := ui st |}).
Proof.
  intros Hm. unfold withRetry. rewrite withRetry_loop_step, remote_eq.
  destruct (fst (f (world st))) as [v|e]; [reflexivity|].
  replace (0 <? default_to 5 maxRetries) with false by (symmetry; apply Z.ltb_ge; lia).
  rewrite andb_false_r. destruct (isRetryable e); reflexivity.
Qed.

End ExecutorBounds.

(** Under the defaults: three calls, 2000 + 4000 ms of wait. *)
Lemma withRetry_worst_case_witness :
  exists (evs : list Event) (k : nat),
    trace (snd (@withRetry Scenario.env_ok _
                  (ai_models_generateContent (listingCopyRequest Scenario.concept1))
                  None None
                  (Scenario.state_of Scenario.env_ok Scenario.recovering initial_ui))) = evs /\
    generate_calls evs = S k /\
    total_wait evs <= 62000.
Proof.
  destruct (@withRetry_worst_case Scenario.env_ok (listingCopyRequest Scenario.concept1)
              None None (Scenario.state_of Scenario.env_ok Scenario.recovering initial_ui))
    as (evs & k & Htr & _ & Hc & _ & Hw); [simpl; lia | simpl; lia |].
  exists evs, k. split; [exact Htr|]. split; [exact Hc | exact Hw].
Defined.

(** A single call under [maxRetries = 0]. *)
Lemma withRetry_without_budget_witness :
  fst (@withRetry Scenario.env_ok _
         (ai_models_generateContent (listingCopyRequest Scenario.concept1))
         (Some 0) None
         (Scenario.state_of Scenario.env_ok Scenario.recovering initial_ui)) =
  Throw (new_Error "The AI service is temporarily busy (Error 503). Please try again shortly.").
Proof.
  unfold ai_models_generateContent.
  rewrite (@withRetry_without_budget Scenario.env_ok _ _ _ (Some 0) None); [|simpl; lia].
  reflexivity.
Defined.

(* ===================================================================== *)
(** * Data URLs *)
(* ===================================================================== *)

Lemma split_comma_free (h : string) : comma_free h -> split "," h = [h].
Proof.
  unfold comma_free. induction h as [|c h IH]; intros H; [reflexivity|].
  simpl in H. apply andb_true_iff in H. destruct H as [Hc Hh].
  unfold not_char in Hc. apply negb_true_iff in Hc.
  simpl. rewrite Hc, (IH Hh). reflexivity.
Qed.

Lemma split_at_comma (h s : string) :
  comma_free h -> split "," (h ++ String "," s) = h :: split "," s.
Proof.
  unfold comma_free. induction h as [|c h IH]; intros H; [reflexivity|].
  simpl in H. apply andb_true_iff in H. destruct H as [Hc Hh].
  unfold not_char in Hc. apply negb_true_iff in Hc.
  simpl. rewrite Hc, (IH Hh). reflexivity.
Qed.

Lemma string_app_nil_r (s : string) : s ++ "" = s.
Proof. induction s as [|c s IH]; simpl; [reflexivity | now rewrite IH]. Qed.

Lemma split_two_segments (header data rest : string) :
  comma_free header -> comma_free data ->
  (rest = "" \/ exists tail, rest = String "," tail) ->
  exists more, split "," (header ++ "," ++ data ++ rest) = header :: data :: more.
Proof.
  intros Hch Hcd Hrest.
  change (header ++ "," ++ data ++ rest) with (header ++ String "," (data ++ rest)).
  rewrite (split_at_comma _ _ Hch).
  destruct Hrest as [-> | [tail ->]].
  - exists []. rewrite string_app_nil_r. now rewrite split_comma_free.
  - eexists. now rewrite split_at_comma.
Qed.

(** X3. A URL made of a header, a comma and data, both not empty and free
    of commas, is accepted, whatever follows a second comma: the data of the
    part is what stands between the first comma and the second, and the type
    is read in the header, [image/png] when the header shows none. *)
Theorem base64ToPart_takes_second_segment (header data rest : string) :
  header <> "" -> data <> "" -> comma_free header -> comma_free data ->
  (rest = "" \/ exists tail, rest = String "," tail) ->
  base64ToPart (header ++ "," ++ data ++ rest) =
  Ok {| mimeType := match match_mimeType header with
                    | Some m => m
                    | None => "image/png"
                    end;
        data := data |}.
Proof.
  intros Hh Hd Hch Hcd Hrest. unfold base64ToPart.
  destruct (split_two_segments _ _ _ Hch Hcd Hrest) as [more ->].
  cbn [nth_error falsy_string].
  apply String.eqb_neq in Hh, Hd. rewrite Hh, Hd. reflexivity.
Qed.

Lemma base64ToPart_takes_second_segment_witness :
  base64ToPart "inline,AAAA,BBBB,CCCC" =
  Ok {| mimeType := "image/png"; data := "AAAA" |}.
Proof.
  apply (base64ToPart_takes_second_segment "inline" "AAAA" ",BBBB,CCCC");
    [discriminate | discriminate | reflexivity | reflexivity |].
  right. exists "BBBB,CCCC". reflexivity.
Defined.

Lemma upto_semicolon_app (mime tail : string) :
  all_chars (fun c => not_char ";" c && negb (is_line_terminator c))%bool mime = true ->
  upto_semicolon (mime ++ String ";" tail) = Some mime.
Proof.
  induction mime as [|c mime IH]; intros H; [reflexivity|].
  simpl in H. apply andb_true_iff in H. destruct H as [Hc Hm].
  apply andb_true_iff in Hc. destruct Hc as [Hsemi Hterm].
  unfold not_char in Hsemi. apply negb_true_iff in Hsemi, Hterm.
  simpl. rewrite Hsemi, Hterm, (IH Hm). reflexivity.
Qed.

Lemma comma_free_app (a b : string) :
  comma_free a -> comma_free b -> comma_free (a ++ b).
Proof.
  unfold comma_free. induction a as [|c a IH]; intros Ha Hb; [exact Hb|].
  simpl in *. apply andb_true_iff in Ha. destruct Ha as [-> Ha]. now apply IH.
Qed.

(** X4. A data URL gives back its two halves: from
    [data:<type>;base64,<payload>] the part holds the type and the payload,
    when the type has no semicolon, comma or line break and the payload is
    not empty and has no comma. *)
Theorem base64ToPart_of_data_url (mime payload : string) :
  all_chars (fun c => not_char ";" c && negb (is_line_terminator c))%bool mime = true ->
  comma_free mime ->
  payload <> "" -> comma_free payload ->
  base64ToPart ("data:" ++ mime ++ ";base64," ++ payload) =
    Ok {| mimeType := mime; data := payload |}.
Proof.
  intros Hmime Hcm Hp Hcp.
  assert (Hurl : "data:" ++ mime ++ ";base64," ++ payload =
                 ("data:" ++ mime ++ ";base64") ++ "," ++ payload ++ "").
  { rewrite string_app_nil_r. cbn [append]. do 5 f_equal.
    clear. induction mime as [|c m IH]; simpl; [reflexivity | now rewrite IH]. }
  unfold base64ToPart. rewrite Hurl.
  destruct (split_two_segments ("data:" ++ mime ++ ";base64") payload "")
    as [more ->]; [ | assumption | now left | ].
  - apply comma_free_app; [reflexivity|]. apply comma_free_app; [assumption | reflexivity].
  - cbn [nth_error falsy_string].
    apply String.eqb_neq in Hp. rewrite Hp.
    cbn [append String.eqb Ascii.eqb Bool.eqb match_mimeType strip_prefix].
    simpl.
    change (mime ++ ";base64") with (mime ++ String ";" "base64").
    rewrite (upto_semicolon_app _ _ Hmime). reflexivity.
Qed.

Lemma base64ToPart_of_data_url_witness :
  base64ToPart "data:image/webp;base64,UklGRg==" =
  Ok {| mimeType := "image/webp"; data := "UklGRg==" |}.
Proof.
  apply (base64ToPart_of_data_url "image/webp" "UklGRg==");
    [reflexivity | reflexivity | discriminate | reflexivity].
Defined.

(* ===================================================================== *)
(** * The payload of an upload and its file name *)
(* ===================================================================== *)

Lemma strip_prefix_app (p s : string) : strip_prefix p (p ++ s) = Some s.
Proof.
  induction p as [|c p IH]; simpl; [reflexivity|].
  now rewrite Ascii.eqb_refl.
Qed.

Lemma drop_word_app (w s : string) (c : ascii) :
  all_chars is_word w = true -> is_word c = false ->
  drop_word (w ++ String c s) = String c s.
Proof.
  intros Hw Hc. induction w as [|x w IH]; simpl.
  - now rewrite Hc.
  - simpl in Hw. apply andb_true_iff in Hw. destruct Hw as [-> Hw]. now apply IH.
Qed.

(** X5. The prefix of a data URL of an image is stripped before the upload:
    for a subtype made of word characters, what is sent is the payload
    alone. *)
Theorem cleanBase64_strips_prefix (subtype payload : string) :
  subtype <> "" -> all_chars is_word subtype = true ->
  cleanBase64 ("data:image/" ++ subtype ++ ";base64," ++ payload) = payload.
Proof.
  intros Hne Hw. unfold cleanBase64. rewrite strip_prefix_app.
  destruct subtype as [|c w]; [contradiction|].
  simpl in Hw. apply andb_true_iff in Hw. destruct Hw as [Hc Hw].
  cbn [append]. rewrite Hc.
  change (w ++ ";base64," ++ payload) with (w ++ String ";" ("base64," ++ payload)).
  rewrite (drop_word_app w _ ";"%char Hw eq_refl).
  reflexivity.
Qed.

Lemma cleanBase64_strips_prefix_witness :
  cleanBase64 "data:image/jpeg;base64,/9j/4AAQ" = "/9j/4AAQ".
Proof.
  apply (cleanBase64_strips_prefix "jpeg" "/9j/4AAQ"); [discriminate | reflexivity].
Defined.

(** X6. When the subtype holds a character that is no word character (the
    plus of [svg+xml], a dot, a dash), the pattern does not match and the
    whole URL, prefix included, is sent as the contents of the upload. *)
Theorem cleanBase64_keeps_other_subtypes (word : string) (c : ascii) (rest : string) :
  all_chars is_word word = true -> is_word c = false -> c <> ";"%char ->
  cleanBase64 ("data:image/" ++ word ++ String c rest) =
  "data:image/" ++ word ++ String c rest.
Proof.
  intros Hw Hc Hsemi. unfold cleanBase64. rewrite strip_prefix_app.
  destruct word as [|x w].
  - cbn [append]. now rewrite Hc.
  - simpl in Hw. apply andb_true_iff in Hw. destruct Hw as [Hx Hw].
    cbn [append]. rewrite Hx, (drop_word_app _ _ _ Hw Hc).
    cbn [strip_prefix]. apply Ascii.eqb_neq in Hsemi.
    rewrite Ascii.eqb_sym, Hsemi. reflexivity.
Qed.

Lemma cleanBase64_keeps_other_subtypes_witness :
  cleanBase64 "data:image/svg+xml;base64,PHN2Zz4=" =
  "data:image/svg+xml;base64,PHN2Zz4=".
Proof.
  apply (cleanBase64_keeps_other_subtypes "svg" "+" "xml;base64,PHN2Zz4=");
    [reflexivity | reflexivity | discriminate].
Defined.

(** X7. The name of the uploaded file is safe: it has the length of the
    title, every character of it is a letter, a digit or an underscore,
    and cleaning a clean name changes nothing. *)
Theorem safe_name_is_safe (title : string) :
  String.length (safe_name title) = String.length title /\
  all_chars is_word (safe_name title) = true /\
  safe_name (safe_name title) = safe_name title.
Proof.
  induction title as [|c t (Hlen & Hword & Hidem)]; [repeat split|].
  cbn [safe_name String.length all_chars]. repeat split.
  - now rewrite Hlen.
  - rewrite Hword, andb_true_r. unfold is_word.
    destruct (is_alnum c) eqn:Hc; [|reflexivity].
    unfold is_alnum in Hc. now rewrite Hc.
  - rewrite Hidem. f_equal.
    destruct (is_alnum c) eqn:H; [now rewrite H | reflexivity].
Qed.

(* ===================================================================== *)
(** * The cost of a finalization *)
(* ===================================================================== *)

Section FinalizationCost.
Context {E : Environment}.

Lemma pauses_app (l1 l2 : list Event) :
  pauses (l1 ++ l2) = (pauses l1 + pauses l2)%nat.
Proof.
  induction l1 as [|ev l1 IH]; [reflexivity|].
  destruct ev; simpl; rewrite ?IH; try reflexivity.
  destruct (_ =? 1500); simpl; now rewrite ?IH.
Qed.

Lemma retries_no_pause (req : GenRequest) (m : Z) (es : list JsError) :
  forall r : nat,
    pauses (flat_map (retry_events (EvGenerateContent req) m 2000) (indexed r es)) = O.
Proof.
  induction es as [|e es IH]; intros r; [reflexivity|].
  cbn [indexed flat_map]. rewrite pauses_app, IH, Nat.add_0_r.
  unfold retry_events. cbn [fst snd].
  assert (Hpow : 0 < 2 ^ Z.of_nat r) by (apply Z.pow_pos_nonneg; lia).
  assert (Hms : (2000 * 2 ^ Z.of_nat r =? 1500) = false) by (apply Z.eqb_neq; lia).
  cbn [pauses]. now rewrite Hms.
Qed.

(** One request through the executor with its defaults: from one call to
    six, and no pause of 1500 ms. *)
Lemma executor_cost (req : GenRequest) (st : St) :
  exists evs : list Event,
    trace (snd (withRetry (ai_models_generateContent req) None None st)) =
      (trace st ++ evs)%list /\
    pauses evs = O /\
    (1 <= generate_calls evs <= 6)%nat.
Proof.
  unfold ai_models_generateContent.
  destruct (withRetry_spec (EvGenerateContent req) (generateContent req) None None st)
    as (es & Hle & _ & _ & Htr & _); [simpl; lia|].
  destruct (retries_wait_and_calls req (default_to 5 None) (default_to 2000 None) es 0)
    as [_ Hc].
  eexists. split; [exact Htr|].
  rewrite pauses_app, generate_calls_app, Hc.
  change (default_to 2000 None) with 2000.
  rewrite retries_no_pause.
  simpl in Hle. simpl. split; [reflexivity | lia].
Qed.

(** The loop over the scene prompts, when it comes to its end. *)
Lemma mockup_loop_cost (designPart : InlineData) (onProgress : option Callback)
  (totalSteps total : Z) :
  quiet_opt onProgress ->
  forall (prompts : list string) (k : nat) (mockupUrls : list string) (st st' : St)
         (r : list string),
    total = Z.of_nat (k + List.length prompts) ->
    mockup_loop designPart onProgress totalSteps total prompts (Z.of_nat k) mockupUrls st =
      (Ok r, st') ->
    exists (evs : list Event) (new : list string),
      trace st' = (trace st ++ evs)%list /\
      r = (mockupUrls ++ new)%list /\
      Forall (fun url => exists bytes, url = mockupUrl bytes) new /\
      (List.length new <= List.length prompts)%nat /\
      pauses evs = (List.length prompts - 1)%nat /\
      (List.length prompts <= generate_calls evs <= 6 * List.length prompts)%nat.
Proof.
  intros Hq. induction prompts as [|prompt rest IH]; intros k urls st st' r Htotal Hrun.
  - simpl in Hrun. injection Hrun as <- <-. exists [], [].
    rewrite !app_nil_r. repeat split; simpl; try constructor; lia.
  - cbn [mockup_loop] in Hrun.
    destruct (call_onProgress_quiet onProgress (Z.of_nat k + 2) totalSteps st Hq)
      as [u0 Hcb].
    rewrite (bind_ok _ _ _ _ _ Hcb) in Hrun.
    set (st0 := {| world := world st; trace := _; ui := u0 |}) in Hrun.
    destruct (executor_cost (mockupRequest designPart prompt) st0)
      as (evs1 & Htr1 & Hp1 & Hc1).
    unfold bind at 1 in Hrun.
    destruct (withRetry _ None None st0) as [[response|e] st1]; [|discriminate].
    cbn [snd] in Htr1. unfold bind at 1 in Hrun.
    destruct (push_mockup urls response) as [urls'|e] eqn:Hpush; [|discriminate].
    set (pause := if Z.of_nat k <? total - 1 then [EvSleep 1500] else []).
    assert (Hpause : (if Z.of_nat k <? total - 1 then sleep 1500 else ret tt) st1 =
                     (Ok tt, {| world := world st1; trace := trace st1 ++ pause;
                                ui := ui st1 |})).
    { subst pause. destruct (Z.of_nat k <? total - 1).
      - reflexivity.
      - unfold ret. rewrite app_nil_r. apply f_equal, St_eta. }
    rewrite (bind_ok _ _ _ _ _ Hpause) in Hrun.
    replace (Z.of_nat k + 1) with (Z.of_nat (S k)) in Hrun by lia.
    apply IH in Hrun; [|cbn [List.length] in Htotal; lia].
    destruct Hrun as (evs & new & Htr & Hr & Hnew & Hlen & Hp & Hc).
    cbn [trace] in Htr. rewrite Htr1 in Htr. subst st0. cbn [trace] in Htr.
    exists ((report onProgress (Z.of_nat k + 2) totalSteps ++ evs1 ++ pause ++ evs)%list).
    assert (Hreport : pauses (report onProgress (Z.of_nat k + 2) totalSteps) = O /\
                      generate_calls (report onProgress (Z.of_nat k + 2) totalSteps) = O).
    { destruct onProgress; split; reflexivity. }
    destruct Hreport as [Hrp Hrc].
    assert (Hpp : pauses pause = (if Nat.eqb (List.length rest) 0 then 0 else 1)%nat /\
                  generate_calls pause = O).
    { subst pause. cbn [List.length] in Htotal.
      destruct (Z.ltb_spec (Z.of_nat k) (total - 1)) as [Hlt|Hge];
        destruct (Nat.eqb_spec (List.length rest) 0); split; try reflexivity; lia. }
    destruct Hpp as [Hpp Hpc].
    unfold push_mockup in Hpush.
    destruct (extract_image response) as [[bytes|]|e]; [| |discriminate];
      injection Hpush as <-.
    + exists (mockupUrl bytes :: new). rewrite <- app_assoc in Hr.
      split; [rewrite Htr, <- !app_assoc; reflexivity|].
      split; [exact Hr|].
      split; [constructor; [now exists bytes | exact Hnew]|].
      rewrite !pauses_app, !generate_calls_app, Hrp, Hrc, Hp1, Hpp, Hpc, Hp.
      cbn [List.length].
      destruct (Nat.eqb_spec (List.length rest) 0); repeat split; lia.
    + exists new.
      split; [rewrite Htr, <- !app_assoc; reflexivity|].
      split; [exact Hr|].
      split; [exact Hnew|].
      rewrite !pauses_app, !generate_calls_app, Hrp, Hrc, Hp1, Hpp, Hpc, Hp.
      cbn [List.length].
      destruct (Nat.eqb_spec (List.length rest) 0); repeat split; lia.
Qed.

(** X8. A finalization that returns has made between 13 and 78 calls of
    the model (the listing copy and twelve scenes, each tried up to six
    times), has paused 1500 ms eleven times, between one scene and the
    next and not after the last, and returns from one to twelve mockups,
    each a JPEG data URL. *)
Theorem finalization_cost (url : string) (concept : ProductConcept) (holiday : string)
  (pt : ProductType) (onProgress : option Callback) (st st' : St) (assets : FinalAssets) :
  quiet_opt onProgress ->
  generateFinalAssets url concept holiday pt onProgress st = (Ok assets, st') ->
  exists evs : list Event,
    trace st' = (trace st ++ evs)%list /\
    pauses evs = 11%nat /\
    (13 <= generate_calls evs <= 78)%nat /\
    (1 <= List.length (fa_mockups assets) <= 12)%nat /\
    Forall (fun mockup => exists bytes, mockup = mockupUrl bytes) (fa_mockups assets).
Proof.
  intros Hq Hrun. unfold generateFinalAssets in Hrun. rewrite catch_log in Hrun.
  pose proof (getMockupPrompts_length pt concept holiday) as Hlen.
  set (prompts := getMockupPrompts pt concept holiday) in *.
  cbv zeta in Hrun. set (totalSteps := Z.of_nat (List.length prompts) + 1) in *.
  destruct (call_onProgress_quiet onProgress 0 totalSteps st Hq) as [u0 Hcb0].
  rewrite (bind_ok _ _ _ _ _ Hcb0) in Hrun.
  set (st0 := {| world := world st; trace := _; ui := u0 |}) in Hrun.
  destruct (executor_cost (listingCopyRequest concept) st0) as (evs0 & Htr0 & Hp0 & Hc0).
  unfold bind at 1 in Hrun. rewrite generateListingCopy_eq in Hrun.
  destruct (withRetry _ None None st0) as [[response|e] st1]; [|discriminate].
  cbn [snd] in Htr0.
  destruct (JSON_parse (trim (response_text response))) as [copy|e]; [|discriminate].
  destruct (call_onProgress_quiet onProgress 1 totalSteps st1 Hq) as [u1 Hcb1].
  rewrite (bind_ok _ _ _ _ _ Hcb1) in Hrun.
  set (st2 := {| world := world st1; trace := _; ui := u1 |}) in Hrun.
  unfold bind at 1 in Hrun.
  destruct (base64ToPart url) as [part|e]; [|discriminate].
  unfold bind at 1 in Hrun.
  destruct (mockup_loop part onProgress totalSteps _ prompts 0 [] st2)
    as [[urls|e] st3] eqn:Hloop; [|discriminate].
  change 0 with (Z.of_nat 0) in Hloop.
  apply (mockup_loop_cost part onProgress totalSteps _ Hq prompts 0 [] st2 st3 urls
           eq_refl) in Hloop.
  destruct Hloop as (evs & new & Htr & Hr & Hnew & Hn & Hp & Hc).
  cbn [app] in Hr. subst urls.
  destruct (Nat.eqb_spec (List.length new) 0) as [Hz|Hnz]; [discriminate|].
  injection Hrun as <- <-.
  subst st2 st0. cbn [trace] in Htr. rewrite Htr0 in Htr. cbn [trace] in Htr.
  exists ((report onProgress 0 totalSteps ++ evs0 ++ report onProgress 1 totalSteps ++
           evs)%list).
  split; [rewrite Htr, <- !app_assoc; reflexivity|].
  assert (Hreport : forall p, pauses (report onProgress p totalSteps) = O /\
                              generate_calls (report onProgress p totalSteps) = O).
  { intros p. destruct onProgress; split; reflexivity. }
  destruct (Hreport 0) as [Ha Hb]. destruct (Hreport 1) as [Ha' Hb'].
  rewrite !pauses_app, !generate_calls_app, Ha, Hb, Ha', Hb', Hp0, Hp.
  cbn [fa_mockups]. rewrite Hlen in *.
  repeat split; try lia. exact Hnew.
Qed.

End FinalizationCost.

(** One design served to the end, two scenes of which come back without an
    image: thirteen calls, eleven pauses, ten mockups. *)
Lemma finalization_cost_witness :
  let run := @generateFinalAssets Scenario.env_ok (di_url Scenario.design1)
               Scenario.concept1 "Christmas" Sweatshirt None Scenario.st_one in
  let assets := {| fa_mockups := map mockupUrl ["m01"; "m02"; "m04"; "m05"; "m06"; "m07";
                                                "m08"; "m09"; "m11"; "m12"];
                   fa_listingCopy := Scenario.copy1 |} in
  run = (Ok assets, snd run) /\
  exists evs : list Event,
    trace (snd run) = evs /\ pauses evs = 11%nat /\ (13 <= generate_calls evs <= 78)%nat.
Proof.
  intros run assets.
  assert (Hrun : run = (Ok assets, snd run)) by (vm_compute; reflexivity).
  split; [exact Hrun|].
  destruct (@finalization_cost Scenario.env_ok (di_url Scenario.design1)
              Scenario.concept1 "Christmas" Sweatshirt None Scenario.st_one (snd run)
              assets) as (evs & Htr & Hp & Hc & _).
  - intros cb H. discriminate H.
  - exact Hrun.
  - exists evs. split; [exact Htr|]. split; [exact Hp | exact Hc].
Defined.

(* ===================================================================== *)
(** * The selections *)
(* ===================================================================== *)

(** A toggle on a list with keys: the key toggled changes sides, the other
    keys stay where they are. *)
Lemma toggle_flips {A} (key : A -> string) (x : A) (l : list A) (t : string) :
  existsb (fun a => String.eqb (key a) t)
    (if existsb (fun a => String.eqb (key a) (key x)) l
     then filter (fun a => negb (String.eqb (key a) (key x))) l
     else l ++ [x])%list =
  if String.eqb t (key x)
  then negb (existsb (fun a => String.eqb (key a) (key x)) l)
  else existsb (fun a => String.eqb (key a) t) l.
Proof.
  destruct (existsb (fun a => String.eqb (key a) (key x)) l) eqn:Hin.
  - destruct (String.eqb_spec t (key x)) as [->|Hne].
    + clear Hin. induction l as [|a l IH]; [reflexivity|].
      simpl. destruct (String.eqb (key a) (key x)) eqn:Ha; simpl; [exact IH|].
      now rewrite Ha, IH.
    + clear Hin. induction l as [|a l IH]; [reflexivity|].
      simpl. destruct (String.eqb_spec (key a) (key x)) as [Heq|Hneq]; simpl.
      * destruct (String.eqb_spec (key a) t) as [Hat|_]; [congruence | exact IH].
      * now rewrite IH.
  - rewrite existsb_app. simpl. rewrite orb_false_r.
    destruct (String.eqb_spec t (key x)) as [->|Hne].
    + now rewrite Hin, String.eqb_refl.
    + destruct (String.eqb_spec (key x) t) as [Heq|_]; [congruence|].
      now rewrite orb_false_r.
Qed.

Lemma existsb_key_In {A} (key : A -> string) (l : list A) (k : string) :
  existsb (fun a => String.eqb (key a) k) l = false -> ~ In k (map key l).
Proof.
  induction l as [|a l IH]; simpl; [tauto|].
  intros H. apply orb_false_iff in H. destruct H as [Ha Hl].
  apply String.eqb_neq in Ha. intros [Heq|Hin]; [congruence | now apply IH].
Qed.

(** A toggle keeps the keys distinct. *)
Lemma toggle_NoDup {A} (key : A -> string) (x : A) (l : list A) :
  NoDup (map key l) ->
  NoDup (map key
    (if existsb (fun a => String.eqb (key a) (key x)) l
     then filter (fun a => negb (String.eqb (key a) (key x))) l
     else l ++ [x])%list).
Proof.
  intros Hnd. destruct (existsb _ l) eqn:Hin.
  - clear Hin. induction l as [|a l IH]; [constructor|].
    inversion Hnd as [|? ? Hnotin Hnd']; subst. simpl.
    destruct (negb (String.eqb (key a) (key x))); [|now apply IH].
    simpl. constructor; [|now apply IH].
    intros Hin. apply Hnotin. apply in_map_iff in Hin.
    destruct Hin as (b & Hb & Hf). apply filter_In in Hf.
    apply in_map_iff. exists b. tauto.
  - rewrite map_app. simpl.
    apply (existsb_key_In key l (key x)) in Hin.
    clear - Hnd Hin. induction (map key l) as [|k ks IH]; simpl.
    + constructor; [tauto | constructor].
    + inversion Hnd; subst. constructor.
      * intros H. apply in_app_or in H. destruct H as [H|[H|[]]]; [tauto|].
        apply Hin. now left.
      * apply IH; [assumption|]. intros H. apply Hin. now right.
Qed.

(** X9. A click on a concept changes the side of its title and of no other:
    a title that was selected is no longer, one that was not is selected,
    and the selection never holds a title twice. *)
Theorem handleToggleVariationSelection_flips (concept : ProductConcept)
  (prev : list ProductConcept) :
  NoDup (map conceptTitle prev) ->
  NoDup (map conceptTitle (handleToggleVariationSelection concept prev)) /\
  forall title : string,
    selected_title title (handleToggleVariationSelection concept prev) =
    if String.eqb title (conceptTitle concept)
    then negb (selected_title title prev)
    else selected_title title prev.
Proof.
  intros Hnd. unfold handleToggleVariationSelection, selected_title. split.
  - now apply (toggle_NoDup conceptTitle concept prev).
  - intros title. rewrite (toggle_flips conceptTitle concept prev title).
    destruct (String.eqb_spec title (conceptTitle concept)) as [->|_]; reflexivity.
Qed.

Lemma handleToggleVariationSelection_flips_witness :
  map conceptTitle
    (handleToggleVariationSelection Scenario.concept1
       [Scenario.concept1; Scenario.concept2]) = ["Merry & Bright"] /\
  selected_title "Sleigh All Day"
    (handleToggleVariationSelection Scenario.concept1
       [Scenario.concept1; Scenario.concept2]) = false.
Proof.
  split; [reflexivity|].
  destruct (handleToggleVariationSelection_flips Scenario.concept1
              [Scenario.concept1; Scenario.concept2]) as [_ H].
  - repeat constructor; simpl; intuition discriminate.
  - rewrite (H "Sleigh All Day"). reflexivity.
Defined.

(** X10. A click on a design works on its URL: the URL changes sides, the
    others stay, no URL is held twice, and a design that enters the
    selection has the product type of the session. *)
Theorem toggleDesignSelection_flips (productType : ProductType) (concept : ProductConcept)
  (url : string) (prev : list DesignItem) :
  NoDup (map di_url prev) ->
  NoDup (map di_url (toggleDesignSelection productType concept url prev)) /\
  (forall other : string,
     selected_url other (toggleDesignSelection productType concept url prev) =
     if String.eqb other url then negb (selected_url other prev)
     else selected_url other prev) /\
  (forall design : DesignItem,
     In design (toggleDesignSelection productType concept url prev) ->
     In design prev \/
     design = {| di_concept := concept; di_url := url; di_productType := productType |}).
Proof.
  intros Hnd. unfold toggleDesignSelection, selected_url.
  set (x := {| di_concept := concept; di_url := url; di_productType := productType |}).
  change url with (di_url x). split; [|split].
  - now apply (toggle_NoDup di_url x prev).
  - intros other. rewrite (toggle_flips di_url x prev other).
    destruct (String.eqb_spec other (di_url x)) as [->|_]; reflexivity.
  - intros design Hin. destruct (existsb _ prev).
    + apply filter_In in Hin. now left.
    + apply in_app_or in Hin. destruct Hin as [Hin|[<-|[]]]; [now left | now right].
Qed.

Lemma toggleDesignSelection_flips_witness :
  toggleDesignSelection Mug Scenario.concept2 (di_url Scenario.design2)
    [Scenario.design1] = [Scenario.design1; Scenario.design2] /\
  selected_url (di_url Scenario.design1)
    (toggleDesignSelection Mug Scenario.concept1 (di_url Scenario.design1)
       [Scenario.design1]) = false.
Proof.
  split; [reflexivity|].
  destruct (toggleDesignSelection_flips Mug Scenario.concept1 (di_url Scenario.design1)
              [Scenario.design1]) as (_ & H & _).
  - repeat constructor; simpl; intuition discriminate.
  - rewrite (H (di_url Scenario.design1)). reflexivity.
Defined.

(** X11. The change of the product type of a design touches the type only:
    the designs selected, their order, their concepts and their URLs are as
    before, every design under the URL has the new type and the others keep
    theirs. *)
Theorem changeProductType_touches_the_type_only (url : string)
  (newProductType : ProductType) (prev : list DesignItem) :
  map di_url (changeProductType url newProductType prev) = map di_url prev /\
  map di_concept (changeProductType url newProductType prev) = map di_concept prev /\
  map di_productType (changeProductType url newProductType prev) =
    map (fun design => if String.eqb (di_url design) url then newProductType
                       else di_productType design) prev /\
  changeProductType url newProductType (changeProductType url newProductType prev) =
    changeProductType url newProductType prev.
Proof.
  unfold changeProductType. rewrite !map_map. repeat split.
  - apply map_ext. intros d. now destruct (String.eqb (di_url d) url).
  - apply map_ext. intros d. now destruct (String.eqb (di_url d) url).
  - apply map_ext. intros d. now destruct (String.eqb (di_url d) url).
  - apply map_ext. intros d. destruct (String.eqb (di_url d) url) eqn:Hd; simpl;
      now rewrite Hd.
Qed.

(* ===================================================================== *)
(** * The design stage *)
(* ===================================================================== *)

Section DesignFacts.
Context {E : Environment}.

(** No style has an empty instruction: the fallback of [generateDesign] to
    the minimalist instruction is never taken. *)
Lemma stylePrompts_present (style : DesignStyle) :
  string_or (stylePrompts style) (stylePrompts MinimalistVector) = stylePrompts style.
Proof. destruct style; reflexivity. Qed.

Lemma generateDesign_eq (concept : ProductConcept) (style : DesignStyle) (st : St) :
  let req := designRequest (designPrompt concept style (stylePrompts style)
                              (displayText concept)) in
  let failed (e : JsError) (st1 : St) :=
    (@Throw string e, log_event (EvConsoleError "Error generating design:" e) st1) in
  generateDesign concept style st =
  match withRetry (ai_models_generateContent req) None None st with
  | (Ok response, st1) =>
      match extract_image response with
      | Ok (Some bytes) => (Ok (designUrl_of bytes), st1)
      | Ok None => failed (new_Error "No image was generated.") st1
      | Throw type_error => failed type_error st1
      end
  | (Throw e, st1) => failed e st1
  end.
Proof.
  intros req failed. unfold generateDesign. rewrite catch_log. cbv zeta.
  rewrite stylePrompts_present. fold req. unfold bind.
  destruct (withRetry _ None None st) as [[response|e] st1]; [|reflexivity].
  destruct (extract_image response) as [[bytes|]|e]; reflexivity.
Qed.

(** X12. The design stage sends one request, which carries the prompt of
    the concept under the instruction of the chosen style and no image,
    through the executor. An answer with an image gives the PNG data URL of
    its bytes; an answer without one fails with [No image was generated.];
    an answer whose first candidate has no content fails with the
    [TypeError] of the read of its parts; an error of the executor comes
    out as it is. The three failures are logged, and the React state is
    not touched. *)
Theorem generateDesign_outcomes (concept : ProductConcept) (style : DesignStyle) (st : St) :
  let req := designRequest (designPrompt concept style (stylePrompts style)
                              (displayText concept)) in
  let no_image := new_Error "No image was generated." in
  let label := "Error generating design:" in
  exists evs : list Event,
    call_block req evs /\
    Forall (fun ev => carries_image ev = false) evs /\
    let failed (e : JsError) (w1 : World) :=
      (@Throw string e,
       {| world := w1; trace := trace st ++ evs ++ [EvConsoleError label e];
          ui := ui st |}) in
    generateDesign concept style st =
    match executor_on req (world st) with
    | (Ok response, w1) =>
        match candidates response with
        | Some (first :: _) =>
            match content first with
            | None => failed no_content_error w1
            | Some c =>
                match extract_image response with
                | Ok (Some bytes) =>
                    (Ok (designUrl_of bytes),
                     {| world := w1; trace := trace st ++ evs; ui := ui st |})
                | _ => failed no_image w1
                end
            end
        | _ => failed no_image w1
        end
    | (Throw e, w1) => failed e w1
    end.
Proof.
  intros req no_image label. rewrite generateDesign_eq. fold req.
  destruct (executor_call req st) as (evs & Hblock & Hcall).
  exists evs. split; [exact Hblock|]. split.
  - destruct Hblock as [_ Hall]. eapply Forall_impl; [|exact Hall].
    intros ev [_ Hremote]. destruct ev; try reflexivity.
    now rewrite (Hremote eq_refl).
  - cbv zeta. rewrite Hcall.
    assert (Hlog : forall e w1,
              log_event (EvConsoleError label e)
                {| world := w1; trace := trace st ++ evs; ui := ui st |} =
              {| world := w1; trace := trace st ++ evs ++ [EvConsoleError label e];
                 ui := ui st |}).
    { intros e w1. unfold log_event. cbn [world trace ui]. now rewrite <- app_assoc. }
    destruct (executor_on req (world st)) as [[response|e] w1]; cbn [fst snd];
      [|now rewrite Hlog].
    unfold extract_image.
    destruct (candidates response) as [[|first rest]|]; try now rewrite Hlog.
    destruct (content first) as [c|]; [|now rewrite Hlog].
    destruct (parts c) as [ps|]; [|now rewrite Hlog].
    destruct (find has_inlineData ps) as [imagePart|]; [|now rewrite Hlog].
    destruct (inlineData imagePart); [reflexivity | now rewrite Hlog].
Qed.

Lemma frames_generateDesign (concept : ProductConcept) (style : DesignStyle) :
  frames (generateDesign concept style).
Proof.
  unfold generateDesign. apply frames_try_catch.
  - cbv zeta. apply frames_bind; [apply frames_executor | intros r].
    destruct (extract_image r) as [[bytes|]|e];
      [apply frames_ret | apply frames_throw | apply frames_throw].
  - intros e. apply frames_bind; [apply frames_log | intros _; apply frames_throw].
Qed.

Lemma generateDesign_url (concept : ProductConcept) (style : DesignStyle) (st st1 : St)
  (url : string) :
  generateDesign concept style st = (Ok url, st1) ->
  exists bytes, url = designUrl_of bytes.
Proof.
  rewrite generateDesign_eq. cbv zeta.
  destruct (withRetry _ None None st) as [[response|e] st']; [|discriminate].
  destruct (extract_image response) as [[bytes|]|e]; [|discriminate|discriminate].
  intros H. injection H as <- _. now exists bytes.
Qed.

End DesignFacts.

(** X13. What the design stage and the mockup loop return is what the
    later stages read: of the data URL of image bytes that are not empty and
    hold no comma, the finalization takes the type and the very bytes, and
    the upload sends the very bytes. *)
Theorem image_urls_feed_the_later_stages (bytes : string) :
  bytes <> "" -> comma_free bytes ->
  base64ToPart (designUrl_of bytes) = Ok {| mimeType := "image/png"; data := bytes |} /\
  base64ToPart (mockupUrl bytes) = Ok {| mimeType := "image/jpeg"; data := bytes |} /\
  cleanBase64 (designUrl_of bytes) = bytes /\
  cleanBase64 (mockupUrl bytes) = bytes.
Proof.
  intros Hne Hcf.
  assert (Hsplit : forall header, comma_free header ->
            split "," (header ++ String "," bytes) = [header; bytes]).
  { intros header Hh. now rewrite (split_at_comma _ _ Hh), (split_comma_free _ Hcf). }
  apply String.eqb_neq in Hne.
  split; [|split; [|split]].
  - unfold base64ToPart, designUrl_of.
    change ("data:image/png;base64," ++ bytes)
      with ("data:image/png;base64" ++ String "," bytes).
    rewrite (Hsplit "data:image/png;base64" eq_refl).
    cbn [nth_error falsy_string]. now rewrite Hne.
  - unfold base64ToPart, mockupUrl.
    change ("data:image/jpeg;base64," ++ bytes)
      with ("data:image/jpeg;base64" ++ String "," bytes).
    rewrite (Hsplit "data:image/jpeg;base64" eq_refl).
    cbn [nth_error falsy_string]. now rewrite Hne.
  - reflexivity.
  - reflexivity.
Qed.

Lemma image_urls_feed_the_later_stages_witness :
  base64ToPart (designUrl_of "iVBORw0KGgo=") =
    Ok {| mimeType := "image/png"; data := "iVBORw0KGgo=" |} /\
  cleanBase64 (mockupUrl "iVBORw0KGgo=") = "iVBORw0KGgo=".
Proof.
  destruct (image_urls_feed_the_later_stages "iVBORw0KGgo=") as (H1 & _ & _ & H4);
    [discriminate | reflexivity |].
  split; [exact H1 | exact H4].
Defined.

(* ===================================================================== *)
(** * The forge of the designs *)
(* ===================================================================== *)

Section ForgeDesignsFacts.
Context {E : Environment}.

Lemma record_own_put (key k value : string) (r : StringRecord) :
  record_own k (record_put key value r) =
  if String.eqb key k then Some value else record_own k r.
Proof.
  induction r as [|[k0 v0] r IH]; simpl.
  - reflexivity.
  - destruct (String.eqb_spec k0 key) as [->|Hne]; simpl.
    + now destruct (String.eqb key k).
    + rewrite IH. destruct (String.eqb_spec k0 k) as [->|_]; [|reflexivity].
      destruct (String.eqb_spec key k) as [Heq|_]; [congruence | reflexivity].
Qed.

Lemma record_own_set (key k value : string) (r : StringRecord) :
  record_own k (record_set key value r) =
  if (String.eqb key k && negb (String.eqb key "__proto__"))%bool
  then Some value else record_own k r.
Proof.
  unfold record_set. destruct (String.eqb key "__proto__").
  - now rewrite andb_false_r.
  - now rewrite record_own_put, andb_true_r.
Qed.

Lemma designs_loop_cons (style : DesignStyle) (n : Z) (concept : ProductConcept)
  (rest : list ProductConcept) (i : Z) (acc : StringRecord) (st : St) :
  let st0 := snd (setLoadingMessage (forgingMessage i n concept) st) in
  designs_loop style n (concept :: rest) i acc st =
  match generateDesign concept style st0 with
  | (Ok url, st1) =>
      designs_loop style n rest (i + 1) (record_set (conceptTitle concept) url acc)
        (snd ((if i <? n - 1 then sleep 1500 else ret tt) st1))
  | (Throw e, st1) => (Throw e, st1)
  end.
Proof.
  cbn [designs_loop]. unfold bind at 1. cbn [setLoadingMessage modify_ui snd].
  unfold bind at 1.
  destruct (generateDesign concept style _) as [[url|e] st1]; [|reflexivity].
  unfold bind at 1. now destruct (i <? n - 1).
Qed.

(** The loop over the concepts: the React state changes in its loading
    message only, and a run that ends has an entry for every title but
    [__proto__], the other entries being those it started with. *)
Lemma designs_loop_spec (style : DesignStyle) (n : Z) :
  forall (concepts : list ProductConcept) (i : Z) (acc : StringRecord) (st : St),
    same_but_message (ui st) (ui (snd (designs_loop style n concepts i acc st))) /\
    forall r, fst (designs_loop style n concepts i acc st) = Ok r ->
      forall title : string,
        if in_dec string_dec title (map conceptTitle concepts)
        then title = "__proto__" /\ record_own title r = record_own title acc \/
             title <> "__proto__" /\
             exists bytes, record_own title r = Some (designUrl_of bytes)
        else record_own title r = record_own title acc.
Proof.
  induction concepts as [|concept rest IH]; intros i acc st.
  - split; [apply same_but_message_refl|].
    intros r H. unfold designs_loop, ret in H. cbn [fst] in H.
    inversion H; subst. intros title. reflexivity.
  - pose proof (designs_loop_cons style n concept rest i acc st) as Heq.
    cbv zeta in Heq. rewrite Heq. clear Heq.
    set (st0 := snd (setLoadingMessage (forgingMessage i n concept) st)).
    assert (H0 : same_but_message (ui st) (ui st0)) by (repeat split).
    pose proof (frames_generateDesign concept style st0) as Hframe.
    destruct (generateDesign concept style st0) as [[url|e] st1] eqn:Hgen.
    2:{ split; [|intros r H; discriminate H]. cbn [snd] in *.
        exact (same_but_message_trans _ _ _ H0 Hframe). }
    cbn [snd] in Hframe.
    apply generateDesign_url in Hgen. destruct Hgen as [bytes ->].
    set (acc' := record_set (conceptTitle concept) (designUrl_of bytes) acc).
    set (st2 := snd ((if i <? n - 1 then sleep 1500 else ret tt) st1)).
    assert (Hui : ui st2 = ui st1) by (subst st2; now destruct (i <? n - 1)).
    destruct (IH (i + 1) acc' st2) as [Hsame Hres]. split.
    + eapply same_but_message_trans; [exact H0|].
      eapply same_but_message_trans; [exact Hframe|].
      rewrite <- Hui. exact Hsame.
    + intros r Hr title. specialize (Hres r Hr title).
      cbn [map].
      destruct (in_dec string_dec title (map conceptTitle rest)) as [Hin|Hnin].
      * destruct (in_dec string_dec title (conceptTitle concept :: map conceptTitle rest))
          as [_|Hn]; [|exfalso; apply Hn; now right].
        destruct Hres as [[Hproto Hres]|Hres]; [left | right; exact Hres].
        split; [exact Hproto|]. rewrite Hres. subst acc'.
        rewrite record_own_set. subst title. now rewrite andb_negb_r.
      * subst acc'. rewrite record_own_set in Hres.
        destruct (in_dec string_dec title (conceptTitle concept :: map conceptTitle rest))
          as [[Heq|Hin]|Hn]; [| contradiction |].
        -- rewrite Heq, String.eqb_refl in Hres. cbn [andb] in Hres.
           destruct (String.eqb_spec title "__proto__") as [Hproto|Hproto].
           ++ left. now split.
           ++ right. split; [exact Hproto|]. now exists bytes.
        -- destruct (String.eqb_spec (conceptTitle concept) title) as [Heq|_].
           ++ exfalso. apply Hn. now left.
           ++ exact Hres.
Qed.

Lemma handleForgeDesigns_run (style : DesignStyle)
  (selectedVariations : list ProductConcept) (generatedDesigns : StringRecord) (st : St) :
  selectedVariations <> [] ->
  handleForgeDesigns style selectedVariations generatedDesigns st =
  try_finally
    (try_catch
       (newDesigns <- designs_loop style (Z.of_nat (List.length selectedVariations))
                        selectedVariations 0 [] ;;
        setStep DESIGN ;;
        ret newDesigns)
       (fun e => handleApiError e ;; ret []))
    (setIsLoading false) (designs_start (List.length selectedVariations) st).
Proof.
  intros Hne. unfold handleForgeDesigns.
  destruct selectedVariations; [contradiction | reflexivity].
Qed.

Lemma designs_loop_in_order (style : DesignStyle) (n : Z) :
  forall (concepts : list ProductConcept) (k : nat) (acc : StringRecord) (st : St),
    (exists urls st',
       rendered_in_order style n k concepts st urls st' /\
       designs_loop style n concepts (Z.of_nat k) acc st =
       (Ok (designs_of concepts urls acc), st'))
    \/
    (exists pre c post urls st_mid e stf,
       concepts = (pre ++ c :: post)%list /\
       rendered_in_order style n k pre st urls st_mid /\
       design_step style n (k + List.length pre) c st_mid = (Throw e, stf) /\
       designs_loop style n concepts (Z.of_nat k) acc st = (Throw e, stf)).
Proof.
  induction concepts as [|c rest IH]; intros k acc st.
  - left. exists [], st. split; [constructor | reflexivity].
  - pose proof (designs_loop_cons style n c rest (Z.of_nat k) acc st) as Hcons.
    cbv zeta in Hcons. rewrite Hcons. clear Hcons.
    assert (Hstep : design_step style n k c st =
                    generateDesign c style
                      (snd (setLoadingMessage (forgingMessage (Z.of_nat k) n c) st)))
      by reflexivity.
    rewrite <- Hstep.
    destruct (design_step style n k c st) as [[url|e] st1] eqn:Hrun.
    2:{ right. exists [], c, rest, [], st, e, st1. rewrite Nat.add_0_r.
        split; [reflexivity|]. split; [constructor|]. split; [exact Hrun | reflexivity]. }
    replace (Z.of_nat k + 1) with (Z.of_nat (S k)) by lia.
    change (snd ((if Z.of_nat k <? n - 1 then sleep 1500 else ret tt) st1))
      with (snd (design_pause n k st1)).
    destruct (IH (S k) (record_set (conceptTitle c) url acc) (snd (design_pause n k st1)))
      as [(urls & st' & Hchain & Hloop)
         | (pre & c' & post & urls & st_mid & e & stf & Hc & Hchain & Hfail & Hloop)].
    + left. exists (url :: urls), st'. split; [|exact Hloop].
      apply rendered_next with (st1 := st1); [exact Hrun | exact Hchain].
    + right. exists (c :: pre), c', post, (url :: urls), st_mid, e, stf.
      subst rest. split; [reflexivity|].
      split; [apply rendered_next with (st1 := st1); [exact Hrun | exact Hchain]|].
      split; [|exact Hloop].
      replace (k + List.length (c :: pre))%nat with (S k + List.length pre)%nat
        by (simpl; lia).
      exact Hfail.
Qed.

(** X14. The forge of the designs is all or nothing. Over a selection that
    is not empty the handler does not throw, ends with the loading flag
    down and the selection of designs empty, and drops the designs of the
    run before. The concepts are rendered in the order of the selection,
    with a pause after each but the last. When every one is rendered, no
    error is shown, the step is [DESIGN] and the designs kept are those
    rendered, each under the title of its concept: every title selected,
    [__proto__] apart, has its PNG data URL and no other title has an
    entry. When the rendering of one fails, the handler stops there: no
    later concept is rendered, the error of the failure is shown, the step
    stays and no design at all is kept, those rendered before the failure
    included. *)
Theorem handleForgeDesigns_all_or_nothing (style : DesignStyle)
  (selectedVariations : list ProductConcept) (generatedDesigns : StringRecord) (st : St) :
  selectedVariations <> [] ->
  let n := Z.of_nat (List.length selectedVariations) in
  let start := designs_start (List.length selectedVariations) st in
  let run := handleForgeDesigns style selectedVariations generatedDesigns st in
  let st' := snd run in
  let u := ui st' in
  isLoading u = false /\ selectedDesigns u = [] /\
  holiday u = holiday (ui st) /\ printifyToken u = printifyToken (ui st) /\
  finalizedProducts u = finalizedProducts (ui st) /\
  ((exists urls st1,
      rendered_in_order style n 0 selectedVariations start urls st1 /\
      world st' = world st1 /\ trace st' = trace st1 /\
      fst run = Ok (designs_of selectedVariations urls []) /\
      error u = None /\ step u = DESIGN /\
      (forall concept, In concept selectedVariations ->
         conceptTitle concept <> "__proto__" ->
         exists bytes,
           record_own (conceptTitle concept) (designs_of selectedVariations urls []) =
           Some (designUrl_of bytes)) /\
      (forall title, ~ In title (map conceptTitle selectedVariations) ->
         record_own title (designs_of selectedVariations urls []) = None))
   \/
   (exists pre concept post urls st_mid e stf,
      selectedVariations = (pre ++ concept :: post)%list /\
      rendered_in_order style n 0 pre start urls st_mid /\
      design_step style n (List.length pre) concept st_mid = (Throw e, stf) /\
      world st' = world stf /\ trace st' = trace stf /\
      fst run = Ok [] /\
      error u = Some (shown_message e) /\ step u = step (ui st))).
Proof.
  intros Hne n start run st' u. subst u st' run.
  rewrite (handleForgeDesigns_run style selectedVariations generatedDesigns st Hne).
  fold n. fold start.
  destruct (designs_loop_spec style n selectedVariations 0 [] start) as [Hsame Hres].
  remember (try_finally _ _ start) as res eqn:Hrun.
  unfold try_finally, try_catch, bind at 1 in Hrun.
  destruct (designs_loop_in_order style n selectedVariations 0%nat [] start)
    as [(urls & st1 & Hchain & Hloop)
       | (pre & c & post & urls & st_mid & e & stf & Hc & Hchain & Hfail & Hloop)];
    change (Z.of_nat 0) with 0 in Hloop; rewrite Hloop in Hrun, Hsame, Hres;
    cbn [fst snd] in Hsame, Hres;
    destruct Hsame as (Hstep & Hload & Herr & Hshow & Hhol & Htok & Hseld & Hfin & Hsucc);
    subst res; cbn; rewrite ?Hseld, ?Hhol, ?Htok, ?Hfin.
  - do 5 (split; [reflexivity|]). left. exists urls, st1.
    split; [exact Hchain|]. do 3 (split; [reflexivity|]).
    split; [exact Herr|]. split; [reflexivity|].
    specialize (Hres _ eq_refl). split.
    + intros concept Hin Hproto. specialize (Hres (conceptTitle concept)).
      destruct (in_dec string_dec (conceptTitle concept)
                  (map conceptTitle selectedVariations))
        as [_|Hn]; [|exfalso; apply Hn; now apply in_map].
      destruct Hres as [[Hp _]|[_ Hres]]; [contradiction | exact Hres].
    + intros title Hnin. specialize (Hres title).
      destruct (in_dec string_dec title (map conceptTitle selectedVariations))
        as [Hin|_]; [contradiction | exact Hres].
  - do 5 (split; [reflexivity|]). right. exists pre, c, post, urls, st_mid, e, stf.
    split; [exact Hc|]. split; [exact Hchain|]. split; [exact Hfail|].
    do 4 (split; [reflexivity|]). exact Hstep.
Qed.

End ForgeDesignsFacts.

(** Two concepts of which the second is refused: the first is rendered, the
    error of the second is shown and the design of the first is not kept. *)
Lemma handleForgeDesigns_all_or_nothing_witness :
  let st := Scenario.state_of Scenario.env_ok
              [Ok (Scenario.imageResponse "d01"); Throw Scenario.e400]
              (Scenario.ui_with "" [Scenario.design1] []) in
  let run := @handleForgeDesigns Scenario.env_ok RetroScript
               [Scenario.concept1; Scenario.concept2]
               [("Old", designUrl_of "old")] st in
  fst run = Ok [] /\ selectedDesigns (ui (snd run)) = [] /\
  error (ui (snd run)) = Some (JStr "API key not valid.").
Proof.
  intros st run.
  destruct (@handleForgeDesigns_all_or_nothing Scenario.env_ok RetroScript
              [Scenario.concept1; Scenario.concept2] [("Old", designUrl_of "old")] st)
    as (_ & Hsel & _ & _ & _ &
        [(urls & st1 & _ & _ & _ & _ & Herr & _)
        |(pre & c & post & urls & st_mid & e & stf & _ & _ & _ & _ & _ & Hfst & _)]).
  - discriminate.
  - exfalso. vm_compute in Herr. discriminate Herr.
  - fold run in Hfst, Hsel. split; [exact Hfst|]. split; [exact Hsel|].
    vm_compute. reflexivity.
Defined.

(* ===================================================================== *)
(** * The publish handler, from end to end *)
(* ===================================================================== *)

Section PublishHandlerFacts.
Context {E : Environment}.

(** X15. Without a token the publish makes no call at all: it opens the
    settings and leaves everything else, the loading flag and the messages
    included, as it was. *)
Theorem publish_without_token_opens_settings (product : FinalizedProduct) (st : St) :
  printifyToken (ui st) = "" ->
  let st' := snd (handlePrintifyPublish product st) in
  fst (handlePrintifyPublish product st) = Ok tt /\
  world st' = world st /\ trace st' = trace st /\
  showSettings (ui st') = true /\
  isLoading (ui st') = isLoading (ui st) /\
  error (ui st') = error (ui st) /\
  successMessage (ui st') = successMessage (ui st) /\
  finalizedProducts (ui st') = finalizedProducts (ui st).
Proof.
  intros Htok st'. subst st'.
  assert (Hrun : handlePrintifyPublish product st = setShowSettings true st).
  { unfold handlePrintifyPublish, bind at 1, get_ui. now rewrite Htok. }
  rewrite Hrun. cbn. repeat split.
Qed.

(** X16. With a token the publish does not throw and ends with the loading
    flag down; the step, the holiday, the token, the selection and the
    settings panel are not touched. When the three calls succeed, no error
    is shown, the success message cites the title of the listing the
    service returned and the finalized products are marked with the
    identifier of that listing. When one of them fails, the error of that
    call is shown, no success message is, and the finalized products are
    as they were. *)
Theorem publish_settles (product : FinalizedProduct) (st : St) :
  printifyToken (ui st) <> "" ->
  let u := ui st in
  let u' := ui (snd (handlePrintifyPublish product st)) in
  fst (handlePrintifyPublish product st) = Ok tt /\
  isLoading u' = false /\
  step u' = step u /\ holiday u' = holiday u /\ printifyToken u' = printifyToken u /\
  selectedDesigns u' = selectedDesigns u /\ showSettings u' = showSettings u /\
  match publish_answer (printifyToken u) product (world st) with
  | Ok published =>
      error u' = None /\
      successMessage u' =
        Some ("Successfully created " ++ dquote ++ product_title published ++ dquote ++
              " in Printify!") /\
      finalizedProducts u' =
        mark_published product (product_id published) (finalizedProducts u)
  | Throw e =>
      error u' = Some (shown_message e) /\
      successMessage u' = None /\
      finalizedProducts u' = finalizedProducts u
  end.
Proof.
  intros Htok u u'. subst u u'.
  pose proof (handlePrintifyPublish_calls product st Htok) as H.
  cbv zeta in H. unfold publish_answer.
  destruct (fetch_shops (printifyToken (ui st)) (world st)) as [shops w1].
  destruct (shop_result shops) as [shop|e].
  2:{ destruct H as (Hfst & _ & _ & Hshows). split; [exact Hfst | exact Hshows]. }
  destruct (fetch_upload (printifyToken (ui st)) _ _ w1) as [upload w2].
  destruct (upload_result upload) as [imageId|e].
  2:{ destruct H as (Hfst & _ & _ & Hshows). split; [exact Hfst | exact Hshows]. }
  destruct (fetch_product (printifyToken (ui st)) (shop_id shop) _ w2) as [created w3].
  destruct H as (Hfst & _ & _ & Hshows). split; [exact Hfst | exact Hshows].
Qed.

(** X17. When the lookup of the shops is answered but gives no shop, the
    publish stops there, on one call: an answer that is not ok shows the
    one fixed message of the token, whatever the service said, an empty
    list shows that no shop was found, and the finalized products are as
    they were. *)
Theorem publish_stops_at_the_shop_lookup (product : FinalizedProduct) (st : St)
  (response : HttpResponse (list PrintifyShop)) (w1 : World) :
  printifyToken (ui st) <> "" ->
  fetch_shops (printifyToken (ui st)) (world st) = (Ok response, w1) ->
  (forall body, response = HttpOk body -> body = Ok []) ->
  let st' := snd (handlePrintifyPublish product st) in
  world st' = w1 /\
  trace st' = (trace st ++ [EvFetch (GetShops (printifyToken (ui st)))])%list /\
  error (ui st') =
    Some (JStr match response with
               | HttpNotOk _ => "Failed to fetch Printify shops. Check your API Token."
               | HttpOk _ => "No Printify shops found for this account."
               end) /\
  finalizedProducts (ui st') = finalizedProducts (ui st).
Proof.
  intros Htok Hshops Hnone st'. subst st'.
  rewrite (handlePrintifyPublish_eq _ _ Htok).
  set (tok := printifyToken (ui st)) in *.
  set (msg := match response with
              | HttpNotOk _ => "Failed to fetch Printify shops. Check your API Token."
              | HttpOk _ => "No Printify shops found for this account."
              end).
  assert (Hshop : getPrintifyShop tok (publish_start st) =
                  (Throw (new_Error msg),
                   {| world := w1; trace := trace st ++ [EvFetch (GetShops tok)];
                      ui := ui (publish_start st) |})).
  { unfold getPrintifyShop, bind at 1. rewrite remote_eq.
    change (world (publish_start st)) with (world st). rewrite Hshops.
    subst msg. destruct response as [body|error_body]; [|reflexivity].
    rewrite (Hnone body eq_refl). reflexivity. }
  remember (try_finally _ _ (publish_start st)) as res eqn:Hres.
  unfold try_finally, try_catch, publish_body, bind at 1 in Hres.
  rewrite Hshop in Hres. subst res. cbn. repeat split.
Qed.

End PublishHandlerFacts.

Lemma publish_without_token_opens_settings_witness :
  trace (snd (@handlePrintifyPublish Scenario.env_ok Scenario.as_mug Scenario.st_one)) = [] /\
  showSettings
    (ui (snd (@handlePrintifyPublish Scenario.env_ok Scenario.as_mug Scenario.st_one))) =
  true.
Proof.
  destruct (@publish_without_token_opens_settings Scenario.env_ok Scenario.as_mug
              Scenario.st_one) as (_ & _ & Htr & Hshow & _).
  - reflexivity.
  - split; [exact Htr | exact Hshow].
Defined.

(** The upload is answered 503: the error of the upload is shown and the
    products are as they were. *)
Lemma publish_settles_witness :
  let u' := ui (snd (@handlePrintifyPublish Scenario.env_upload_503 Scenario.as_mug
                       Scenario.st_publish_503)) in
  isLoading u' = false /\
  error u' = Some (JStr ("Image upload failed: " ++ Scenario.upload_error_body)) /\
  finalizedProducts u' = finalizedProducts (ui Scenario.st_publish_503).
Proof.
  pose proof (@publish_settles Scenario.env_upload_503 Scenario.as_mug
                Scenario.st_publish_503) as H.
  assert (Htok : printifyToken (ui Scenario.st_publish_503) <> "") by discriminate.
  specialize (H Htok). cbv zeta in H.
  destruct H as (_ & Hload & _ & _ & _ & _ & _ & Hshows).
  cbn in Hshows. destruct Hshows as (Herr & _ & Hfin).
  split; [exact Hload|]. split; [exact Herr | exact Hfin].
Defined.

Lemma publish_stops_at_the_shop_lookup_witness :
  error (ui (snd (@handlePrintifyPublish env_token_refused Scenario.as_mug
                    st_token_refused))) =
  Some (JStr "Failed to fetch Printify shops. Check your API Token.").
Proof.
  destruct (@publish_stops_at_the_shop_lookup env_token_refused Scenario.as_mug
              st_token_refused (HttpNotOk (Ok "{}")) [])
    as (_ & _ & Herr & _).
  - discriminate.
  - reflexivity.
  - intros body H. discriminate H.
  - exact Herr.
Defined.

(* ===================================================================== *)
(** * The products and their payload *)
(* ===================================================================== *)

(** X18. A second publish under a title overwrites the identifier of the
    first: of two marks under the same title the later one is the one
    kept, and the mark depends on the title of the product only. *)
Theorem mark_published_last_wins (product other : FinalizedProduct) (id1 id2 : string)
  (prev : list FinalizedProduct) :
  conceptTitle (concept other) = conceptTitle (concept product) ->
  mark_published other id2 (mark_published product id1 prev) =
  mark_published product id2 prev.
Proof.
  intros Htitle. unfold mark_published. rewrite map_map, Htitle.
  apply map_ext. intros p.
  destruct (String.eqb (conceptTitle (concept p)) (conceptTitle (concept product)))
    eqn:Hp; cbn [with_printifyId concept]; now rewrite Hp.
Qed.

Lemma mark_published_last_wins_witness :
  mark_published Scenario.as_mug "prod-2"
    (mark_published (Scenario.product_of Scenario.design1 ["m"]) "prod-1"
       Scenario.on_display) =
  mark_published (Scenario.product_of Scenario.design1 ["m"]) "prod-2" Scenario.on_display.
Proof.
  apply (mark_published_last_wins (Scenario.product_of Scenario.design1 ["m"])
           Scenario.as_mug "prod-1" "prod-2" Scenario.on_display).
  reflexivity.
Defined.

(** X19. Whatever the product type, the payload of a listing offers at
    least one variant, no variant twice, every one enabled at 2500 cents,
    and its one print area covers the variants offered and no other; the
    image is placed once, on the front. The mapping has an entry for every
    product type. *)
Theorem productPayload_is_consistent (productType : ProductType) (imageId : string)
  (listingCopy : ListingCopy) :
  let payload := productPayload productType imageId listingCopy in
  offered payload <> [] /\ NoDup (offered payload) /\
  covered payload = offered payload /\
  Forall (fun v => price v = 2500 /\ is_enabled v = true) (variants payload) /\
  flat_map (fun area => map position (placeholders area)) (print_areas payload) = ["front"] /\
  flat_map (fun area => flat_map (fun ph => map image_id (images ph)) (placeholders area))
    (print_areas payload) = [imageId].
Proof.
  destruct productType; cbn; repeat split;
    try discriminate; repeat constructor; cbn; intuition discriminate.
Qed.

(* ===================================================================== *)
(** * The finalization, when it fails early, and its handler *)
(* ===================================================================== *)

Section FinalizationFacts.
Context {E : Environment}.

Lemma call_block_without_image (req : GenRequest) (evs : list Event) :
  carries_image (EvGenerateContent req) = false ->
  call_block req evs -> Forall (fun ev => carries_image ev = false) evs.
Proof.
  intros Hreq [_ Hall]. eapply Forall_impl; [|exact Hall].
  intros ev [_ Hremote]. destruct ev; try reflexivity.
  now rewrite (Hremote eq_refl).
Qed.

(** X20. When the listing copy does not come back, the finalization fails
    with the very error of that stage, and no request that carries an image
    has been made: the design URL is not read and no scene is asked for. *)
Theorem listing_copy_failure_spares_the_images (url : string) (concept : ProductConcept)
  (holiday : string) (pt : ProductType) (onProgress : option Callback) (st : St)
  (e : JsError) :
  quiet_opt onProgress ->
  listing_copy_fails concept (world st) e ->
  let run := generateFinalAssets url concept holiday pt onProgress st in
  fst run = Throw e /\
  exists evs : list Event,
    trace (snd run) = (trace st ++ evs)%list /\
    Forall (fun ev => carries_image ev = false) evs.
Proof.
  intros Hq Hfail run. subst run.
  destruct (generateFinalAssets_spec url concept holiday pt onProgress st Hq)
    as (copy_evs & Hblock & Hspec).
  cbv zeta in Hspec. unfold listing_copy_fails in Hfail.
  remember (generateFinalAssets url concept holiday pt onProgress st) as run eqn:Erun.
  clear Erun.
  set (totalSteps := Z.of_nat (List.length (getMockupPrompts pt concept holiday)) + 1) in *.
  assert (Hrun : exists u w1,
            run = (Throw e,
                   {| world := w1;
                      trace := (trace st ++ report onProgress 0 totalSteps ++ copy_evs) ++
                               [EvConsoleError "Error generating listing copy:" e;
                                EvConsoleError "Error generating final assets:" e];
                      ui := u |})).
  { destruct (executor_on (listingCopyRequest concept) (world st)) as [[response|e'] w1].
    - rewrite Hfail in Hspec. destruct Hspec as [u Hu]. now exists u, w1.
    - subst e'. destruct Hspec as [u Hu]. now exists u, w1. }
  destruct Hrun as (u & w1 & Hrun). subst run. split; [reflexivity|].
  cbn [snd trace]. rewrite <- !app_assoc. eexists. split; [reflexivity|].
  assert (Hcopy : Forall (fun ev => carries_image ev = false) copy_evs)
    by (apply (call_block_without_image (listingCopyRequest concept));
        [reflexivity | exact Hblock]).
  apply Forall_app. split; [destruct onProgress; repeat constructor|].
  apply Forall_app. split; [exact Hcopy | repeat constructor].
Qed.

(** X21. The handler of the finalization does not throw, whatever the
    stages do, and does not touch the holiday, the token, the selection,
    the settings panel or a success message of an earlier publish. Over an
    empty batch it does nothing at all; over any other it ends with the
    loading flag down. *)
Theorem handleForgeAssets_settles (singleDesign : option DesignItem) (st : St) :
  let designs := match singleDesign with
                 | Some d => [d]
                 | None => selectedDesigns (ui st)
                 end in
  let run := handleForgeAssets singleDesign st in
  let u := ui st in
  let u' := ui (snd run) in
  fst run = Ok tt /\
  holiday u' = holiday u /\ printifyToken u' = printifyToken u /\
  selectedDesigns u' = selectedDesigns u /\ showSettings u' = showSettings u /\
  successMessage u' = successMessage u /\
  (designs = [] /\ snd run = st \/ designs <> [] /\ isLoading u' = false).
Proof.
  intros designs run u u'. subst run u u'.
  destruct designs as [|d0 rest0] eqn:Hd.
  - assert (Hrun : handleForgeAssets singleDesign st = (Ok tt, st)).
    { unfold handleForgeAssets, bind at 1, get_ui. fold designs. now rewrite Hd. }
    rewrite Hrun. repeat split. now left.
  - assert (Hne : designs <> []) by (rewrite Hd; discriminate).
    rewrite (handleForgeAssets_run singleDesign st Hne). fold designs.
    pose proof (frames_forge_loop (holiday (ui st)) (Z.of_nat (List.length designs))
                  designs 0 [] (batch_start st)) as Hsame.
    remember (try_finally _ _ (batch_start st)) as res eqn:Hres.
    unfold try_finally, try_catch, bind at 1 in Hres.
    destruct (forge_loop _ _ designs 0 [] (batch_start st)) as [[products|e] st1];
      cbn [snd] in Hsame;
      destruct Hsame as (Hstep & Hload & Herr & Hshow & Hhol & Htok & Hseld & Hfin & Hsucc);
      subst res; cbn; rewrite ?Hhol, ?Htok, ?Hseld, ?Hshow, ?Hsucc;
      repeat split; right; split; congruence.
Qed.

End FinalizationFacts.

Lemma listing_copy_failure_spares_the_images_witness :
  fst (@generateFinalAssets Scenario.env_ok (di_url Scenario.design1) Scenario.concept1
         "Christmas" Sweatshirt None st_copy_refused) = Throw Scenario.e400.
Proof.
  destruct (@listing_copy_failure_spares_the_images Scenario.env_ok
              (di_url Scenario.design1) Scenario.concept1 "Christmas" Sweatshirt None
              st_copy_refused Scenario.e400) as [H _].
  - intros cb Hcb. discriminate Hcb.
  - vm_compute. reflexivity.
  - exact H.
Defined.

(** X22. The scenes asked for depend on the concept through its fusion
    only: two concepts with the same fusion, whatever their titles, texts
    and visions, get the same twelve prompts, each of which ends with the
    rule on the quality of the models. *)
Theorem getMockupPrompts_depend_on_the_fusion_only (productType : ProductType)
  (concept other : ProductConcept) (holiday : string) :
  fusion other = fusion concept ->
  getMockupPrompts productType other holiday =
    getMockupPrompts productType concept holiday /\
  List.length (getMockupPrompts productType concept holiday) = 12%nat /\
  Forall (fun prompt => exists scene, prompt = scene ++ " " ++ modelQualityRule)
    (getMockupPrompts productType concept holiday).
Proof.
  intros Hfusion. unfold getMockupPrompts, basePrompts. rewrite Hfusion.
  split; [reflexivity|]. split; [reflexivity|].
  apply Forall_map, Forall_forall. intros scene _. now exists scene.
Qed.

Lemma getMockupPrompts_depend_on_the_fusion_only_witness :
  getMockupPrompts Mug
    {| conceptTitle := "Ho Ho Ho"; displayText := "Ho Ho Ho";
       fusion := fusion Scenario.concept1; vision := "Three words in a row.";
       whyItWorks := "Short." |} "Christmas" =
  getMockupPrompts Mug Scenario.concept1 "Christmas".
Proof.
  apply (getMockupPrompts_depend_on_the_fusion_only Mug Scenario.concept1
           {| conceptTitle := "Ho Ho Ho"; displayText := "Ho Ho Ho";
              fusion := fusion Scenario.concept1; vision := "Three words in a row.";
              whyItWorks := "Short." |} "Christmas").
  reflexivity.
Defined.
